(** * Backend registry, device sessions, JIT bridge and kernel launcher

    A shallow embedding of [feme.c], [backends/cuda/ceed-cuda.c],
    [backends/hip/ceed-hip.cpp] and [backends/occa/registration.cpp].

    C functions become programs over an interface of collaborator calls
    (libc allocation, the vendor runtimes, and calls through stored function
    pointers).  A program is a finite tree: it returns, aborts the process,
    runs into undefined behaviour, or performs a call and continues with the
    answer.  Properties quantify over every answer the collaborators may
    give; concrete scenarios are evaluated with [run]. *)

From Stdlib Require Import ZArith Lia List String Ascii DecimalString DecimalZ
  DecimalPos.
From stdpp Require Import base option list gmap strings.

Local Open Scope string_scope.
Local Open Scope list_scope.
Local Open Scope nat_scope.
Local Open Scope stdpp_scope.

(** ** C strings *)

Definition NUL : ascii := Ascii.zero.

Definition is_NUL (c : ascii) : bool := Ascii.eqb c NUL.

(** The characters a [char] array denotes when read as a string: everything
    before the first terminator. *)
Fixpoint cstr (s : list ascii) : list ascii :=
  match s with
  | [] => []
  | c :: s' => if is_NUL c then [] else c :: cstr s'
  end.

(** A [const char *] argument is written as a Rocq string. *)
Definition chars (s : string) : list ascii := cstr (list_ascii_of_string s).

Definition strlen (s : string) : nat := length (chars s).

(** [s[n]] for [n <= strlen s]: the terminator sits at index [strlen s]. *)
Definition char_at (s : string) (n : nat) : ascii := nth n (chars s) NUL.

(** [&s[n]] for [n <= strlen s]. *)
Definition str_from (s : string) (n : nat) : list ascii := drop n (chars s).

(** [strncpy(dst, src, n)]: the first [n] characters of [src], padded with
    terminators up to [n] when [src] is shorter; no terminator is written
    when [src] has [n] characters or more. *)
Definition strncpy (src : string) (n : nat) : list ascii :=
  take n (chars src ++ replicate n NUL).

(** [strncmp(a, b, n) == 0]. *)
Fixpoint strncmp_eq (a b : list ascii) (n : nat) : bool :=
  match n with
  | O => true
  | S n' =>
      match a, b with
      | [], [] => true
      | x :: a', y :: b' => Ascii.eqb x y && strncmp_eq a' b' n'
      | _, _ => false
      end
  end.

(** [snprintf(buf, size, ...)] keeps at most [size - 1] characters of the
    formatted text. *)
Definition snprintf (size : nat) (text : string) : string :=
  substring 0 (size - 1) text.

(** [%d] *)
Definition fmt_d (z : Z) : string := NilEmpty.string_of_int (Z.to_int z).

(** ** Contexts *)

(** A function pointer is named by the symbol it points to. *)
Definition FnRef := string.

Abbreviation addr := nat.

(** [Ceed_Cuda] and [Ceed_Hip], the device sessions (the members the
    sources read and write). *)
Record DeviceSession := {
  deviceId : Z;
  optblocksize : Z;
  blasHandle : option Z
}.

Inductive BackendData :=
| CudaData (d : DeviceSession)
| HipData (d : DeviceSession)
| OccaData (device : Z).

(** The context object behind a [Feme] / [Ceed] handle.  [Error] is the
    installed error handler; [ops] holds the struct's function-pointer
    members by member name, a NULL member being an absent key, so that
    the [Destroy] member is [ops !! "Destroy"]. *)
Record Feme_private := {
  Error : option FnRef;
  data : option BackendData;
  ops : gmap string FnRef
}.

Definition Destroy (f : Feme_private) : option FnRef := ops f !! "Destroy".

Abbreviation Heap := (gmap nat Feme_private).

(** What [calloc] hands out. *)
Definition zeroed : Feme_private :=
  {| Error := None; data := None; ops := ∅ |}.

(** ** Collaborator calls *)

Inductive Vendor := Cuda | Hip.

Record DeviceProp := {
  major : Z;
  minor : Z;
  gcnArch : Z;
  maxThreadsPerBlock : Z
}.

(** A result that may instead be an [occa::exception]. *)
Inductive Exc (A : Type) :=
| Normal (a : A)
| Thrown (what : string).
Arguments Normal {A} a.
Arguments Thrown {A} what.

Inductive Call :=
(* calls through stored function pointers *)
| CallInit (fn : FnRef) (resource : string) (f : addr) (h : Heap)
| CallDestroy (fn : FnRef) (f : addr) (h : Heap)
| CallError (fn : FnRef) (ecode : Z) (msg : string)
(* libc *)
| calloc (n unit : Z)
| posix_memalign (size : Z)
(* the core's table of settable members *)
| FunctionSlot (type fname : string)
(* vendor runtime, runtime compiler and driver *)
| gpuFree0 (v : Vendor)
| gpuGetDevice (v : Vendor)
| gpuSetDevice (v : Vendor) (device : Z)
| gpuGetDeviceProperties (v : Vendor) (device : Z)
| gpuErrorName (v : Vendor) (result : Z)
| rtcCreateProgram (v : Vendor) (source : string)
| rtcCompileProgram (v : Vendor) (prog : Z) (numopts : Z) (opts : list string)
| rtcGetProgramLogSize (v : Vendor) (prog : Z)
| rtcGetProgramLog (v : Vendor) (prog : Z)
| rtcGetErrorString (v : Vendor) (result : Z)
| rtcGetCodeSize (v : Vendor) (prog : Z)
| rtcGetCode (v : Vendor) (prog : Z)
| rtcDestroyProgram (v : Vendor) (prog : Z)
| gpuModuleLoadData (v : Vendor) (image : string)
| gpuLaunchKernel (v : Vendor) (kernel : Z)
    (gridDimX gridDimY gridDimZ blockDimX blockDimY blockDimZ : Z)
    (sharedMemBytes : Z) (stream : option Z) (args : list Z) (extra : option Z)
(* OCCA *)
| occa_modeIsEnabled (mode : string)
| occa_properties (text : string)
| occa_properties_has (text key : string)
| occa_device (text : string) (mode : option string).

(** The type of answer each call gives back. *)
Definition Resp (c : Call) : Type :=
  match c with
  | CallInit _ _ _ _ => (Z * Heap)%type
  | CallDestroy _ _ _ => (Z * Heap)%type
  | CallError _ _ _ => Z
  | calloc _ _ => option addr
  | posix_memalign _ => Z
  | FunctionSlot _ _ => bool
  | gpuFree0 _ => Z
  | gpuGetDevice _ => (Z * Z)%type
  | gpuSetDevice _ _ => Z
  | gpuGetDeviceProperties _ _ => (Z * DeviceProp)%type
  | gpuErrorName _ _ => string
  | rtcCreateProgram _ _ => (Z * Z)%type
  | rtcCompileProgram _ _ _ _ => Z
  | rtcGetProgramLogSize _ _ => (Z * Z)%type
  | rtcGetProgramLog _ _ => (Z * string)%type
  | rtcGetErrorString _ _ => string
  | rtcGetCodeSize _ _ => (Z * Z)%type
  | rtcGetCode _ _ => (Z * string)%type
  | rtcDestroyProgram _ _ => Z
  | gpuModuleLoadData _ _ => (Z * Z)%type
  | gpuLaunchKernel _ _ _ _ _ _ _ _ _ _ _ _ => Z
  | occa_modeIsEnabled _ => bool
  | occa_properties _ => Exc unit
  | occa_properties_has _ _ => bool
  | occa_device _ _ => Exc Z
  end.

(** ** Programs *)

Inductive Prog (A : Type) : Type :=
| Ret (a : A)
| Abort (msg : string)
| Undef
| Do (c : Call) (k : Resp c -> Prog A).
Arguments Ret {A} a.
Arguments Abort {A} msg.
Arguments Undef {A}.
Arguments Do {A} c k.

Fixpoint bind {A B} (p : Prog A) (f : A -> Prog B) : Prog B :=
  match p with
  | Ret a => f a
  | Abort msg => Abort msg
  | Undef => Undef
  | Do c k => Do c (fun x => bind (k x) f)
  end.

Notation "'do' x <- p ; q" := (bind p (fun x => q))
  (at level 10, x pattern, p at level 100, q at level 200).

Definition call (c : Call) : Prog (Resp c) := Do c Ret.

(** How a program ends. *)
Inductive Outcome (A : Type) :=
| Returned (a : A)
| Aborted (msg : string)
| Undefined.
Arguments Returned {A} a.
Arguments Aborted {A} msg.
Arguments Undefined {A}.

(** A call together with the answer it got. *)
Inductive Event := Ev (c : Call) (x : Resp c).

Definition call_of (e : Event) : Call := let 'Ev c _ := e in c.

(** [Runs p t o]: some choice of answers makes [p] perform the calls of [t],
    in that order and with those answers, and end as [o]. *)
Fixpoint Runs {A} (p : Prog A) (t : list Event) (o : Outcome A) : Prop :=
  match p with
  | Ret a => t = [] /\ o = Returned a
  | Abort msg => t = [] /\ o = Aborted msg
  | Undef => t = [] /\ o = Undefined
  | Do c k => exists x t', t = Ev c x :: t' /\ Runs (k x) t' o
  end.

(** An environment answers every call. *)
Definition Env := forall c : Call, Resp c.

Fixpoint run {A} (env : Env) (p : Prog A) : list Event * Outcome A :=
  match p with
  | Ret a => ([], Returned a)
  | Abort msg => ([], Aborted msg)
  | Undef => ([], Undefined)
  | Do c k => let r := run env (k (env c)) in (Ev c (env c) :: fst r, snd r)
  end.

(** Resolving calls to functions whose bodies are known. *)
Definition Impl := forall c : Call, option (Prog (Resp c)).

Fixpoint link (impl : Impl) {A} (p : Prog A) : Prog A :=
  match p with
  | Ret a => Ret a
  | Abort msg => Abort msg
  | Undef => Undef
  | Do c k =>
      match impl c with
      | Some q => bind q (fun x => link impl (k x))
      | None => Do c (fun x => link impl (k x))
      end
  end.

(** ** feme.c: error reporting and allocation *)

(** [if (ierr) return ierr;] with [s] the values of the out-parameters and
    of memory at that point.  The macro itself ([FemeChk] / [CeedChk]) lives
    in a header that is not among the sources. *)
Definition FemeChk {S} (ierr : Z) (s : S) (k : Prog (Z * S)) : Prog (Z * S) :=
  if Z.eqb ierr 0 then k else Ret (ierr, s).

Definition FemeErrorReturn (ecode : Z) (msg : string) : Prog Z := Ret ecode.

(** Prints the location and the message, then [abort()]; the [return] after
    it is never reached. *)
Definition FemeErrorAbort (ecode : Z) (msg : string) : Prog Z := Abort msg.

(** [feme] is NULL ([None]) or the context pointed to.  Calling a NULL
    handler member is undefined. *)
Definition FemeErrorImpl (feme : option Feme_private) (ecode : Z) (msg : string)
  : Prog Z :=
  match feme with
  | Some ctx =>
      match Error ctx with
      | Some fn => call (CallError fn ecode msg)
      | None => Undef
      end
  | None => FemeErrorAbort ecode msg
  end.

(** The [FemeError] / [CeedError] macro passes the location and formats the
    message; [msg] is the formatted text. *)
Definition FemeError := FemeErrorImpl.

(** Reading through a context pointer. *)
Definition deref (h : Heap) (f : addr) : Prog Feme_private :=
  match h !! f with
  | Some ctx => Ret ctx
  | None => Undef
  end.

Definition CeedError (ceed : addr) (h : Heap) (ecode : Z) (msg : string) : Prog Z :=
  do ctx <- deref h ceed;
  FemeError (Some ctx) ecode msg.

(** [size_t] arithmetic is modulo [2 ^ 64], the width of the 64-bit
    targets the backends are built for. *)
Definition size_t_modulus : Z := 2 ^ 64.

Definition to_size_t (z : Z) : Z := z mod size_t_modulus.

(** [%zd] given a [size_t]: the signed value of the same width. *)
Definition fmt_zd (z : Z) : string :=
  let u := to_size_t z in
  fmt_d (if Z.ltb u (2 ^ 63) then u else u - size_t_modulus).

(** The text of the two allocation failures, as [FemeErrorAbort] prints it
    after the location. *)
Definition allocation_failure (what : string) (n unit : Z) : string :=
  what +:+ " failed to allocate " +:+ fmt_zd n +:+ " members of size "
       +:+ fmt_zd unit +:+ String "010" "".

Arguments allocation_failure : simpl never.

(** The size handed to [posix_memalign] is the [size_t] product [n*unit],
    which wraps. *)
Definition FemeMallocArray (n unit : Z) : Prog Z :=
  do ierr <- call (posix_memalign (to_size_t (n * unit)));
  if Z.eqb ierr 0 then Ret 0%Z
  else FemeError None ierr (allocation_failure "posix_memalign" n unit).

Definition FemeCallocArray (n unit : Z) : Prog (Z * option addr) :=
  do p <- call (calloc n unit);
  if negb (Z.eqb n 0) && negb (Z.eqb unit 0) && negb (bool_decide (is_Some p))
  then do ierr <- FemeError None 1 (allocation_failure "calloc" n unit); Ret (ierr, p)
  else Ret (0%Z, p).

(** [free( *p ); *p = NULL;] on a context handle.  Freeing what is not
    allocated is undefined. *)
Definition FemeFree (p : option addr) (h : Heap) : Prog (Z * (option addr * Heap)) :=
  match p with
  | None => Ret (0%Z, (None, h))
  | Some a =>
      match h !! a with
      | Some _ => Ret (0%Z, (None, delete a h))
      | None => Undef
      end
  end.

(** ** feme.c: the registry *)

(** One slot of the static table.  [prefix] is the whole [char] array.
    Modelled from the spec: [priority], the third argument the backends pass
    to [CeedRegister] and the third member of the spec's BackendRegistration;
    the struct in feme.c has no such member, and a registration made through
    [FemeRegister] has none. *)
Record backend := {
  prefix : list ascii;
  init : FnRef;
  priority : option Z
}.

(** [backends] with its [num_backends] used slots. *)
Abbreviation Registry := (list backend).

(** [sizeof(backends) / sizeof(backends[0])] *)
Definition slots : nat := 32.

Section Feme.

(** [FEME_MAX_RESOURCE_LEN] and [sizeof(struct Feme_private)]: declared in
    headers that are not among the sources. *)
Variable FEME_MAX_RESOURCE_LEN : nat.
Variable sizeof_Feme : Z.

Definition register (priority : option Z) (prefix : string) (init : FnRef)
    (st : Registry) : Prog (Z * Registry) :=
  if Nat.leb slots (length st) then
    do ierr <- FemeError None 1 "Too many backends"; Ret (ierr, st)
  else
    Ret (0%Z, st ++ [ {| prefix := strncpy prefix FEME_MAX_RESOURCE_LEN;
                         init := init;
                         priority := priority |} ]).

Definition FemeRegister : string -> FnRef -> Registry -> Prog (Z * Registry) :=
  register None.

(** Modelled from the spec: [CeedRegister], the three-argument registration
    the backends call ([ceed.c] is not among the sources): it appends an
    entry {prefix, initializer, priority} and fails once the slot limit is
    reached. *)
Definition CeedRegister (prefix : string) (init : FnRef) (priority : Z)
  : Registry -> Prog (Z * Registry) :=
  register (Some priority) prefix init.

(** [for (n = 0; prefix[n] && prefix[n] == resource[n]; n++) {}] on the
    stored array; [None] when the scan leaves the array. *)
Fixpoint match_prefix (prefix resource : list ascii) : option nat :=
  match prefix with
  | [] => None
  | p :: prefix' =>
      if is_NUL p then Some 0
      else
        match resource with
        | r :: resource' =>
            if Ascii.eqb p r then S <$> match_prefix prefix' resource'
            else Some 0
        | [] => Some 0
        end
  end.

(** The outer loop of [FemeInit] from slot [i] on; [matchidx] starts
    uninitialised ([None]). *)
Fixpoint FemeInit_scan (bs : list backend) (i : nat) (resource : list ascii)
    (matchlen : nat) (matchidx : option nat) : option (nat * option nat) :=
  match bs with
  | [] => Some (matchlen, matchidx)
  | b :: bs' =>
      match match_prefix (prefix b) resource with
      | None => None
      | Some n =>
          if Nat.ltb matchlen n
          then FemeInit_scan bs' (S i) resource n (Some i)
          else FemeInit_scan bs' (S i) resource matchlen matchidx
      end
  end.

(** [backends[matchidx].init]; reading through an uninitialised index or
    past the used slots yields no function. *)
Definition selected_init (st : Registry) (matchidx : option nat) : option FnRef :=
  match matchidx with
  | None => None
  | Some i => init <$> st !! i
  end.

(** After the scan found a match: allocate, install the default handler,
    call the selected initializer [fn]. *)
Definition FemeInit_create (fn : option FnRef) (resource : string)
    (feme : option addr) (h : Heap) : Prog (Z * (option addr * Heap)) :=
  do (ierr, p) <- FemeCallocArray 1 sizeof_Feme;
  FemeChk ierr (p, h)
    match p with
    | None => Undef
    | Some a =>
        let h1 := <[a := {| Error := Some "FemeErrorAbort";
                            data := data zeroed;
                            ops := ops zeroed |}]> h in
        match fn with
        | None => Undef
        | Some init =>
            do (ierr, h2) <- call (CallInit init resource a h1);
            FemeChk ierr (Some a, h2) (Ret (0%Z, (Some a, h2)))
        end
    end.

(** [feme] is the value of the caller's handle on entry; the result carries
    the return code, the handle and memory on exit. *)
Definition FemeInit (st : Registry) (resource : string) (feme : option addr)
    (h : Heap) : Prog (Z * (option addr * Heap)) :=
  match FemeInit_scan st 0 (chars resource) 0 None with
  | None => Undef
  | Some (matchlen, matchidx) =>
      if Nat.eqb matchlen 0 then
        do ierr <- FemeError None 1 "No suitable backend"; Ret (ierr, (feme, h))
      else FemeInit_create (selected_init st matchidx) resource feme h
  end.

Definition FemeDestroy (feme : option addr) (h : Heap)
  : Prog (Z * (option addr * Heap)) :=
  match feme with
  | None => Ret (0%Z, (None, h))
  | Some a =>
      do ctx <- deref h a;
      do (ierr, h1) <- match Destroy ctx with
                     | Some fn => call (CallDestroy fn a h)
                     | None => Ret (0%Z, h)
                     end;
      FemeChk ierr (Some a, h1)
        (do (ierr, r) <- FemeFree (Some a) h1;
         FemeChk ierr r (Ret (0%Z, r)))
  end.

End Feme.

(** ** The core functions the backends call *)

(** Modelled from the spec: [CeedGetData] and [CeedSetData] of [ceed.c]
    (not among the sources) read and write the backend-private data of the
    context. *)
Definition CeedGetData (ceed : addr) (h : Heap) : Prog (Z * option BackendData) :=
  do ctx <- deref h ceed;
  Ret (0%Z, data ctx).

Definition CeedSetData (ceed : addr) (d : option BackendData) (h : Heap)
  : Prog (Z * Heap) :=
  do ctx <- deref h ceed;
  Ret (0%Z, <[ceed := {| Error := Error ctx; data := d; ops := ops ctx |}]> h).

(** Modelled from the spec: [CeedSetBackendFunction] of [ceed.c] (not among
    the sources) installs an entry keyed by the operation name, or fails
    when the core rejects the name; whether it does is the core's answer to
    [FunctionSlot]. *)
Definition CeedSetBackendFunction (ceed : addr) (type : string) (obj : addr)
    (fname : string) (f : FnRef) (h : Heap) : Prog (Z * Heap) :=
  do ok <- call (FunctionSlot type fname);
  if ok then
    do ctx <- deref h obj;
    Ret (0%Z, <[obj := {| Error := Error ctx; data := data ctx;
                          ops := <[fname := f]> (ops ctx) |}]> h)
  else
    do ierr <- CeedError ceed h 1 ("Requested function was not found: " +:+ fname);
    Ret (ierr, h).

(** A run of [CeedSetBackendFunction(ceed, "Ceed", ceed, name, f); CeedChk(ierr);]
    statements, in order. *)
Fixpoint set_functions (ceed : addr) (fs : list (string * FnRef)) (h : Heap)
  : Prog (Z * Heap) :=
  match fs with
  | [] => Ret (0%Z, h)
  | (fname, f) :: fs' =>
      do (ierr, h1) <- CeedSetBackendFunction ceed "Ceed" ceed fname f h;
      FemeChk ierr h1 (set_functions ceed fs' h1)
  end.

(** Modelled from the spec: the [CeedChk_Cu] / [CeedChk_Hip] /
    [CeedChk_ModHip] and [CeedChk_Nvrtc] / [CeedChk_Hiprtc] macros of the
    backend headers (not among the sources): a failing driver or compiler
    result is reported at once through [CeedError] with the vendor's text
    for it, and returned. *)
Definition CeedChk_gpu {S} (v : Vendor) (ceed : addr) (h : Heap) (result : Z)
    (s : S) (k : Prog (Z * S)) : Prog (Z * S) :=
  if Z.eqb result 0 then k
  else
    do msg <- call (gpuErrorName v result);
    do ierr <- CeedError ceed h result msg;
    Ret (ierr, s).

Definition CeedChk_rtc {S} (v : Vendor) (ceed : addr) (h : Heap) (result : Z)
    (s : S) (k : Prog (Z * S)) : Prog (Z * S) :=
  if Z.eqb result 0 then k
  else
    do msg <- call (rtcGetErrorString v result);
    do ierr <- CeedError ceed h result msg;
    Ret (ierr, s).

(** [%s] *)
Definition fmt_s (s : string) : string := string_of_list_ascii (chars s).

(** The characters [atoi] skips and reads. *)
Definition is_space (c : ascii) : bool :=
  let n := nat_of_ascii c in Nat.eqb n 32 || (Nat.leb 9 n && Nat.leb n 13).

Definition is_digit (c : ascii) : bool :=
  let n := nat_of_ascii c in Nat.leb 48 n && Nat.leb n 57.

Fixpoint skip_space (l : list ascii) : list ascii :=
  match l with
  | c :: l' => if is_space c then skip_space l' else l
  | [] => []
  end.

Fixpoint digits_value (l : list ascii) (acc : Z) : Z :=
  match l with
  | c :: l' =>
      if is_digit c
      then digits_value l' (10 * acc + Z.of_nat (nat_of_ascii c - 48))%Z
      else acc
  | [] => acc
  end.

(** The number written at the start of a string: leading white space, an
    optional sign, then decimal digits. *)
Definition decimal_value (l : list ascii) : Z :=
  match skip_space l with
  | c :: l' =>
      if Ascii.eqb c "-" then (- digits_value l' 0)%Z
      else if Ascii.eqb c "+" then digits_value l' 0%Z
      else digits_value (c :: l') 0%Z
  | [] => 0%Z
  end.

(** [strtol] gives [LONG_MIN] or [LONG_MAX] for a number outside [long];
    the conversion to [int] keeps the low 32 bits. *)
Definition clamp_long (z : Z) : Z := Z.max (- 2 ^ 63) (Z.min (2 ^ 63 - 1) z).

Definition to_int (z : Z) : Z := (z + 2 ^ 31) mod 2 ^ 32 - 2 ^ 31.

(** [atoi], computed as [(int) strtol(s, NULL, 10)].  (The C standard
    leaves a value outside [int] undefined; this is what the C library the
    backends link against does.) *)
Definition atoi (l : list ascii) : Z := to_int (clamp_long (decimal_value l)).

(** ** backends/cuda/ceed-cuda.c and backends/hip/ceed-hip.cpp *)

Section Gpu.

(** [sizeof(Ceed_Cuda)], [sizeof(Ceed_Hip)], [sizeof(ceed::occa::Context)]. *)
Variable sizeof_data : Z.

Definition wrap (v : Vendor) (d : DeviceSession) : BackendData :=
  match v with Cuda => CudaData d | Hip => HipData d end.

(** The cast of the private data to [Ceed_Cuda *] / [Ceed_Hip *]. *)
Definition session (v : Vendor) (d : option BackendData) : option DeviceSession :=
  match v, d with
  | Cuda, Some (CudaData s) => Some s
  | Hip, Some (HipData s) => Some s
  | _, _ => None
  end.

Definition optslen : nat := 32.
Definition optsextra : Z := 4.

(** The kernel-specific options read from the variadic arguments. *)
Definition kernel_opts (args : list (string * Z)) : list string :=
  map (fun a => snprintf optslen ("-D" +:+ fmt_s (fst a) +:+ "=" +:+ fmt_d (snd a)))
      args.

(** The fourth standard option. *)
Definition arch_opt (v : Vendor) (prop : DeviceProp) : string :=
  match v with
  | Cuda => snprintf optslen ("-arch=compute_" +:+ fmt_d (major prop) +:+ fmt_d (minor prop))
  | Hip => snprintf optslen ("--gpu-architecture=" +:+ ("gfx" +:+ fmt_d (gcnArch prop)))
  end.

Definition standard_opts (v : Vendor) (prop : DeviceProp) : list string :=
  [ "-DCeedScalar=double"; "-DCeedInt=int"; "-default-device"; arch_opt v prop ].

(** The failure branch of the compile step. *)
Definition compile_failed (v : Vendor) (ceed : addr) (h : Heap) (prog result : Z)
    (module : option Z) : Prog (Z * option Z) :=
  do (r, logsize) <- call (rtcGetProgramLogSize v prog);
  CeedChk_rtc v ceed h r module
    (do ierr <- FemeMallocArray logsize 1;
     FemeChk ierr module
       (do (r, log) <- call (rtcGetProgramLog v prog);
        CeedChk_rtc v ceed h r module
          (do text <- call (rtcGetErrorString v result);
           do ierr <- CeedError ceed h result (text +:+ String "010" "" +:+ log);
           Ret (ierr, module)))).

(** The success branch of the compile step.  The loader is given the
    caller's module pointer, so after the load call the caller's module is
    what the loader left there, whether or not it succeeded. *)
Definition compile_load (v : Vendor) (ceed : addr) (h : Heap) (prog : Z)
    (module : option Z) : Prog (Z * option Z) :=
  do (r, ptxsize) <- call (rtcGetCodeSize v prog);
  CeedChk_rtc v ceed h r module
    (do ierr <- FemeMallocArray ptxsize 1;
     FemeChk ierr module
       (do (r, ptx) <- call (rtcGetCode v prog);
        CeedChk_rtc v ceed h r module
          (do r <- call (rtcDestroyProgram v prog);
           CeedChk_rtc v ceed h r module
             (do (r, m) <- call (gpuModuleLoadData v ptx);
              CeedChk_gpu v ceed h r (Some m) (Ret (0%Z, Some m)))))).

(** [CeedCompileCuda] / [CeedCompileHip].  [args] are the variadic
    (name, value) pairs, [numopts] their number; [module] is the caller's
    module handle on entry. *)
Definition CeedCompile (v : Vendor) (ceed : addr) (h : Heap) (source : string)
    (module : option Z) (args : list (string * Z)) : Prog (Z * option Z) :=
  let numopts := Z.of_nat (length args) in
  do _ <- call (gpuFree0 v);
  do (r, prog) <- call (rtcCreateProgram v source);
  CeedChk_rtc v ceed h r module
    (do (ierr, d) <- CeedGetData ceed h;
     FemeChk ierr module
       match session v d with
       | None => Undef
       | Some ceed_data =>
           do (ierr, prop) <- call (gpuGetDeviceProperties v (deviceId ceed_data));
           CeedChk_gpu v ceed h ierr module
             (let opts := kernel_opts args ++ standard_opts v prop in
              do result <- call (rtcCompileProgram v prog (numopts + optsextra) opts);
              if Z.eqb result 0
              then compile_load v ceed h prog module
              else compile_failed v ceed h prog result module)
       end).

Definition CeedCompileCuda := CeedCompile Cuda.
Definition CeedCompileHip := CeedCompile Hip.

(** [CeedRunKernelCuda] / [CeedRunKernelHip] *)
Definition CeedRunKernel (v : Vendor) (ceed : addr) (h : Heap) (kernel : Z)
    (gridSize blockSize : Z) (args : list Z) : Prog (Z * unit) :=
  do r <- call (gpuLaunchKernel v kernel gridSize 1 1 blockSize 1 1 0 None args None);
  CeedChk_gpu v ceed h r tt (Ret (0%Z, tt)).

(** [CeedRunKernelDimCuda] / [CeedRunKernelDimHip] *)
Definition CeedRunKernelDim (v : Vendor) (ceed : addr) (h : Heap) (kernel : Z)
    (gridSize blockSizeX blockSizeY blockSizeZ : Z) (args : list Z)
  : Prog (Z * unit) :=
  do r <- call (gpuLaunchKernel v kernel gridSize 1 1
                  blockSizeX blockSizeY blockSizeZ 0 None args None);
  CeedChk_gpu v ceed h r tt (Ret (0%Z, tt)).

(** [CeedRunKernelDimSharedCuda] / [CeedRunKernelDimSharedHip] *)
Definition CeedRunKernelDimShared (v : Vendor) (ceed : addr) (h : Heap)
    (kernel : Z) (gridSize blockSizeX blockSizeY blockSizeZ sharedMemSize : Z)
    (args : list Z) : Prog (Z * unit) :=
  do r <- call (gpuLaunchKernel v kernel gridSize 1 1
                  blockSizeX blockSizeY blockSizeZ sharedMemSize None args None);
  CeedChk_gpu v ceed h r tt (Ret (0%Z, tt)).

(** The first three lines of [CeedCudaInit] / [CeedHipInit]: the device
    ordinal read from [resource] after its first [nrc] characters. *)
Definition device_ordinal (resource : string) (nrc : nat) : Z :=
  let rlen := strlen resource in
  let slash :=
    if Nat.ltb nrc rlen then Ascii.eqb (char_at resource nrc) "/" else false in
  if slash && Nat.ltb (nrc + 1) rlen then atoi (str_from resource (nrc + 1))
  else 0%Z.

Definition CeedRunKernelCuda := CeedRunKernel Cuda.
Definition CeedRunKernelDimCuda := CeedRunKernelDim Cuda.
Definition CeedRunKernelDimSharedCuda := CeedRunKernelDimShared Cuda.
Definition CeedRunKernelHip := CeedRunKernel Hip.
Definition CeedRunKernelDimHip := CeedRunKernelDim Hip.
Definition CeedRunKernelDimSharedHip := CeedRunKernelDimShared Hip.

(** [CeedCudaInit] / [CeedHipInit] *)
Definition CeedGpuInit (v : Vendor) (ceed : addr) (resource : string) (nrc : nat)
    (h : Heap) : Prog (Z * Heap) :=
  let deviceID := device_ordinal resource nrc in
  do (ierr, currentDeviceID) <- call (gpuGetDevice v);
  CeedChk_gpu v ceed h ierr h
    (do ierr <- (if Z.eqb currentDeviceID deviceID then Ret 0%Z
                 else call (gpuSetDevice v deviceID));
     CeedChk_gpu v ceed h ierr h
       (do (ierr, deviceProp) <- call (gpuGetDeviceProperties v deviceID);
        CeedChk_gpu v ceed h ierr h
          (do (ierr, d) <- CeedGetData ceed h;
           FemeChk ierr h
             match session v d with
             | None => Undef
             | Some s =>
                 CeedSetData ceed
                   (Some (wrap v {| deviceId := deviceID;
                                    optblocksize := maxThreadsPerBlock deviceProp;
                                    blasHandle := blasHandle s |})) h
             end))).

Definition CeedCudaInit := CeedGpuInit Cuda.
Definition CeedHipInit := CeedGpuInit Hip.

Definition zero_session : DeviceSession :=
  {| deviceId := 0; optblocksize := 0; blasHandle := None |}.

(** The common opening of [CeedInit_Cuda] and [CeedInit_Hip]: the prefix
    re-check, the private data, the device session. *)
Definition CeedInit_gpu (v : Vendor) (name : string) (expected : string)
    (fs : list (string * FnRef)) (resource : string) (ceed : addr) (h : Heap)
  : Prog (Z * Heap) :=
  let nrc := 9 in
  if negb (strncmp_eq (chars resource) (chars expected) nrc) then
    do ierr <- CeedError ceed h 1
                 (name +:+ " backend cannot use resource: " +:+ fmt_s resource);
    Ret (ierr, h)
  else
    do (ierr, p) <- FemeCallocArray 1 sizeof_data;
    FemeChk ierr h
      (do (ierr, h1) <- CeedSetData ceed
                          (match p with
                           | Some _ => Some (wrap v zero_session)
                           | None => None
                           end) h;
       FemeChk ierr h1
         (do (ierr, h2) <- CeedGpuInit v ceed resource nrc h1;
          FemeChk ierr h2 (set_functions ceed fs h2))).

Definition CeedInit_Cuda : string -> addr -> Heap -> Prog (Z * Heap) :=
  CeedInit_gpu Cuda "Cuda" "/gpu/cuda/ref"
    [ ("GetPreferredMemType", "CeedGetPreferredMemType_Cuda");
      ("VectorCreate", "CeedVectorCreate_Cuda");
      ("BasisCreateTensorH1", "CeedBasisCreateTensorH1_Cuda");
      ("BasisCreateH1", "CeedBasisCreateH1_Cuda");
      ("ElemRestrictionCreate", "CeedElemRestrictionCreate_Cuda");
      ("ElemRestrictionCreateBlocked", "CeedElemRestrictionCreateBlocked_Cuda");
      ("QFunctionCreate", "CeedQFunctionCreate_Cuda");
      ("QFunctionContextCreate", "CeedQFunctionContextCreate_Cuda");
      ("OperatorCreate", "CeedOperatorCreate_Cuda");
      ("CompositeOperatorCreate", "CeedCompositeOperatorCreate_Cuda");
      ("Destroy", "CeedDestroy_Cuda") ].

Definition CeedInit_Hip : string -> addr -> Heap -> Prog (Z * Heap) :=
  CeedInit_gpu Hip "Hip" "/gpu/hip/ref"
    [ ("GetPreferredMemType", "CeedGetPreferredMemType_Hip");
      ("VectorCreate", "CeedVectorCreate_Hip");
      ("BasisCreateTensorH1", "CeedBasisCreateTensorH1_Hip");
      ("BasisCreateH1", "CeedBasisCreateH1_Hip");
      ("ElemRestrictionCreate", "CeedElemRestrictionCreate_Hip");
      ("ElemRestrictionCreateBlocked", "CeedElemRestrictionCreateBlocked_Hip");
      ("QFunctionCreate", "CeedQFunctionCreate_Hip");
      ("OperatorCreate", "CeedOperatorCreate_Hip") ].

(** ** backends/occa/registration.cpp *)

Fixpoint is_prefix (needle hay : list ascii) : bool :=
  match needle, hay with
  | [], _ => true
  | x :: needle', y :: hay' => Ascii.eqb x y && is_prefix needle' hay'
  | _ :: _, [] => false
  end.

(** [hay.find(needle) != std::string::npos] *)
Fixpoint contains (needle hay : list ascii) : bool :=
  is_prefix needle hay ||
  match hay with
  | [] => false
  | _ :: hay' => contains needle hay'
  end.

(** The four probes of the [gpuMode] block; [None] when the block falls
    through. *)
Definition gpu_default_mode : Prog (option string) :=
  do e <- call (occa_modeIsEnabled "CUDA");
  if e then Ret (Some "CUDA") else
  do e <- call (occa_modeIsEnabled "HIP");
  if e then Ret (Some "HIP") else
  do e <- call (occa_modeIsEnabled "Metal");
  if e then Ret (Some "Metal") else
  do e <- call (occa_modeIsEnabled "OpenCL");
  if e then Ret (Some "OpenCL") else Ret None.

Definition getDefaultDeviceMode (cpuMode gpuMode : bool) : Prog string :=
  do r <- (if gpuMode then gpu_default_mode else Ret None);
  match r with
  | Some mode => Ret mode
  | None =>
      if cpuMode then
        do e <- call (occa_modeIsEnabled "OpenMP");
        if e then Ret "OpenMP" else Ret "Serial"
      else Ret ""
  end.

Definition no_mode_message (c_resource : string) : string :=
  "No available OCCA mode for the given resource: " +:+ fmt_s c_resource.

(** The end of [initCeed]: the private context and its device.  The result
    is the return code, or the exception that left the function, and memory
    at that point. *)
Definition initCeed_device (props : string) (mode : option string) (ceed : addr)
    (h : Heap) : Prog (Exc Z * Heap) :=
  do (ierr, p) <- FemeCallocArray 1 sizeof_data;
  if negb (Z.eqb ierr 0) then Ret (Normal ierr, h) else
  do (ierr, h1) <- CeedSetData ceed
                     (match p with Some _ => Some (OccaData 0) | None => None end) h;
  if negb (Z.eqb ierr 0) then Ret (Normal ierr, h1) else
  match p with
  | None => Undef
  | Some _ =>
      do dev <- call (occa_device props mode);
      match dev with
      | Thrown what => Ret (Thrown what, h1)
      | Normal device =>
          do (ierr, h2) <- CeedSetData ceed (Some (OccaData device)) h1;
          Ret (Normal 0%Z, h2)
      end
  end.

Definition initCeed (c_resource : string) (ceed : addr) (h : Heap)
  : Prog (Exc Z * Heap) :=
  let resource := chars c_resource in
  let cpuMode := contains (chars "/cpu/occa") resource in
  let gpuMode := contains (chars "/gpu/occa") resource in
  let anyMode := contains (chars "/*/occa") resource in
  let validResource := cpuMode || gpuMode || anyMode in
  let validResource' :=
    if validResource && Nat.ltb 9 (length resource)
    then Ascii.eqb (nth 9 resource NUL) "/"
    else validResource in
  let resourceProps :=
    if validResource && Nat.ltb 9 (length resource) && validResource'
       && Nat.ltb 10 (length resource)
    then string_of_list_ascii (drop 10 resource)
    else "" in
  if negb validResource' then
    do ierr <- CeedError ceed h 1
                 ("OCCA backend cannot use resource: " +:+ fmt_s c_resource);
    Ret (Normal ierr, h)
  else
    do parsed <- call (occa_properties resourceProps);
    match parsed with
    | Thrown what => Ret (Thrown what, h)
    | Normal _ =>
        do has_mode <- call (occa_properties_has resourceProps "mode");
        if negb has_mode then
          do defaultMode <- getDefaultDeviceMode (cpuMode || anyMode)
                                                 (gpuMode || anyMode);
          if Nat.eqb (String.length defaultMode) 0 then
            do ierr <- CeedError ceed h 1 (no_mode_message c_resource);
            Ret (Normal ierr, h)
          else initCeed_device resourceProps (Some defaultMode) ceed h
        else initCeed_device resourceProps None ceed h
    end.

(** [printf] of a format that is given no arguments: "%%" prints "%";
    any other conversion reads an argument that is not there, which is
    undefined ([None]). *)
Fixpoint format_no_args (fmt : list ascii) : option (list ascii) :=
  match fmt with
  | [] => Some []
  | c :: rest =>
      if Ascii.eqb c "%" then
        match rest with
        | c' :: rest' =>
            if Ascii.eqb c' "%"
            then option_map (cons "%"%char) (format_no_args rest')
            else None
        | [] => None
        end
      else option_map (cons c) (format_no_args rest)
  end.

Definition registerCeedFunction (ceed : addr) (fname : string) (f : FnRef)
    (h : Heap) : Prog (Z * Heap) :=
  CeedSetBackendFunction ceed "Ceed" ceed fname f h.

(** The registrations that are compiled in; those between [#if 0] and
    [#endif] are not part of the function. *)
Definition registerMethods (ceed : addr) (h : Heap) : Prog (Z * Heap) :=
  do (ierr, h1) <- registerCeedFunction ceed "GetPreferredMemType"
                     "ceed::occa::getPreferredMemType" h;
  FemeChk ierr h1
    (do (ierr, h2) <- registerCeedFunction ceed "VectorCreate"
                        "ceed::occa::Vector::ceedCreate" h1;
     FemeChk ierr h2
       (do (ierr, h3) <- registerCeedFunction ceed "QFunctionCreate"
                           "ceed::occa::QFunction::ceedCreate" h2;
        FemeChk ierr h3 (Ret (0%Z, h3)))).

Definition registerBackend (resource : string) (ceed : addr) (h : Heap)
  : Prog (Z * Heap) :=
  do (r, h1) <- initCeed resource ceed h;
  match r with
  | Thrown what =>
      (* [CeedError(ceed, 1, error.c_str())]: the text is the format *)
      match format_no_args (chars what) with
      | Some text =>
          do ierr <- CeedError ceed h1 1 (string_of_list_ascii text);
          Ret (ierr, h1)
      | None => Undef
      end
  | Normal ierr => FemeChk ierr h1 (registerMethods ceed h1)
  end.

End Gpu.

Arguments compile_load : simpl never.
Arguments compile_failed : simpl never.

(** ** Linking and scenarios *)

(** The two handlers defined in [feme.c]. *)
Definition link_handlers : Impl := fun c =>
  match c return option (Prog (Resp c)) with
  | CallError fn ecode msg =>
      if String.eqb fn "FemeErrorAbort" then Some (FemeErrorAbort ecode msg)
      else if String.eqb fn "FemeErrorReturn" then Some (FemeErrorReturn ecode msg)
      else None
  | _ => None
  end.

(** The initializers of the three backends, with the handlers resolved. *)
Definition link_backends (sizeof_data : Z) : Impl := fun c =>
  match c return option (Prog (Resp c)) with
  | CallInit fn resource f h =>
      if String.eqb fn "CeedInit_Cuda"
      then Some (link link_handlers (CeedInit_Cuda sizeof_data resource f h))
      else if String.eqb fn "CeedInit_Hip"
      then Some (link link_handlers (CeedInit_Hip sizeof_data resource f h))
      else if String.eqb fn "ceed::occa::registerBackend"
      then Some (link link_handlers (registerBackend sizeof_data resource f h))
      else None
  | c' => link_handlers c'
  end.

(** The calls made by the [Register] constructors of the three backends,
    in the order cuda, hip, occa. *)
Definition static_registrations : list (string * FnRef * Z) :=
  [ ("/gpu/cuda/ref", "CeedInit_Cuda", 40%Z);
    ("/gpu/hip/ref", "CeedInit_Hip", 20%Z);
    ("/*/occa", "ceed::occa::registerBackend", 20%Z);
    ("/gpu/occa", "ceed::occa::registerBackend", 20%Z);
    ("/cpu/occa", "ceed::occa::registerBackend", 20%Z) ].

(** A sequence of registration calls, their return codes dropped as the
    constructors drop them. *)
Fixpoint register_all (max : nat) (regs : list (string * FnRef * Z))
    (st : Registry) : Prog Registry :=
  match regs with
  | [] => Ret st
  | (prefix, init, priority) :: regs' =>
      do (_, st') <- CeedRegister max prefix init priority st;
      register_all max regs' st'
  end.

(** A machine on which every collaborator succeeds: device 0 is current,
    allocation yields address [1], every operation name is accepted, the
    compiler accepts, OpenMP is the only OCCA mode. *)
Definition a_device : DeviceProp :=
  {| major := 7; minor := 0; gcnArch := 906; maxThreadsPerBlock := 1024 |}.

Definition env_ok : Env := fun c =>
  match c return Resp c with
  | CallInit _ _ _ h => (0%Z, h)
  | CallDestroy _ _ h => (0%Z, h)
  | CallError _ ecode _ => ecode
  | calloc _ _ => Some 1
  | posix_memalign _ => 0%Z
  | FunctionSlot _ _ => true
  | gpuFree0 _ => 0%Z
  | gpuGetDevice _ => (0%Z, 0%Z)
  | gpuSetDevice _ _ => 0%Z
  | gpuGetDeviceProperties _ _ => (0%Z, a_device)
  | gpuErrorName _ _ => "error"
  | rtcCreateProgram _ _ => (0%Z, 5%Z)
  | rtcCompileProgram _ _ _ _ => 0%Z
  | rtcGetProgramLogSize _ _ => (0%Z, 0%Z)
  | rtcGetProgramLog _ _ => (0%Z, "")
  | rtcGetErrorString _ _ => "error"
  | rtcGetCodeSize _ _ => (0%Z, 3%Z)
  | rtcGetCode _ _ => (0%Z, "ptx")
  | rtcDestroyProgram _ _ => 0%Z
  | gpuModuleLoadData _ _ => (0%Z, 9%Z)
  | gpuLaunchKernel _ _ _ _ _ _ _ _ _ _ _ _ => 0%Z
  | occa_modeIsEnabled mode => String.eqb mode "OpenMP"
  | occa_properties _ => Normal tt
  | occa_properties_has _ _ => false
  | occa_device _ _ => Normal 3%Z
  end.

(** The same machine with a compiler that rejects every source. *)
Definition env_rejecting : Env := fun c =>
  match c return Resp c with
  | rtcCompileProgram _ _ _ _ => 6%Z
  | rtcGetProgramLogSize _ _ => (0%Z, 30%Z)
  | rtcGetProgramLog _ _ => (0%Z, "kernel.cu(1): error: expected a ;")
  | rtcGetErrorString _ _ => "NVRTC_ERROR_COMPILATION"
  | c' => env_ok c'
  end.

(** The same machine with a device of capability 8.6 (architecture 1030). *)
Definition a_newer_device : DeviceProp :=
  {| major := 8; minor := 6; gcnArch := 1030; maxThreadsPerBlock := 1024 |}.

Definition env_newer : Env := fun c =>
  match c return Resp c with
  | gpuGetDeviceProperties _ _ => (0%Z, a_newer_device)
  | c' => env_ok c'
  end.

(** The same machine with CUDA enabled in OCCA. *)
Definition env_occa_cuda : Env := fun c =>
  match c return Resp c with
  | occa_modeIsEnabled mode => String.eqb mode "CUDA"
  | c' => env_ok c'
  end.

(** A context as [FemeInit] leaves it before the initializer runs, and one
    holding a CUDA device session. *)
Definition fresh_context (handler : FnRef) : Feme_private :=
  {| Error := Some handler; data := None; ops := ∅ |}.

Definition cuda_context (handler : FnRef) : Feme_private :=
  {| Error := Some handler; data := Some (CudaData zero_session); ops := ∅ |}.

Definition hip_context (handler : FnRef) : Feme_private :=
  {| Error := Some handler; data := Some (HipData zero_session); ops := ∅ |}.

(** ** Reading traces *)

Definition is_compile (c : Call) : bool :=
  match c with rtcCompileProgram _ _ _ _ => true | _ => false end.

Definition is_launch (c : Call) : bool :=
  match c with gpuLaunchKernel _ _ _ _ _ _ _ _ _ _ _ _ => true | _ => false end.

Definition is_report (c : Call) : bool :=
  match c with CallError _ _ _ => true | _ => false end.

Definition is_init (c : Call) : bool :=
  match c with CallInit _ _ _ _ => true | _ => false end.

Definition calls (P : Call -> bool) (t : list Event) : list Call :=
  List.filter P (List.map call_of t).

(** What follows the first compile step of a trace: the program handle, the
    compiler's result and the later events. *)
Fixpoint after_compile (t : list Event) : option (Z * Z * list Event) :=
  match t with
  | [] => None
  | Ev c x :: t' =>
      match c return Resp c -> option (Z * Z * list Event) with
      | rtcCompileProgram _ prog _ _ => fun result => Some (prog, result, t')
      | _ => fun _ => after_compile t'
      end x
  end.

(** ** Vocabulary of the statements *)

(** The length of the common leading substring of two strings. *)
Fixpoint common_prefix (a b : list ascii) : nat :=
  match a, b with
  | x :: a', y :: b' => if Ascii.eqb x y then S (common_prefix a' b') else 0
  | _, _ => 0
  end.

(** The prefix string a slot holds. *)
Definition held (b : backend) : list ascii := cstr (prefix b).

(** The array of a slot holds a terminated string. *)
Definition terminated (b : backend) : Prop := In NUL (prefix b).

(** How far the prefix held by [b] agrees with [resource]. *)
Definition match_length (resource : string) (b : backend) : nat :=
  common_prefix (held b) (chars resource).

(** Two tables that agree on every prefix and initializer. *)
Definition same_but_priority (st1 st2 : Registry) : Prop :=
  Forall2 (fun b1 b2 => prefix b1 = prefix b2 /\ init b1 = init b2) st1 st2.

(** The minimum required operation names. *)
Definition required_ops : list string :=
  [ "GetPreferredMemType"; "VectorCreate"; "BasisCreateTensorH1"; "BasisCreateH1";
    "ElemRestrictionCreate"; "ElemRestrictionCreateBlocked"; "QFunctionCreate";
    "QFunctionContextCreate"; "OperatorCreate"; "CompositeOperatorCreate";
    "Destroy" ].

Definition installed (h : Heap) (ceed : addr) (name : string) : Prop :=
  exists ctx, h !! ceed = Some ctx /\ is_Some (ops ctx !! name).

(** ** Definitions used by the statements and proofs *)

(** The slot with the greatest match length, earliest among equals. *)
Definition first_longest (resource : string) (st : Registry) (i : nat) (b : backend)
  : Prop :=
  st !! i = Some b /\
  0 < match_length resource b /\
  (forall j b', st !! j = Some b' -> match_length resource b' <= match_length resource b) /\
  (forall j b', j < i -> st !! j = Some b' ->
     match_length resource b' < match_length resource b).

Ltac runs_inv H :=
  simpl in H;
  repeat match type of H with
         | ex _ => let x := fresh "x" in let t := fresh "t" in
                   destruct H as (x & t & -> & H); simpl in H
         | _ /\ _ => destruct H as [-> ->]
         end.

(** A table with every slot used. *)
Definition full_table : Registry :=
  replicate slots {| prefix := strncpy "/cpu/self" 64;
                     init := "CeedInit_Ref";
                     priority := None |}.

Fixpoint NoCalls {A} (P : Call -> bool) (p : Prog A) : Prop :=
  match p with
  | Do c k => P c = false /\ forall x, NoCalls P (k x)
  | _ => True
  end.

Ltac no_calls :=
  repeat (simpl;
          match goal with
          | |- True => exact I
          | |- _ /\ _ => split
          | |- _ = _ => reflexivity
          | |- forall _, _ => intro
          | |- context [if ?c then _ else _] => destruct c
          | |- context [match ?x with _ => _ end] => destruct x
          end).




Definition occa_modes : list string :=
  [ "CUDA"; "HIP"; "Metal"; "OpenCL"; "OpenMP"; "Serial" ].

(** Probes of modes that are answered "not enabled". *)
Definition probes (modes : list string) : list Event :=
  List.map (fun mode => Ev (occa_modeIsEnabled mode) false) modes.

(** The GPU modes in the order they are tried, each with the modes tried
    before it. *)
Definition gpu_modes : list (list string * string) :=
  [ ([], "CUDA"); (["CUDA"], "HIP"); (["CUDA"; "HIP"], "Metal");
    (["CUDA"; "HIP"; "Metal"], "OpenCL") ].

(** The registrations of the spec's example, in its order. *)
Definition example_registrations : list (string * FnRef * Z) :=
  [ ("/gpu/cuda/ref", "CeedInit_Cuda", 40%Z);
    ("/gpu/hip/ref", "CeedInit_Hip", 20%Z);
    ("/cpu/occa", "ceed::occa::registerBackend", 20%Z) ].

(** The session a context holds. *)
Definition session_of (h : Heap) (ceed : addr) : option BackendData :=
  h !! ceed ≫= data.

(** The table the example registrations leave, with 64-byte prefix arrays. *)
Definition example_table : Registry :=
  [ {| prefix := strncpy "/gpu/cuda/ref" 64; init := "CeedInit_Cuda";
       priority := Some 40%Z |};
    {| prefix := strncpy "/gpu/hip/ref" 64; init := "CeedInit_Hip";
       priority := Some 20%Z |};
    {| prefix := strncpy "/cpu/occa" 64; init := "ceed::occa::registerBackend";
       priority := Some 20%Z |} ].

(** A context with a backend [Destroy] member. *)
Definition destroyable_context : Feme_private :=
  {| Error := Some "FemeErrorAbort"; data := None;
     ops := {[ "Destroy" := "CeedDestroy_Cuda" ]} |}.

(** ** Sequences of registrations and further trace readers *)

(** A sequence of registration calls, each with its own priority argument
    (none for [FemeRegister]); return codes are dropped. *)
Fixpoint register_seq (max : nat) (regs : list (option Z * string * FnRef))
    (st : Registry) : Prog Registry :=
  match regs with
  | [] => Ret st
  | (prio, p, f) :: regs' =>
      do (_, st') <- register max prio p f st;
      register_seq max regs' st'
  end.

(** The slot a registration writes. *)
Definition slot_of (max : nat) (r : option Z * string * FnRef) : backend :=
  {| prefix := strncpy (snd (fst r)) max;
     init := snd r;
     priority := fst (fst r) |}.


Definition is_set_device (c : Call) : bool :=
  match c with gpuSetDevice _ _ => true | _ => false end.

Definition is_properties (c : Call) : bool :=
  match c with gpuGetDeviceProperties _ _ => true | _ => false end.

Definition is_load (c : Call) : bool :=
  match c with gpuModuleLoadData _ _ => true | _ => false end.

Definition is_destroy_program (c : Call) : bool :=
  match c with rtcDestroyProgram _ _ => true | _ => false end.

Definition is_probe (c : Call) : bool :=
  match c with occa_modeIsEnabled _ => true | _ => false end.

Definition is_device (c : Call) : bool :=
  match c with occa_device _ _ => true | _ => false end.

(** A frame: [h'] agrees with [h] on every context but [ceed]. *)
Definition same_elsewhere (ceed : addr) (h h' : Heap) : Prop :=
  forall other, other <> ceed -> h' !! other = h !! other.

(** ** A property of every run, checked branch by branch *)

(** [AllRuns Q p]: [Q] holds of the trace and outcome of every run of [p]. *)
Fixpoint AllRuns {A} (Q : list Event -> Outcome A -> Prop) (p : Prog A) : Prop :=
  match p with
  | Ret a => Q [] (Returned a)
  | Abort msg => Q [] (Aborted msg)
  | Undef => Q [] Undefined
  | Do c k => forall x, AllRuns (fun t o => Q (Ev c x :: t) o) (k x)
  end.

(** The answers the error handler gave, in order. *)
Fixpoint report_answers (t : list Event) : list Z :=
  match t with
  | [] => []
  | Ev c x :: t' =>
      match c return Resp c -> list Z with
      | CallError _ _ _ => fun ret => ret :: report_answers t'
      | _ => fun _ => report_answers t'
      end x
  end.

(** The last call of a trace, if any. *)
Fixpoint last_call (t : list Event) : option Call :=
  match t with
  | [] => None
  | [e] => Some (call_of e)
  | _ :: t' => last_call t'
  end.

(** How a function that reports its failures ends: without a report it
    returns 0; otherwise it made one report, as its last call, and returns
    what the handler answered. *)
Definition reports_then_returns {S} (t : list Event) (o : Outcome (Z * S)) : Prop :=
  match report_answers t with
  | [] => forall code s, o = Returned (code, s) -> code = 0%Z
  | [ret] =>
      (exists fn ecode msg, last_call t = Some (CallError fn ecode msg)) /\
      exists s, o = Returned (ret, s)
  | _ => False
  end.

(** The operation names the core was asked about, each with its answer. *)
Fixpoint slot_answers (t : list Event) : list (string * bool) :=
  match t with
  | [] => []
  | Ev c x :: t' =>
      match c return Resp c -> list (string * bool) with
      | FunctionSlot _ fname => fun ok => (fname, ok) :: slot_answers t'
      | _ => fun _ => slot_answers t'
      end x
  end.

(** The table after the entries [fs] were installed in order. *)
Definition install (fs : list (string * FnRef)) (m : gmap string FnRef)
  : gmap string FnRef :=
  foldl (fun m nf => <[fst nf := snd nf]> m) m fs.

(** The value of a decimal numeral read digit by digit from [acc]. *)
Fixpoint uint_value (d : Decimal.uint) (acc : Z) : Z :=
  match d with
  | Decimal.Nil => acc
  | Decimal.D0 d => uint_value d (10 * acc)
  | Decimal.D1 d => uint_value d (10 * acc + 1)
  | Decimal.D2 d => uint_value d (10 * acc + 2)
  | Decimal.D3 d => uint_value d (10 * acc + 3)
  | Decimal.D4 d => uint_value d (10 * acc + 4)
  | Decimal.D5 d => uint_value d (10 * acc + 5)
  | Decimal.D6 d => uint_value d (10 * acc + 6)
  | Decimal.D7 d => uint_value d (10 * acc + 7)
  | Decimal.D8 d => uint_value d (10 * acc + 8)
  | Decimal.D9 d => uint_value d (10 * acc + 9)
  end%Z.

(** Unfold a program branch by branch. *)
Ltac branches :=
  repeat (simpl;
          match goal with
          | |- forall _, _ => intro
          | |- context [if ?c then _ else _] => destruct c
          | |- context [match ?x with _ => _ end] => destruct x
          end).

(** The handler answers that make a checked call return. *)
Definition nonzero_answers (t : list Event) : list Z :=
  List.filter (fun r => negb (Z.eqb r 0)) (report_answers t).

(** How a function that checks the results of the functions it calls ends:
    it returns 0 unless a handler answered non-zero; such an answer is given
    once, to the last call, and is what the function returns. *)
Definition stops_at_failure {S} (t : list Event) (o : Outcome (Z * S)) : Prop :=
  match nonzero_answers t with
  | [] => forall code s, o = Returned (code, s) -> code = 0%Z
  | [ret] =>
      (exists fn ecode msg, last_call t = Some (CallError fn ecode msg)) /\
      exists s, o = Returned (ret, s)
  | _ => False
  end.

(** Unfold a program branch by branch, keeping the tests made. *)
Ltac branches_eq :=
  repeat (simpl;
          match goal with
          | |- forall _, _ => intro
          | |- context [if ?c then _ else _] => destruct c eqn:?
          | |- context [match ?x with _ => _ end] => destruct x eqn:?
          end).

Ltac unfold_gpu :=
  unfold CeedCompileCuda, CeedCompileHip, CeedCompile, compile_load,
    compile_failed, CeedRunKernelCuda, CeedRunKernelHip, CeedRunKernelDimCuda,
    CeedRunKernelDimHip, CeedRunKernelDimSharedCuda, CeedRunKernelDimSharedHip,
    CeedRunKernel, CeedRunKernelDim, CeedRunKernelDimShared,
    CeedCudaInit, CeedHipInit, CeedGpuInit, CeedGetData, CeedSetData,
    CeedChk_rtc, CeedChk_gpu, FemeChk, FemeMallocArray, FemeCallocArray,
    CeedError, FemeError, FemeErrorImpl, deref, call.

Ltac ends_reported :=
  unfold reports_then_returns; simpl;
  first [ intros ? ? [= <- <-]; reflexivity
        | intros ? ? [=]
        | intros ? ? ?; discriminate
        | split; eauto ].

Ltac use_tests :=
  repeat match goal with
         | H : ?c = _ |- context [?c] => rewrite H
         end.

Ltac ends_stopped :=
  unfold stops_at_failure, nonzero_answers; simpl; use_tests; simpl;
  repeat match goal with
         | |- context [Z.eqb ?x 0] => destruct (Z.eqb_spec x 0); simpl
         end;
  first [ intros ? ? [= <- <-]; first [reflexivity | assumption | congruence]
        | intros ? ? [=]
        | intros ? ? ?; discriminate
        | split; eauto ].

(** The events already made, when the goal is about the rest of a run. *)
Ltac events_before l :=
  lazymatch l with
  | (fun t => t) => constr:(@nil Event)
  | (fun t => ?e :: @?l' t) => let r := events_before l' in constr:(e :: r)
  end.

Ltac after_events :=
  match goal with
  | |- AllRuns (fun t o => ?Q (@?l t) o) ?p =>
      let pre := events_before l in
      change (AllRuns (fun t o => Q (pre ++ t) o) p)
  end.

(** What the driver answered to the current-device and device-properties
    queries, and the loader to the module loads, in order. *)
Fixpoint devices_found (t : list Event) : list (Z * Z) :=
  match t with
  | [] => []
  | Ev c x :: t' =>
      match c return Resp c -> list (Z * Z) with
      | gpuGetDevice _ => fun r => r :: devices_found t'
      | _ => fun _ => devices_found t'
      end x
  end.

Fixpoint properties_found (t : list Event) : list (Z * DeviceProp) :=
  match t with
  | [] => []
  | Ev c x :: t' =>
      match c return Resp c -> list (Z * DeviceProp) with
      | gpuGetDeviceProperties _ _ => fun r => r :: properties_found t'
      | _ => fun _ => properties_found t'
      end x
  end.

Fixpoint modules_loaded (t : list Event) : list (Z * Z) :=
  match t with
  | [] => []
  | Ev c x :: t' =>
      match c return Resp c -> list (Z * Z) with
      | gpuModuleLoadData _ _ => fun r => r :: modules_loaded t'
      | _ => fun _ => modules_loaded t'
      end x
  end.

(** What OCCA answered to the mode probes and to the [has("mode")] test. *)
Fixpoint probe_answers (t : list Event) : list (string * bool) :=
  match t with
  | [] => []
  | Ev c x :: t' =>
      match c return Resp c -> list (string * bool) with
      | occa_modeIsEnabled mode => fun e => (mode, e) :: probe_answers t'
      | _ => fun _ => probe_answers t'
      end x
  end.

Fixpoint has_mode_answers (t : list Event) : list bool :=
  match t with
  | [] => []
  | Ev c x :: t' =>
      match c return Resp c -> list bool with
      | occa_properties_has _ _ => fun b => b :: has_mode_answers t'
      | _ => fun _ => has_mode_answers t'
      end x
  end.

(** The context at [ceed] exists in [h'] exactly when it does in [h], with
    the same error handler. *)
Definition keeps_handler (ceed : addr) (h h' : Heap) : Prop :=
  Error <$> (h' !! ceed) = Error <$> (h !! ceed).

(** How a run of registrations asks the core about [names]: in order, from
    the first; to the end when it returns 0; and no further than a rejected
    name whose report the handler answered with a non-zero code. *)
Definition asks_in_order {S} (names : list string) (t : list Event)
    (o : Outcome (Z * S)) : Prop :=
  exists k,
    k <= length names /\
    List.map fst (slot_answers t) = take k names /\
    (forall code s, o = Returned (code, s) -> code = 0%Z -> k = length names) /\
    (nonzero_answers t <> [] ->
     exists name, last (slot_answers t) = Some (name, false)).

Ltac frame_leaf :=
  intros;
  first
    [ match goal with H : _ = Returned _ |- _ => discriminate H end
    | repeat match goal with
             | H : Some _ = Some _ |- _ => injection H as ?; subst
             end;
      try match goal with
          | H : Returned _ = Returned _ |- _ => injection H as ? ?; subst
          end;
      repeat match goal with
             | H : <[_ := _]> _ !! _ = _ |- _ =>
                 rewrite lookup_insert_eq in H; inversion H; subst; clear H
             end;
      split;
      [ intros other Hne; rewrite ?lookup_insert_ne by congruence; reflexivity
      | unfold keeps_handler; rewrite ?lookup_insert_eq; use_tests; reflexivity ] ].

(** The resources [initCeed] accepts, and the property text it hands to
    OCCA: one of the three OCCA prefixes occurs in the resource, and the
    resource has at most nine characters or a slash as its tenth; the
    properties are what follows that slash. *)
Definition occa_valid (r : list ascii) : bool :=
  (contains (chars "/cpu/occa") r || contains (chars "/gpu/occa") r
   || contains (chars "/*/occa") r)
  && (Nat.leb (length r) 9 || Ascii.eqb (nth 9 r NUL) "/").

Definition occa_props (r : list ascii) : string :=
  string_of_list_ascii (drop 10 r).


Fixpoint devices_made (t : list Event) : list Z :=
  match t with
  | [] => []
  | Ev c x :: t' =>
      match c return Resp c -> list Z with
      | occa_device _ _ =>
          fun r => match r with Normal d => d :: devices_made t' | Thrown _ => devices_made t' end
      | _ => fun _ => devices_made t'
      end x
  end.

Ltac unfold_occa :=
  unfold registerBackend, initCeed, initCeed_device, getDefaultDeviceMode,
    gpu_default_mode, registerMethods, registerCeedFunction,
    CeedSetBackendFunction, CeedGetData, CeedSetData, FemeChk, FemeCallocArray,
    CeedError, FemeError, FemeErrorImpl, deref, call.

(** ** ceed-cuda.c: the cuBLAS handle and the destructor *)

(** The calls of the two functions that use cuBLAS and [free]: those of
    [Call], and three more. *)
Inductive BlasCall :=
| Base (c : Call)
| cublasCreate
| cublasDestroy (handle : Z)
| cublasGetErrorName (status : Z)
| free_data (ceed : addr).

(** [cublasCreate] answers its status and what it left in the handle it was
    given the address of ([None] for NULL). *)
Definition BlasResp (c : BlasCall) : Type :=
  match c with
  | Base c => Resp c
  | cublasCreate => (Z * option Z)%type
  | cublasDestroy _ => Z
  | cublasGetErrorName _ => string
  | free_data _ => unit
  end.

Inductive BlasProg (A : Type) : Type :=
| BRet (a : A)
| BAbort (msg : string)
| BUndef
| BDo (c : BlasCall) (k : BlasResp c -> BlasProg A).
Arguments BRet {A} a.
Arguments BAbort {A} msg.
Arguments BUndef {A}.
Arguments BDo {A} c k.

Fixpoint bbind {A B} (p : BlasProg A) (f : A -> BlasProg B) : BlasProg B :=
  match p with
  | BRet a => f a
  | BAbort msg => BAbort msg
  | BUndef => BUndef
  | BDo c k => BDo c (fun x => bbind (k x) f)
  end.

Notation "'bdo' x <- p ; q" := (bbind p (fun x => q))
  (at level 10, x pattern, p at level 100, q at level 200).

Definition bcall (c : BlasCall) : BlasProg (BlasResp c) := BDo c BRet.

(** A program over [Call] as a program over [BlasCall]. *)
Fixpoint lift {A} (p : Prog A) : BlasProg A :=
  match p with
  | Ret a => BRet a
  | Abort msg => BAbort msg
  | Undef => BUndef
  | Do c k => BDo (Base c) (fun x => lift (k x))
  end.

Inductive BlasEvent := BEv (c : BlasCall) (x : BlasResp c).

Fixpoint BRuns {A} (p : BlasProg A) (t : list BlasEvent) (o : Outcome A) : Prop :=
  match p with
  | BRet a => t = [] /\ o = Returned a
  | BAbort msg => t = [] /\ o = Aborted msg
  | BUndef => t = [] /\ o = Undefined
  | BDo c k => exists x t', t = BEv c x :: t' /\ BRuns (k x) t' o
  end.

Fixpoint BAllRuns {A} (Q : list BlasEvent -> Outcome A -> Prop) (p : BlasProg A)
  : Prop :=
  match p with
  | BRet a => Q [] (Returned a)
  | BAbort msg => Q [] (Aborted msg)
  | BUndef => Q [] Undefined
  | BDo c k => forall x, BAllRuns (fun t o => Q (BEv c x :: t) o) (k x)
  end.

Definition blas_call_of (e : BlasEvent) : BlasCall := let 'BEv c _ := e in c.

Definition is_blas_report (c : BlasCall) : bool :=
  match c with Base (CallError _ _ _) => true | _ => false end.


Definition blas_calls (P : BlasCall -> bool) (t : list BlasEvent) : list BlasCall :=
  List.filter P (List.map blas_call_of t).

(** Modelled from the spec: the [CeedChk_Cublas] macro of the backend header
    (not among the sources) reports a failing cuBLAS status through
    [CeedError] with the name of the status, and returns what it returns. *)
Definition CeedChk_Cublas {S} (ceed : addr) (h : Heap) (status : Z) (s : S)
    (k : BlasProg (Z * S)) : BlasProg (Z * S) :=
  if Z.eqb status 0 then k
  else
    bdo msg <- bcall (cublasGetErrorName status);
    bdo ierr <- lift (CeedError ceed h status msg);
    BRet (ierr, s).

(** The context with its private data replaced. *)
Definition with_data (ctx : Feme_private) (d : option BackendData) : Feme_private :=
  {| Error := Error ctx; data := d; ops := ops ctx |}.

(** [CeedCudaGetCublasHandle].  [handle] is what the caller's variable holds
    on entry; the result carries what it holds on return. *)
Definition CeedCudaGetCublasHandle (ceed : addr) (handle : option Z) (h : Heap)
  : BlasProg (Z * (option Z * Heap)) :=
  bdo (ierr, d) <- lift (CeedGetData ceed h);
  if negb (Z.eqb ierr 0) then BRet (ierr, (handle, h)) else
  match h !! ceed, session Cuda d with
  | Some ctx, Some s =>
      match blasHandle s with
      | Some known => BRet (0%Z, (Some known, h))
      | None =>
          bdo (status, written) <- bcall cublasCreate;
          let h1 :=
            <[ceed := with_data ctx
                        (Some (CudaData {| deviceId := deviceId s;
                                           optblocksize := optblocksize s;
                                           blasHandle := written |}))]> h in
          CeedChk_Cublas ceed h1 status (handle, h1) (BRet (0%Z, (written, h1)))
      end
  | _, _ => BUndef
  end.

(** [CeedDestroy_Cuda].  Modelled from the spec: [CeedFree] of [ceed.c] (not
    among the sources) is [FemeFree] of [feme.c] under its later name: it
    frees the block and returns 0.  Once the block is freed the context has
    no private data that can be read. *)
Definition CeedDestroy_Cuda (ceed : addr) (h : Heap) : BlasProg (Z * Heap) :=
  bdo (ierr, d) <- lift (CeedGetData ceed h);
  if negb (Z.eqb ierr 0) then BRet (ierr, h) else
  match h !! ceed, session Cuda d with
  | Some ctx, Some s =>
      let free_it :=
        bdo _ <- bcall (free_data ceed);
        BRet (0%Z, <[ceed := with_data ctx None]> h) in
      match blasHandle s with
      | Some known =>
          bdo status <- bcall (cublasDestroy known);
          CeedChk_Cublas ceed h status h free_it
      | None => free_it
      end
  | _, _ => BUndef
  end.

Ltac unfold_blas :=
  unfold CeedCudaGetCublasHandle, CeedDestroy_Cuda, CeedChk_Cublas, bcall,
    CeedGetData, CeedError, FemeError, FemeErrorImpl, deref, call.

(** ** Further scenarios *)


(** A slot whose array is too short for its prefix. *)
Definition short_slot : backend :=
  {| prefix := strncpy "/gpu/cuda/ref" 4; init := "CeedInit_Cuda"; priority := None |}.

(** A CUDA context before and after its cuBLAS handle was created. *)
Definition blas_heap (handle : option Z) : Heap :=
  {[ 1 := with_data (cuda_context "FemeErrorReturn")
            (Some (CudaData {| deviceId := 0; optblocksize := 0;
                               blasHandle := handle |})) ]}.

(** * Properties *)

(** ** The definitions on small inputs *)

Example strncpy_pads : strncpy "/cpu" 6 = chars "/cpu" ++ [NUL; NUL].
Proof. reflexivity. Qed.

Example strncpy_cuts : strncpy "/gpu/cuda/ref" 4 = chars "/gpu".
Proof. reflexivity. Qed.

(** A prefix cut by [strncpy] has no terminator: a resource that agrees with
    all of it sends the scan past the array. *)
Example match_prefix_leaves_array :
  match_prefix (strncpy "/gpu/cuda/ref" 4) (chars "/gpu/cuda/ref") = None.
Proof. reflexivity. Qed.

Example match_prefix_stops : match_prefix (strncpy "/gpu/cuda/ref" 64) (chars "/gpu/hip") = Some 5.
Proof. reflexivity. Qed.

Example atoi_digits : atoi (chars "2") = 2%Z.
Proof. reflexivity. Qed.

Example atoi_no_digits : atoi (chars "ref/2") = 0%Z.
Proof. reflexivity. Qed.

Example atoi_sign_and_space : atoi (chars " -42x") = (-42)%Z.
Proof. reflexivity. Qed.

Example kernel_opts_fit : kernel_opts [ ("Q", 5%Z); ("NCOMP", (-1)%Z) ] = [ "-DQ=5"; "-DNCOMP=-1" ].
Proof. reflexivity. Qed.

(** An option longer than the 32-byte buffer loses its tail. *)
Example kernel_opts_truncate :
  kernel_opts [ ("BASIS_BUFFER_LENGTH_PER_ELEMENT", 1024%Z) ]
  = [ "-DBASIS_BUFFER_LENGTH_PER_ELEME" ].
Proof. reflexivity. Qed.

(** Every registered prefix begins with a slash, so does any resource that
    begins with one: "/unknown/thing" matches slot 0 over one character. *)
Example scan_of_slash_resource :
  FemeInit_scan example_table 0 (chars "/unknown/thing") 0 None = Some (1, Some 0).
Proof. reflexivity. Qed.

(** Without caller options the compiler still gets the four standard
    ones. *)
Example compile_without_options :
  calls is_compile
    (fst (run env_ok (CeedCompileHip 1 {[ 1 := {| Error := Some "FemeErrorAbort";
                                                  data := Some (HipData zero_session);
                                                  ops := ∅ |} ]}
                        "kernel" None [])))
  = [ rtcCompileProgram Hip 5 4
        [ "-DCeedScalar=double"; "-DCeedInt=int"; "-default-device";
          "--gpu-architecture=gfx906" ] ].
Proof. vm_compute. reflexivity. Qed.

Example static_registrations_fit :
  exists st, register_all 64 static_registrations [] = Ret st /\ length st = 5.
Proof. eexists. split; reflexivity. Qed.

(** ** Running programs *)

Lemma run_Runs {A} (env : Env) (p : Prog A) :
  Runs p (fst (run env p)) (snd (run env p)).
Proof.
  induction p as [a | msg | | c k IH]; simpl; auto.
  exists (env c), (fst (run env (k (env c)))). split; [reflexivity | apply IH].
Qed.

Lemma Runs_bind {A B} (p : Prog A) (f : A -> Prog B) t o :
  Runs (bind p f) t o ->
  (exists t1 a t2, Runs p t1 (Returned a) /\ Runs (f a) t2 o /\ t = t1 ++ t2)
  \/ (exists msg, Runs p t (Aborted msg) /\ o = Aborted msg)
  \/ (Runs p t Undefined /\ o = Undefined).
Proof.
  revert t. induction p as [a | msg | | c k IH]; simpl; intros t H.
  - left. exists [], a, t. auto.
  - right; left. destruct H as [-> ->]. eauto.
  - right; right. destruct H as [-> ->]. auto.
  - destruct H as (x & t' & -> & H). apply IH in H.
    destruct H as [(t1 & a & t2 & H1 & H2 & ->) | [(msg & H1 & ->) | (H1 & ->)]].
    + left. exists (Ev c x :: t1), a, t2. repeat split; eauto.
    + right; left. exists msg. split; eauto.
    + right; right. split; eauto.
Qed.

Lemma calls_app P t1 t2 : calls P (t1 ++ t2) = calls P t1 ++ calls P t2.
Proof. unfold calls. now rewrite List.map_app, List.filter_app. Qed.

(** ** The scan of [FemeInit] *)

Lemma match_prefix_terminated buf resource :
  In NUL buf -> match_prefix buf resource = Some (common_prefix (cstr buf) resource).
Proof.
  revert resource. induction buf as [| c buf IH]; intros resource Hin.
  - destruct Hin.
  - simpl. destruct (is_NUL c) eqn:Hc; [reflexivity |].
    assert (Hbuf : In NUL buf).
    { destruct Hin as [Heq | Hin]; [| exact Hin].
      rewrite Heq in Hc. unfold is_NUL in Hc.
      now rewrite Ascii.eqb_refl in Hc. }
    destruct resource as [| r resource]; [reflexivity |].
    simpl. destruct (Ascii.eqb c r); [| reflexivity].
    now rewrite (IH resource Hbuf).
Qed.

(** What the scan returns from slot [i] on, given the best match so far:
    either nothing in [bs] beats it, or the first slot of [bs] with the
    greatest length does. *)
Lemma FemeInit_scan_spec resource bs :
  Forall terminated bs ->
  forall i matchlen matchidx,
    exists m idx,
      FemeInit_scan bs i (chars resource) matchlen matchidx = Some (m, idx) /\
      ((m = matchlen /\ idx = matchidx /\
        forall b, In b bs -> match_length resource b <= matchlen)
       \/
       (matchlen < m /\
        exists k b, bs !! k = Some b /\ idx = Some (i + k) /\
          match_length resource b = m /\
          (forall j b', bs !! j = Some b' -> match_length resource b' <= m) /\
          (forall j b', j < k -> bs !! j = Some b' -> match_length resource b' < m))).
Proof.
  induction 1 as [| b bs Hb Hbs IH]; intros i matchlen matchidx; simpl.
  - exists matchlen, matchidx. split; [reflexivity |]. left. repeat split. intros b [].
  - rewrite (match_prefix_terminated _ _ Hb).
    fold (held b). fold (match_length resource b).
    destruct (Nat.ltb_spec matchlen (match_length resource b)) as [Hlt | Hge].
    + destruct (IH (S i) (match_length resource b) (Some i))
        as (m & idx & Hscan & [(-> & -> & Hle) | (Hlt' & k & b' & Hk & -> & Hm & Hmax & Hfirst)]).
      * exists (match_length resource b), (Some i). split; [exact Hscan |]. right.
        split; [exact Hlt |]. exists 0, b.
        split; [reflexivity |]. split; [f_equal; lia |]. split; [reflexivity |]. split.
        -- intros [| j] b' Hj; simpl in Hj.
           ++ injection Hj as <-. lia.
           ++ apply Hle. apply list_elem_of_In. eapply list_elem_of_lookup_2, Hj.
        -- intros j b' Hj. lia.
      * exists m, (Some (S i + k)). split; [exact Hscan |]. right.
        split; [lia |]. exists (S k), b'.
        split; [exact Hk |]. split; [f_equal; lia |]. split; [exact Hm |]. split.
        -- intros [| j] b'' Hj; simpl in Hj.
           ++ injection Hj as <-. lia.
           ++ eapply Hmax, Hj.
        -- intros [| j] b'' Hlt'' Hj; simpl in Hj.
           ++ injection Hj as <-. lia.
           ++ eapply Hfirst; [| exact Hj]. lia.
    + destruct (IH (S i) matchlen matchidx)
        as (m & idx & Hscan & [(-> & -> & Hle) | (Hlt' & k & b' & Hk & -> & Hm & Hmax & Hfirst)]).
      * exists matchlen, matchidx. split; [exact Hscan |]. left. repeat split.
        intros b' [<- | Hin]; [exact Hge | now apply Hle].
      * exists m, (Some (S i + k)). split; [exact Hscan |]. right.
        split; [exact Hlt' |]. exists (S k), b'.
        split; [exact Hk |]. split; [f_equal; lia |]. split; [exact Hm |]. split.
        -- intros [| j] b'' Hj; simpl in Hj.
           ++ injection Hj as <-. lia.
           ++ eapply Hmax, Hj.
        -- intros [| j] b'' Hlt'' Hj; simpl in Hj.
           ++ injection Hj as <-. lia.
           ++ eapply Hfirst; [| exact Hj]. lia.
Qed.

Lemma FemeInit_scan_first_longest resource st i b :
  Forall terminated st ->
  first_longest resource st i b ->
  FemeInit_scan st 0 (chars resource) 0 None = Some (match_length resource b, Some i).
Proof.
  intros Hst (Hi & Hpos & Hmax & Hfirst).
  destruct (FemeInit_scan_spec resource st Hst 0 0 None)
    as (m & idx & Hscan & [(-> & -> & Hle) | (Hlt & k & b' & Hk & -> & Hm & Hmax' & Hfirst')]).
  - exfalso. assert (match_length resource b <= 0); [| lia].
    apply Hle. apply list_elem_of_In. eapply list_elem_of_lookup_2, Hi.
  - rewrite Hscan. simpl.
    assert (Hki : k = i).
    { destruct (Nat.lt_trichotomy k i) as [Hki | [Hki | Hik]]; [| exact Hki |].
      - specialize (Hfirst k b' Hki Hk). specialize (Hmax' i b Hi). lia.
      - specialize (Hfirst' i b Hik Hi). specialize (Hmax k b' Hk). lia. }
    assert (Hb : b' = b) by congruence.
    congruence.
Qed.

Lemma FemeInit_scan_no_match resource st :
  Forall terminated st ->
  (forall b, In b st -> match_length resource b = 0) ->
  FemeInit_scan st 0 (chars resource) 0 None = Some (0, None).
Proof.
  intros Hst Hzero.
  destruct (FemeInit_scan_spec resource st Hst 0 0 None)
    as (m & idx & Hscan & [(-> & -> & Hle) | (Hlt & k & b' & Hk & -> & Hm & _)]).
  - exact Hscan.
  - exfalso. rewrite <- Hm in Hlt. rewrite Hzero in Hlt; [lia |].
    apply list_elem_of_In. eapply list_elem_of_lookup_2, Hk.
Qed.

Lemma first_longest_exists resource st :
  Forall terminated st ->
  (exists b, In b st /\ 0 < match_length resource b) ->
  exists i b, first_longest resource st i b.
Proof.
  intros Hst (b0 & Hin & Hpos).
  destruct (FemeInit_scan_spec resource st Hst 0 0 None)
    as (m & idx & Hscan & [(-> & -> & Hle) | (Hlt & k & b' & Hk & -> & Hm & Hmax & Hfirst)]).
  - specialize (Hle b0 Hin). lia.
  - exists k, b'. unfold first_longest. rewrite Hm. repeat split; auto.
Qed.

(** ** Registration *)

Lemma cstr_app_NUL l rest : cstr (cstr l ++ NUL :: rest) = cstr l.
Proof.
  induction l as [| c l IH]; simpl; [reflexivity |].
  destruct (is_NUL c) eqn:Hc; simpl; [reflexivity |].
  now rewrite Hc, IH.
Qed.

(** A prefix shorter than the array is stored whole and terminated. *)
Lemma strncpy_terminated (p : string) (n : nat) :
  strlen p < n -> In NUL (strncpy p n) /\ cstr (strncpy p n) = chars p.
Proof.
  unfold strlen, strncpy, chars. intros Hlen.
  set (l := cstr (list_ascii_of_string p)) in *.
  rewrite take_app_ge by lia. rewrite take_replicate.
  destruct (n - length l) as [| d] eqn:Hd; [lia |].
  replace (Nat.min (S d) n) with (S (Nat.min d (n - 1))) by lia.
  simpl. split.
  - apply in_or_app. right. now left.
  - apply cstr_app_NUL.
Qed.

Lemma register_appends max prio p f (st : Registry) :
  length st < slots ->
  register max prio p f st =
  Ret (0%Z, st ++ [ {| prefix := strncpy p max; init := f; priority := prio |} ]).
Proof.
  intros Hlen. unfold register.
  destruct (Nat.leb_spec slots (length st)); [lia | reflexivity].
Qed.

Lemma register_full max prio p f (st : Registry) :
  slots <= length st ->
  register max prio p f st = Abort "Too many backends".
Proof.
  intros Hlen. unfold register.
  destruct (Nat.leb_spec slots (length st)); [reflexivity | lia].
Qed.

(** C1: among slots holding terminated prefixes, [FemeInit] selects the slot
    whose prefix shares the longest leading substring with the resource, the
    earliest such slot on equal lengths, and calls no initializer but that
    slot's; when no prefix shares a leading character it fails with
    "No suitable backend" without calling any initializer. *)
Theorem FemeInit_selects_longest_match :
  forall sizeof_Feme (st : Registry) (resource : string) feme (h : Heap),
    Forall terminated st ->
    ((forall b, In b st -> match_length resource b = 0) ->
       FemeInit sizeof_Feme st resource feme h = Abort "No suitable backend")
    /\
    ((exists b, In b st /\ 0 < match_length resource b) ->
       exists i b, first_longest resource st i b)
    /\
    (forall i b, first_longest resource st i b ->
       FemeInit_scan st 0 (chars resource) 0 None
         = Some (match_length resource b, Some i)
       /\
       (forall t o, Runs (FemeInit sizeof_Feme st resource feme h) t o ->
          calls is_init t = [] \/
          exists a h1, calls is_init t = [CallInit (init b) resource a h1])
       /\
       (forall a r,
          Runs (FemeInit sizeof_Feme st resource feme h)
            [ Ev (calloc 1 sizeof_Feme) (Some a);
              Ev (CallInit (init b) resource a
                    (<[a := fresh_context "FemeErrorAbort"]> h)) r ]
            (Returned (fst r, (Some a, snd r))))).
Proof.
  intros sizeof_Feme st resource feme h Hst. split; [| split].
  - intros Hzero. unfold FemeInit.
    now rewrite (FemeInit_scan_no_match resource st Hst Hzero).
  - now apply first_longest_exists.
  - intros i b Hsel.
    pose proof (FemeInit_scan_first_longest resource st i b Hst Hsel) as Hscan.
    destruct Hsel as (Hi & Hpos & _).
    split; [exact Hscan |].
    unfold FemeInit. rewrite Hscan.
    destruct (Nat.eqb_spec (match_length resource b) 0) as [H0 | _]; [lia |].
    unfold FemeInit_create, selected_init. rewrite Hi. split.
    + intros t o H. runs_inv H.
      destruct (negb (sizeof_Feme =? 0)%Z && negb (bool_decide (is_Some x)));
        runs_inv H.
      * now left.
      * destruct x as [a |]; runs_inv H; [| now left].
        right. exists a. eexists.
        destruct x as [ierr h2]. unfold FemeChk in H.
        destruct (Z.eqb ierr 0); runs_inv H; reflexivity.
    + intros a [ierr h2]. simpl.
      eexists (Some a), _. split; [reflexivity |].
      replace (bool_decide (is_Some (Some a))) with true
        by (symmetry; apply bool_decide_eq_true; eauto).
      rewrite andb_false_r. simpl.
      eexists (ierr, h2), _. split; [reflexivity |].
      unfold FemeChk. destruct (Z.eqb_spec ierr 0) as [-> | _]; simpl; auto.
Qed.

(** C3, as the code has it: while fewer than 32 slots are used [FemeRegister]
    appends the entry and returns 0; once all 32 are used it writes nothing
    and reports "Too many backends" with no context, which prints and aborts
    the process, so the call does not return. *)
Theorem FemeRegister_capacity :
  forall max (p : string) (f : FnRef) (st : Registry),
    (length st < 32 ->
       FemeRegister max p f st =
       Ret (0%Z, st ++ [ {| prefix := strncpy p max; init := f; priority := None |} ]))
    /\
    (32 <= length st ->
       FemeRegister max p f st = Abort "Too many backends" /\
       forall t o, Runs (FemeRegister max p f st) t o ->
                   t = [] /\ o = Aborted "Too many backends").
Proof.
  intros max p f st. split; intros Hlen.
  - now apply register_appends.
  - unfold FemeRegister. rewrite register_full by exact Hlen.
    split; [reflexivity |]. intros t o H. exact H.
Qed.

(** C3, as stated, fails on a full table: the overflow call never returns
    an error to its caller, so nothing can be resolved after it. *)
Lemma FemeRegister_overflow_never_returns :
  length full_table = 32 /\
  ~ exists t r, Runs (FemeRegister 64 "/gpu/cuda/ref" "CeedInit_Cuda" full_table)
                  t (Returned r).
Proof.
  split; [reflexivity |].
  intros (t & r & H). simpl in H. destruct H as [_ H]. discriminate H.
Qed.

(** ** Priorities *)

Lemma same_but_priority_length (st1 st2 : Registry) :
  same_but_priority st1 st2 -> length st1 = length st2.
Proof. apply Forall2_length. Qed.

Lemma FemeInit_scan_same (st1 st2 : Registry) :
  same_but_priority st1 st2 ->
  forall i resource matchlen matchidx,
    FemeInit_scan st1 i resource matchlen matchidx =
    FemeInit_scan st2 i resource matchlen matchidx.
Proof.
  induction 1 as [| b1 b2 st1 st2 [Hp _] _ IH]; intros i resource matchlen matchidx.
  - reflexivity.
  - simpl. rewrite Hp. destruct (match_prefix (prefix b2) resource) as [n |];
      [| reflexivity].
    destruct (Nat.ltb matchlen n); apply IH.
Qed.

Lemma selected_init_same (st1 st2 : Registry) :
  same_but_priority st1 st2 ->
  forall matchidx, selected_init st1 matchidx = selected_init st2 matchidx.
Proof.
  intros H [i |]; [| reflexivity]. simpl. revert i.
  induction H as [| b1 b2 st1 st2 [_ Hi] _ IH]; intros [| i]; simpl; auto.
  now rewrite Hi.
Qed.

Lemma register_all_same max regs1 regs2 :
  Forall2 (fun r1 r2 : string * FnRef * Z => fst r1 = fst r2) regs1 regs2 ->
  forall (st1 st2 st1' st2' : Registry),
    same_but_priority st1 st2 ->
    register_all max regs1 st1 = Ret st1' ->
    register_all max regs2 st2 = Ret st2' ->
    same_but_priority st1' st2'.
Proof.
  induction 1 as [| [[p1 f1] z1] [[p2 f2] z2] regs1 regs2 Heq _ IH];
    intros st1 st2 st1' st2' Hst H1 H2; simpl in *.
  - congruence.
  - injection Heq as -> ->.
    pose proof (same_but_priority_length _ _ Hst) as Hlen.
    unfold CeedRegister, register in H1, H2. rewrite <- Hlen in H2.
    destruct (Nat.leb slots (length st1)); simpl in H1, H2; [discriminate |].
    eapply IH; [| exact H1 | exact H2].
    apply Forall2_app; [exact Hst |]. constructor; [| constructor]. now split.
Qed.

(** C7: two registration sequences that differ only in the priorities
    passed to [CeedRegister] leave tables on which, for every resource, the
    scan picks the same slot and [FemeInit] is the same program: the
    priority is never read. *)
Theorem FemeInit_ignores_priority :
  forall max sizeof_Feme (regs1 regs2 : list (string * FnRef * Z))
         (st1 st2 : Registry),
    Forall2 (fun r1 r2 => fst r1 = fst r2) regs1 regs2 ->
    register_all max regs1 [] = Ret st1 ->
    register_all max regs2 [] = Ret st2 ->
    forall (resource : string) feme (h : Heap),
      FemeInit_scan st1 0 (chars resource) 0 None =
      FemeInit_scan st2 0 (chars resource) 0 None
      /\ FemeInit sizeof_Feme st1 resource feme h =
         FemeInit sizeof_Feme st2 resource feme h.
Proof.
  intros max sizeof_Feme regs1 regs2 st1 st2 Hregs H1 H2 resource feme h.
  assert (Hst : same_but_priority st1 st2).
  { eapply register_all_same; [exact Hregs | | exact H1 | exact H2]. constructor. }
  split; [now apply FemeInit_scan_same |].
  unfold FemeInit. rewrite (FemeInit_scan_same _ _ Hst).
  destruct (FemeInit_scan st2 0 (chars resource) 0 None) as [[matchlen matchidx] |];
    [| reflexivity].
  now rewrite (selected_init_same _ _ Hst).
Qed.

(** ** Destruction *)

(** C9: [FemeDestroy] on a NULL handle returns 0 and calls nothing; a
    destroy that returns 0 has freed the context and set the handle to NULL,
    and destroying through that handle again returns 0. *)
Theorem FemeDestroy_null_safe_idempotent :
  (forall h : Heap, FemeDestroy None h = Ret (0%Z, (None, h)))
  /\
  (forall a (h : Heap) t feme' (h' : Heap),
     Runs (FemeDestroy (Some a) h) t (Returned (0%Z, (feme', h'))) ->
     feme' = None /\ h' !! a = None /\
     FemeDestroy feme' h' = Ret (0%Z, (None, h'))).
Proof.
  split; [reflexivity |].
  intros a h t feme' h' H. unfold FemeDestroy, deref in H.
  destruct (h !! a) as [ctx |]; simpl in H; [| destruct H; discriminate].
  assert (Hfree : forall ierr (h1 : Heap) t1,
    Runs (FemeChk ierr (Some a, h1)
            (do (ierr0, r) <- FemeFree (Some a) h1; FemeChk ierr0 r (Ret (0%Z, r))))
         t1 (Returned (0%Z, (feme', h'))) ->
    feme' = None /\ h' !! a = None).
  { intros ierr h1 t1 H1. unfold FemeChk in H1.
    destruct (Z.eqb_spec ierr 0) as [-> | Hne].
    - simpl in H1. destruct (h1 !! a); simpl in H1; [| destruct H1; discriminate].
      destruct H1 as [_ H1]. injection H1 as -> ->.
      split; [reflexivity | apply lookup_delete_eq].
    - simpl in H1. destruct H1 as [_ H1]. congruence. }
  assert (feme' = None /\ h' !! a = None) as [-> Hgone].
  { destruct (Destroy ctx) as [fn |]; simpl in H.
    - destruct H as ([ierr h1] & t' & -> & H). eapply Hfree, H.
    - eapply Hfree, H. }
  auto.
Qed.

(** ** Error checks *)

Lemma Runs_FemeChk_ok {S} ierr (s : S) k t s' :
  Runs (FemeChk ierr s k) t (Returned (0%Z, s')) ->
  ierr = 0%Z /\ Runs k t (Returned (0%Z, s')).
Proof.
  unfold FemeChk. destruct (Z.eqb_spec ierr 0) as [-> | Hne]; [auto |].
  simpl. intros [_ H]. congruence.
Qed.

(** The runs of an error report through a context. *)
Lemma Runs_CeedError ceed (h : Heap) ecode msg t o :
  Runs (CeedError ceed h ecode msg) t o ->
  (t = [] /\ o = Undefined) \/
  (exists ctx fn ret, h !! ceed = Some ctx /\ Error ctx = Some fn /\
     t = [Ev (CallError fn ecode msg) ret] /\ o = Returned ret).
Proof.
  unfold CeedError, deref. destruct (h !! ceed) as [ctx |]; simpl; [| now left].
  destruct (Error ctx) as [fn |] eqn:He; simpl; [| now left].
  intros (ret & t' & -> & -> & ->). right. exists ctx, fn, ret. auto.
Qed.

Lemma Runs_report {S} (p : Prog Z) (s : S) t o ecode msg ceed (h : Heap) :
  p = CeedError ceed h ecode msg ->
  Runs (do ierr <- p; Ret (ierr, s)) t o ->
  (t = [] /\ o = Undefined) \/
  (exists ctx fn ret, h !! ceed = Some ctx /\ Error ctx = Some fn /\
     t = [Ev (CallError fn ecode msg) ret] /\ o = Returned (ret, s)).
Proof.
  intros -> H. apply Runs_bind in H.
  destruct H as [(t1 & a & t2 & H1 & H2 & ->) | [(m & H1 & ->) | (H1 & ->)]];
    apply Runs_CeedError in H1;
    destruct H1 as [(-> & Ho) | (ctx & fn & ret & Hc & He & -> & Ho)];
    try discriminate.
  - injection Ho as <-. simpl in H2. destruct H2 as [-> ->].
    right. exists ctx, fn, a. auto.
  - now left.
Qed.

(** The runs of a vendor check: it lets a zero result through, and answers
    anything else with the vendor's text for it and a report. *)
Lemma Runs_CeedChk_gpu {S} v ceed (h : Heap) result (s : S) k t o :
  Runs (CeedChk_gpu v ceed h result s k) t o ->
  (result = 0%Z /\ Runs k t o) \/
  (result <> 0%Z /\ exists msg t',
     t = Ev (gpuErrorName v result) msg :: t' /\
     ((t' = [] /\ o = Undefined) \/
      exists ctx fn ret, h !! ceed = Some ctx /\ Error ctx = Some fn /\
        t' = [Ev (CallError fn result msg) ret] /\ o = Returned (ret, s))).
Proof.
  unfold CeedChk_gpu. destruct (Z.eqb_spec result 0) as [-> | Hne]; [now left |].
  intros H. right. split; [exact Hne |].
  simpl in H. destruct H as (msg & t' & -> & H).
  exists msg, t'. split; [reflexivity |].
  eapply Runs_report; [reflexivity | exact H].
Qed.

Lemma Runs_CeedChk_rtc {S} v ceed (h : Heap) result (s : S) k t o :
  Runs (CeedChk_rtc v ceed h result s k) t o ->
  (result = 0%Z /\ Runs k t o) \/
  (result <> 0%Z /\ exists msg t',
     t = Ev (rtcGetErrorString v result) msg :: t' /\
     ((t' = [] /\ o = Undefined) \/
      exists ctx fn ret, h !! ceed = Some ctx /\ Error ctx = Some fn /\
        t' = [Ev (CallError fn result msg) ret] /\ o = Returned (ret, s))).
Proof.
  unfold CeedChk_rtc. destruct (Z.eqb_spec result 0) as [-> | Hne]; [now left |].
  intros H. right. split; [exact Hne |].
  simpl in H. destruct H as (msg & t' & -> & H).
  exists msg, t'. split; [reflexivity |].
  eapply Runs_report; [reflexivity | exact H].
Qed.

(** A failed check makes no call of the kinds [P] leaves out. *)
Lemma CeedChk_gpu_calls {S} (P : Call -> bool) v ceed (h : Heap) result (s : S) k t o :
  (forall r m, P (gpuErrorName v r) = false /\ forall fn, P (CallError fn r m) = false) ->
  Runs (CeedChk_gpu v ceed h result s k) t o ->
  (result = 0%Z /\ Runs k t o) \/ (result <> 0%Z /\ calls P t = []).
Proof.
  intros HP H. apply Runs_CeedChk_gpu in H.
  destruct H as [H | (Hne & msg & t' & -> & H)]; [now left |].
  right. split; [exact Hne |]. unfold calls. simpl.
  destruct (HP result msg) as [-> HP'].
  destruct H as [(-> & _) | (ctx & fn & ret & _ & _ & -> & _)]; simpl;
    [reflexivity | now rewrite HP'].
Qed.

Lemma CeedChk_rtc_calls {S} (P : Call -> bool) v ceed (h : Heap) result (s : S) k t o :
  (forall r m, P (rtcGetErrorString v r) = false /\ forall fn, P (CallError fn r m) = false) ->
  Runs (CeedChk_rtc v ceed h result s k) t o ->
  (result = 0%Z /\ Runs k t o) \/ (result <> 0%Z /\ calls P t = []).
Proof.
  intros HP H. apply Runs_CeedChk_rtc in H.
  destruct H as [H | (Hne & msg & t' & -> & H)]; [now left |].
  right. split; [exact Hne |]. unfold calls. simpl.
  destruct (HP result msg) as [-> HP'].
  destruct H as [(-> & _) | (ctx & fn & ret & _ & _ & -> & _)]; simpl;
    [reflexivity | now rewrite HP'].
Qed.

(** ** The launcher *)

(** C8: each of the three launch entry points, for either vendor, hands the
    driver exactly one launch whose grid is (gridSize, 1, 1); the block is
    (blockSize, 1, 1) or the three sizes given, and the shared memory size
    is 0 unless the caller gave one. *)
Theorem launch_grid_is_one_dimensional :
  forall v ceed (h : Heap) kernel gridSize bx by_ bz shared args,
    (forall t o,
       Runs (CeedRunKernel v ceed h kernel gridSize bx args) t o ->
       calls is_launch t =
       [gpuLaunchKernel v kernel gridSize 1 1 bx 1 1 0 None args None])
    /\
    (forall t o,
       Runs (CeedRunKernelDim v ceed h kernel gridSize bx by_ bz args) t o ->
       calls is_launch t =
       [gpuLaunchKernel v kernel gridSize 1 1 bx by_ bz 0 None args None])
    /\
    (forall t o,
       Runs (CeedRunKernelDimShared v ceed h kernel gridSize bx by_ bz shared args) t o ->
       calls is_launch t =
       [gpuLaunchKernel v kernel gridSize 1 1 bx by_ bz shared None args None]).
Proof.
  intros v ceed h kernel gridSize bx by_ bz shared args.
  assert (Hchk : forall r t o,
    Runs (CeedChk_gpu v ceed h r tt (Ret (0%Z, tt))) t o -> calls is_launch t = []).
  { intros r t o H. apply (CeedChk_gpu_calls is_launch) in H; [| now split].
    destruct H as [(_ & -> & _) | (_ & H)]; [reflexivity | exact H]. }
  repeat split; intros t o H; simpl in H; destruct H as (r & t' & -> & H);
    apply Hchk in H; unfold calls in *; simpl; now rewrite H.
Qed.

(** ** Programs that never make a call of some kind *)

Lemma NoCalls_Runs {A} P (p : Prog A) t o :
  NoCalls P p -> Runs p t o -> calls P t = [].
Proof.
  revert t. induction p as [a | msg | | c k IH]; simpl; intros t Hp H;
    try (destruct H as [-> _]; reflexivity).
  destruct H as (x & t' & -> & H). destruct Hp as [Hc Hk].
  unfold calls in *. simpl. rewrite Hc. eapply IH; eauto.
Qed.

Lemma NoCalls_bind {A B} P (p : Prog A) (f : A -> Prog B) :
  NoCalls P p -> (forall a, NoCalls P (f a)) -> NoCalls P (bind p f).
Proof.
  induction p as [a | msg | | c k IH]; simpl; auto.
  intros [Hc Hk] Hf. split; auto.
Qed.

Lemma compile_load_NoCalls v ceed (h : Heap) prog module :
  NoCalls is_compile (compile_load v ceed h prog module).
Proof.
  unfold compile_load, CeedChk_rtc, CeedChk_gpu, FemeMallocArray, FemeChk,
    CeedError, deref, FemeError, FemeErrorImpl, FemeErrorAbort, call.
  no_calls.
Qed.

Lemma compile_failed_NoCalls v ceed (h : Heap) prog result module :
  NoCalls is_compile (compile_failed v ceed h prog result module).
Proof.
  unfold compile_failed, CeedChk_rtc, CeedChk_gpu, FemeMallocArray, FemeChk,
    CeedError, deref, FemeError, FemeErrorImpl, FemeErrorAbort, call.
  no_calls.
Qed.

(** ** The compiler bridge *)

Lemma kernel_opts_length args : length (kernel_opts args) = length args.
Proof. unfold kernel_opts. apply length_map. Qed.

Lemma compile_opts_spelled v prop args :
  kernel_opts args ++ standard_opts v prop =
  List.map (fun a => snprintf 32 ("-D" +:+ fmt_s (fst a) +:+ "=" +:+ fmt_d (snd a)))
           args
  ++ [ "-DCeedScalar=double"; "-DCeedInt=int"; "-default-device";
       match v with
       | Cuda => snprintf 32 ("-arch=compute_" +:+ fmt_d (major prop)
                              +:+ fmt_d (minor prop))
       | Hip => snprintf 32 ("--gpu-architecture=gfx" +:+ fmt_d (gcnArch prop))
       end ].
Proof. destruct v; reflexivity. Qed.

(** C4: a compile step issued by [CeedCompileCuda] / [CeedCompileHip] for
    [n] caller pairs carries [n + 4] options: one [snprintf]-ed
    "-D<name>=<value>" per pair, then the scalar type, the index type, the
    default-device flag and the architecture flag.  The architecture flag is
    made of the properties [prop] that the device query answered for the
    session's device just before the compile step: for CUDA
    "-arch=compute_" followed by the decimal major and minor capability, for
    HIP "--gpu-architecture=gfx" followed by the decimal architecture number,
    each cut to 31 characters.  A call issues at most one compile step, and
    issues it whenever the program is created and the properties are
    obtained. *)
Theorem compile_passes_n_plus_4_options :
  forall v ceed (h : Heap) source module (args : list (string * Z)),
    let arch_flag (prop : DeviceProp) : string :=
      match v with
      | Cuda => snprintf 32 ("-arch=compute_" +:+ fmt_d (major prop)
                             +:+ fmt_d (minor prop))
      | Hip => snprintf 32 ("--gpu-architecture=gfx" +:+ fmt_d (gcnArch prop))
      end in
    let options (prop : DeviceProp) : list string :=
      List.map (fun a => snprintf 32 ("-D" +:+ fmt_s (fst a) +:+ "=" +:+ fmt_d (snd a)))
               args
      ++ [ "-DCeedScalar=double"; "-DCeedInt=int"; "-default-device";
           arch_flag prop ] in
    (forall prop,
       length (kernel_opts args ++ standard_opts v prop) = length args + 4 /\
       kernel_opts args ++ standard_opts v prop = options prop /\
       arch_opt v prop = arch_flag prop)
    /\
    (forall t o,
       Runs (CeedCompile v ceed h source module args) t o ->
       calls is_compile t = [] \/
       exists ctx s prog prop result pre post,
         h !! ceed = Some ctx /\ session v (data ctx) = Some s /\
         t = pre
             ++ Ev (gpuGetDeviceProperties v (deviceId s)) (0%Z, prop)
             :: Ev (rtcCompileProgram v prog (Z.of_nat (length args) + 4)
                      (options prop)) result
             :: post /\
         length (options prop) = length args + 4 /\
         calls is_compile pre = [] /\ calls is_compile post = [])
    /\
    (forall (env : Env) ctx s prog prop,
       h !! ceed = Some ctx -> session v (data ctx) = Some s ->
       env (rtcCreateProgram v source) = (0%Z, prog) ->
       env (gpuGetDeviceProperties v (deviceId s)) = (0%Z, prop) ->
       calls is_compile (fst (run env (CeedCompile v ceed h source module args))) =
       [ rtcCompileProgram v prog (Z.of_nat (length args) + 4) (options prop) ]).
Proof.
  intros v ceed h source module args arch_flag options.
  assert (Hopts : forall prop, kernel_opts args ++ standard_opts v prop = options prop)
    by (intro prop; apply compile_opts_spelled).
  assert (Hlen : forall prop,
             length (kernel_opts args ++ standard_opts v prop) = length args + 4)
    by (intro prop; rewrite length_app, kernel_opts_length; reflexivity).
  split; [| split].
  - intros prop. split; [apply Hlen |]. split; [apply Hopts |].
    subst arch_flag. destruct v; reflexivity.
  - intros t o H. unfold CeedCompile in H. simpl in H.
    destruct H as (x0 & t1 & -> & [r prog] & t2 & -> & H).
    apply (CeedChk_rtc_calls is_compile) in H; [| now split].
    destruct H as [(-> & H) | (_ & Hc)]; [| left; exact Hc].
    unfold CeedGetData, deref in H.
    destruct (h !! ceed) as [ctx |] eqn:Hctx; simpl in H;
      [| destruct H as [-> _]; now left].
    destruct (session v (data ctx)) as [s |] eqn:Hs; simpl in H;
      [| destruct H as [-> _]; now left].
    destruct H as ([ierr prop] & t3 & -> & H).
    apply (CeedChk_gpu_calls is_compile) in H; [| now split].
    destruct H as [(-> & H) | (_ & Hc)]; [| left; exact Hc].
    simpl in H. destruct H as (result & t4 & -> & H).
    right.
    exists ctx, s, prog, prop, result,
      [Ev (gpuFree0 v) x0; Ev (rtcCreateProgram v source) (0%Z, prog)], t4.
    rewrite <- Hopts.
    split; [reflexivity |]. split; [exact Hs |]. split; [reflexivity |].
    split; [apply Hlen |]. split; [reflexivity |].
    destruct (Z.eqb result 0).
    + eapply NoCalls_Runs; [apply compile_load_NoCalls | exact H].
    + eapply NoCalls_Runs; [apply compile_failed_NoCalls | exact H].
  - intros env ctx s prog prop Hctx Hs Hcreate Hprop.
    rewrite <- Hopts.
    unfold CeedCompile, CeedGetData, deref. simpl.
    rewrite Hcreate. simpl. rewrite Hctx. simpl. rewrite Hs. simpl.
    rewrite Hprop. simpl. unfold calls. simpl. f_equal.
    set (result := env (rtcCompileProgram v prog _ _)).
    destruct (Z.eqb result 0).
    + exact (NoCalls_Runs is_compile _ _ _
               (compile_load_NoCalls v ceed h prog module) (run_Runs env _)).
    + exact (NoCalls_Runs is_compile _ _ _
               (compile_failed_NoCalls v ceed h prog result module) (run_Runs env _)).
Qed.







(** ** The dispatch table *)

Lemma no_report_app t1 t2 :
  calls is_report (t1 ++ t2) = [] ->
  calls is_report t1 = [] /\ calls is_report t2 = [].
Proof. rewrite calls_app. apply app_eq_nil. Qed.

Lemma Runs_report_ok {S} ceed (h : Heap) ecode msg (s s' : S) t :
  Runs (do ierr <- CeedError ceed h ecode msg; Ret (ierr, s)) t (Returned (0%Z, s')) ->
  calls is_report t = [] -> False.
Proof.
  intros H Hrep. eapply Runs_report in H; [| reflexivity].
  destruct H as [(_ & Ho) | (ctx & fn & ret & _ & _ & -> & _)]; discriminate.
Qed.

Lemma Runs_CeedSetBackendFunction ceed type fname f (h h' : Heap) t :
  Runs (CeedSetBackendFunction ceed type ceed fname f h) t (Returned (0%Z, h')) ->
  calls is_report t = [] ->
  exists ctx, h !! ceed = Some ctx /\
    h' = <[ceed := {| Error := Error ctx; data := data ctx;
                      ops := <[fname := f]> (ops ctx) |}]> h.
Proof.
  intros H Hrep. unfold CeedSetBackendFunction in H. simpl in H.
  destruct H as (ok & t' & -> & H). destruct ok.
  - unfold deref in H. destruct (h !! ceed) as [ctx |]; simpl in H;
      destruct H as [_ Ho]; [| discriminate].
    injection Ho as ->. eauto.
  - exfalso. eapply Runs_report_ok; [exact H | exact Hrep].
Qed.

Lemma installed_insert (h : Heap) ceed ctx fname f name :
  h !! ceed = Some ctx ->
  (name = fname \/ installed h ceed name) ->
  installed (<[ceed := {| Error := Error ctx; data := data ctx;
                          ops := <[fname := f]> (ops ctx) |}]> h) ceed name.
Proof.
  intros Hctx Hname. unfold installed. rewrite lookup_insert_eq.
  eexists. split; [reflexivity |]. simpl.
  destruct (decide (fname = name)) as [-> | Hne].
  - rewrite lookup_insert_eq. eauto.
  - rewrite lookup_insert_ne by exact Hne.
    destruct Hname as [-> | (ctx' & Hc & Hi)]; [contradiction |].
    rewrite Hctx in Hc. now injection Hc as <-.
Qed.

Lemma set_functions_installs ceed fs :
  forall (h h' : Heap) t,
    Runs (set_functions ceed fs h) t (Returned (0%Z, h')) ->
    calls is_report t = [] ->
    (forall name, installed h ceed name -> installed h' ceed name) /\
    (forall name, In name (List.map fst fs) -> installed h' ceed name).
Proof.
  induction fs as [| [fname f] fs IH]; intros h h' t H Hrep.
  - simpl in H. destruct H as [_ Ho]. injection Ho as <-. split; [auto |].
    intros name [].
  - change (Runs (do (ierr, h1) <- CeedSetBackendFunction ceed "Ceed" ceed fname f h;
                  FemeChk ierr h1 (set_functions ceed fs h1)) t (Returned (0%Z, h')))
      in H.
    apply Runs_bind in H.
    destruct H as [(t1 & [ierr h1] & t2 & H1 & H2 & ->) | [(m & _ & Hd) | (_ & Hd)]];
      [| discriminate Hd ..].
    apply no_report_app in Hrep. destruct Hrep as [Hrep1 Hrep2].
    apply Runs_FemeChk_ok in H2. destruct H2 as [-> H2].
    destruct (Runs_CeedSetBackendFunction _ _ _ _ _ _ _ H1 Hrep1) as (ctx & Hctx & ->).
    destruct (IH _ _ _ H2 Hrep2) as [Hkeep Hnew]. split.
    + intros name Hi. apply Hkeep. apply installed_insert; auto.
    + intros name [<- | Hin]; [| now apply Hnew].
      apply Hkeep. apply installed_insert; auto.
Qed.

Lemma CeedInit_gpu_installs sizeof_data v name expected fs resource ceed
    (h h' : Heap) t :
  Runs (CeedInit_gpu sizeof_data v name expected fs resource ceed h) t
       (Returned (0%Z, h')) ->
  calls is_report t = [] ->
  forall op, In op (List.map fst fs) -> installed h' ceed op.
Proof.
  intros H Hrep. unfold CeedInit_gpu in H.
  destruct (strncmp_eq (chars resource) (chars expected) 9); simpl negb in H; cbv iota in H.
  2: { exfalso. eapply Runs_report_ok; [exact H | exact Hrep]. }
  apply Runs_bind in H.
  destruct H as [(t1 & [ierr p] & t2 & _ & H & ->) | [(m & _ & Hd) | (_ & Hd)]];
    [| discriminate Hd ..].
  apply no_report_app in Hrep. destruct Hrep as [_ Hrep].
  apply Runs_FemeChk_ok in H. destruct H as [-> H].
  apply Runs_bind in H.
  destruct H as [(t3 & [ierr h1] & t4 & _ & H & ->) | [(m & _ & Hd) | (_ & Hd)]];
    [| discriminate Hd ..].
  apply no_report_app in Hrep. destruct Hrep as [_ Hrep].
  apply Runs_FemeChk_ok in H. destruct H as [-> H].
  apply Runs_bind in H.
  destruct H as [(t5 & [ierr h2] & t6 & _ & H & ->) | [(m & _ & Hd) | (_ & Hd)]];
    [| discriminate Hd ..].
  apply no_report_app in Hrep. destruct Hrep as [_ Hrep].
  apply Runs_FemeChk_ok in H. destruct H as [-> H].
  apply (set_functions_installs _ _ _ _ _ H Hrep).
Qed.

Lemma registerBackend_installs sizeof_data resource ceed (h h' : Heap) t :
  Runs (registerBackend sizeof_data resource ceed h) t (Returned (0%Z, h')) ->
  calls is_report t = [] ->
  forall op, In op ["GetPreferredMemType"; "VectorCreate"; "QFunctionCreate"] ->
             installed h' ceed op.
Proof.
  intros H Hrep. unfold registerBackend in H.
  apply Runs_bind in H.
  destruct H as [(t1 & [r h1] & t2 & _ & H & ->) | [(m & _ & Hd) | (_ & Hd)]];
    [| discriminate Hd ..].
  apply no_report_app in Hrep. destruct Hrep as [_ Hrep].
  destruct r as [ierr | what].
  2: { exfalso. destruct (format_no_args (chars what)).
       - eapply Runs_report_ok; [exact H | exact Hrep].
       - destruct H as [_ Hd]. discriminate Hd. }
  apply Runs_FemeChk_ok in H. destruct H as [-> H].
  change (registerMethods ceed h1) with
    (set_functions ceed
       [ ("GetPreferredMemType", "ceed::occa::getPreferredMemType");
         ("VectorCreate", "ceed::occa::Vector::ceedCreate");
         ("QFunctionCreate", "ceed::occa::QFunction::ceedCreate") ] h1) in H.
  apply (set_functions_installs _ _ _ _ _ H Hrep).
Qed.

(** C6, as the code has it: an initialization that returns 0 without
    reporting an error has installed, for the CUDA backend, every one of the
    eleven required names; for the HIP backend, the eight names it
    registers; for the OCCA backend, the three names that are compiled in. *)
Theorem initializers_install_operations :
  forall sizeof_data (resource : string) ceed (h h' : Heap) t,
    calls is_report t = [] ->
    (Runs (CeedInit_Cuda sizeof_data resource ceed h) t (Returned (0%Z, h')) ->
       forall op, In op required_ops -> installed h' ceed op)
    /\
    (Runs (CeedInit_Hip sizeof_data resource ceed h) t (Returned (0%Z, h')) ->
       forall op,
         In op [ "GetPreferredMemType"; "VectorCreate"; "BasisCreateTensorH1";
                 "BasisCreateH1"; "ElemRestrictionCreate";
                 "ElemRestrictionCreateBlocked"; "QFunctionCreate";
                 "OperatorCreate" ] ->
         installed h' ceed op)
    /\
    (Runs (registerBackend sizeof_data resource ceed h) t (Returned (0%Z, h')) ->
       forall op,
         In op [ "GetPreferredMemType"; "VectorCreate"; "QFunctionCreate" ] ->
         installed h' ceed op).
Proof.
  intros sizeof_data resource ceed h h' t Hrep. split; [| split]; intros H.
  - exact (CeedInit_gpu_installs _ _ _ _ _ _ _ _ _ _ H Hrep).
  - exact (CeedInit_gpu_installs _ _ _ _ _ _ _ _ _ _ H Hrep).
  - exact (registerBackend_installs _ _ _ _ _ _ H Hrep).
Qed.

(** C6, as stated, fails for the OCCA backend: a successful initialization
    on the all-succeeding machine leaves "OperatorCreate" (and "Destroy")
    without an entry. *)
Lemma occa_initializer_lacks_required_operations :
  exists t h',
    run env_ok (registerBackend 8 "/cpu/occa" 1 {[ 1 := fresh_context "FemeErrorAbort" ]})
      = (t, Returned (0%Z, h')) /\
    calls is_report t = [] /\
    ~ installed h' 1 "OperatorCreate" /\ ~ installed h' 1 "Destroy".
Proof.
  eexists _, _. split; [vm_compute; reflexivity |].
  split; [reflexivity |].
  split; intros (ctx & Hctx & Hop); vm_compute in Hctx; injection Hctx as <-;
    vm_compute in Hop; destruct Hop as [x Hx]; discriminate Hx.
Qed.

(** ** Every run of a program *)

Lemma AllRuns_Runs {A} (p : Prog A) :
  forall (Q : list Event -> Outcome A -> Prop) t o,
    AllRuns Q p -> Runs p t o -> Q t o.
Proof.
  induction p as [a | msg | | c k IH]; simpl; intros Q t o HQ HR.
  - destruct HR as [-> ->]. exact HQ.
  - destruct HR as [-> ->]. exact HQ.
  - destruct HR as [-> ->]. exact HQ.
  - destruct HR as (x & t' & -> & HR).
    exact (IH x (fun t o => Q (Ev c x :: t) o) t' o (HQ x) HR).
Qed.

Lemma AllRuns_impl {A} (p : Prog A) :
  forall (Q Q' : list Event -> Outcome A -> Prop),
    (forall t o, Q t o -> Q' t o) -> AllRuns Q p -> AllRuns Q' p.
Proof.
  induction p as [a | msg | | c k IH]; simpl; intros Q Q' HQQ HQ;
    [auto | auto | auto |].
  intro x. apply (IH x (fun t o => Q (Ev c x :: t) o)); auto.
Qed.

Lemma AllRuns_bind {A B} (p : Prog A) (f : A -> Prog B) :
  forall (Q : list Event -> Outcome B -> Prop),
    AllRuns (fun t o =>
               match o with
               | Returned a => AllRuns (fun t' o' => Q (t ++ t') o') (f a)
               | Aborted msg => Q t (Aborted msg)
               | Undefined => Q t Undefined
               end) p ->
    AllRuns Q (bind p f).
Proof.
  induction p as [a | msg | | c k IH]; simpl; intros Q HQ; [auto | auto | auto |].
  intro x. apply IH. exact (HQ x).
Qed.

(** ** The OCCA default mode *)

Lemma Runs_getDefaultDeviceMode_cpu gpuMode t o :
  Runs (getDefaultDeviceMode true gpuMode) t o ->
  exists mode, o = Returned mode /\ In mode occa_modes /\
    calls is_report t = [] /\
    (gpuMode = false ->
     exists e, t = [Ev (occa_modeIsEnabled "OpenMP") e] /\
               mode = if e then "OpenMP" else "Serial") /\
    (gpuMode = true ->
     (exists skipped, In (skipped, mode) gpu_modes /\
        t = probes skipped ++ [Ev (occa_modeIsEnabled mode) true])
     \/
     (exists e, t = probes ["CUDA"; "HIP"; "Metal"; "OpenCL"]
                    ++ [Ev (occa_modeIsEnabled "OpenMP") e] /\
                mode = if e then "OpenMP" else "Serial")).
Proof.
  intros H. unfold getDefaultDeviceMode, gpu_default_mode in H.
  destruct gpuMode; simpl in H;
    repeat (let e := fresh "e" in let t' := fresh "t" in
            destruct H as (e & t' & -> & H); destruct e; simpl in H);
    destruct H as [-> ->]; eexists; (split; [reflexivity |]);
    (split; [unfold occa_modes; simpl; tauto |]);
    (split; [reflexivity |]);
    (split; intros Hg; try discriminate Hg);
    first [ eexists; split; reflexivity
          | left; eexists; split; [unfold gpu_modes; simpl; eauto 10 | reflexivity]
          | right; eexists; split; reflexivity ].
Qed.

Lemma initCeed_device_NoCalls sizeof_data props mode ceed (h : Heap) :
  NoCalls is_report (initCeed_device sizeof_data props mode ceed h).
Proof.
  unfold initCeed_device, FemeCallocArray, CeedSetData, deref, FemeError,
    FemeErrorImpl, FemeErrorAbort, call.
  no_calls.
Qed.

Lemma calls_not_In P t c :
  calls P t = [] -> P c = true -> ~ In c (List.map call_of t).
Proof.
  unfold calls. intros Hnil Hc Hin.
  assert (Hf : In c (List.filter P (List.map call_of t))).
  { apply List.filter_In. auto. }
  rewrite Hnil in Hf. destruct Hf.
Qed.

(** [initCeed] with the validity test and the property text written
    through [occa_valid] and [occa_props]. *)
Lemma initCeed_unfold sizeof_data c_resource ceed (h : Heap) :
  initCeed sizeof_data c_resource ceed h =
  let r := chars c_resource in
  let props := occa_props r in
  if negb (occa_valid r) then
    do ierr <- CeedError ceed h 1
                 ("OCCA backend cannot use resource: " +:+ fmt_s c_resource);
    Ret (Normal ierr, h)
  else
    do parsed <- call (occa_properties props);
    match parsed with
    | Thrown what => Ret (Thrown what, h)
    | Normal _ =>
        do has_mode <- call (occa_properties_has props "mode");
        if negb has_mode then
          do defaultMode <-
            getDefaultDeviceMode
              (contains (chars "/cpu/occa") r || contains (chars "/*/occa") r)
              (contains (chars "/gpu/occa") r || contains (chars "/*/occa") r);
          if Nat.eqb (String.length defaultMode) 0 then
            do ierr <- CeedError ceed h 1 (no_mode_message c_resource);
            Ret (Normal ierr, h)
          else initCeed_device sizeof_data props (Some defaultMode) ceed h
        else initCeed_device sizeof_data props None ceed h
    end.
Proof.
  unfold initCeed, occa_valid, occa_props. cbv zeta.
  set (r := chars c_resource).
  set (valid := contains (chars "/cpu/occa") r || contains (chars "/gpu/occa") r
                || contains (chars "/*/occa") r).
  assert (Hlen : (length r <=? 9) = negb (9 <? length r)).
  { destruct (Nat.leb_spec (length r) 9), (Nat.ltb_spec 9 (length r)); simpl; auto; lia. }
  rewrite Hlen.
  destruct valid; simpl; [| reflexivity].
  destruct (9 <? length r) eqn:E9; simpl.
  - destruct (Ascii.eqb (nth 9 r NUL) "/") eqn:Es; simpl; [| reflexivity].
    destruct (10 <? length r) eqn:E10; [reflexivity |].
    assert (Hd : drop 10 r = []).
    { apply drop_ge. apply Nat.ltb_ge in E10. exact E10. }
    rewrite Hd. reflexivity.
  - assert (Hd : drop 10 r = []).
    { apply drop_ge. apply Nat.ltb_ge in E9. lia. }
    rewrite Hd. reflexivity.
Qed.

(** The calls of the end of [initCeed]: no probe, no question about the
    mode, at most one device, made of the given properties and mode. *)
Lemma initCeed_device_calls sizeof_data props mode ceed (h : Heap) :
  AllRuns (fun t o =>
             calls is_probe t = [] /\ has_mode_answers t = [] /\
             (calls is_device t = [] \/
              calls is_device t = [occa_device props mode]))
          (initCeed_device sizeof_data props mode ceed h).
Proof.
  unfold initCeed_device, FemeCallocArray, CeedSetData, deref, FemeError,
    FemeErrorImpl, FemeErrorAbort, call.
  branches; simpl; auto.
Qed.

(** C10, as the code has it: for a resource containing "/cpu/occa" the
    default mode is never empty.  When the GPU block is skipped it is
    "OpenMP" if that mode is enabled and "Serial" otherwise; when the
    resource also asks for a GPU it is the first enabled of CUDA, HIP, Metal,
    OpenCL, and "OpenMP" or "Serial" only if none is.  So [initCeed] never
    reports "No available OCCA mode" for such a resource.  [initCeed] itself
    ties the resource to the two flags: when the properties of such a
    resource name no mode, it asks [getDefaultDeviceMode] with the CPU flag
    set and with the GPU flag set exactly when the resource also contains
    "/gpu/occa" or "/*/occa"; the mode that call returns is not empty and is
    the mode of the one device that may then be made, from the resource's
    properties. *)
Theorem cpu_resource_always_has_default_mode :
  (forall gpuMode t o,
     Runs (getDefaultDeviceMode true gpuMode) t o ->
     exists mode, o = Returned mode /\ mode <> "" /\ In mode occa_modes /\
       (gpuMode = false ->
        exists e, t = [Ev (occa_modeIsEnabled "OpenMP") e] /\
                  mode = if e then "OpenMP" else "Serial") /\
       (gpuMode = true ->
        (exists skipped, In (skipped, mode) gpu_modes /\
           t = probes skipped ++ [Ev (occa_modeIsEnabled mode) true])
        \/
        (exists e, t = probes ["CUDA"; "HIP"; "Metal"; "OpenCL"]
                       ++ [Ev (occa_modeIsEnabled "OpenMP") e] /\
                   mode = if e then "OpenMP" else "Serial")))
  /\
  (forall sizeof_data (c_resource : string) ceed (h : Heap) t o,
     contains (chars "/cpu/occa") (chars c_resource) = true ->
     Runs (initCeed sizeof_data c_resource ceed h) t o ->
     forall fn ecode,
       ~ In (CallError fn ecode (no_mode_message c_resource)) (List.map call_of t))
  /\
  (forall sizeof_data (c_resource : string) ceed (h : Heap) t o,
     contains (chars "/cpu/occa") (chars c_resource) = true ->
     Runs (initCeed sizeof_data c_resource ceed h) t o ->
     has_mode_answers t = [false] ->
     let props := occa_props (chars c_resource) in
     let gpuMode := contains (chars "/gpu/occa") (chars c_resource)
                    || contains (chars "/*/occa") (chars c_resource) in
     exists parsed asked mode rest,
       t = Ev (occa_properties props) parsed
           :: Ev (occa_properties_has props "mode") false
           :: asked ++ rest /\
       Runs (getDefaultDeviceMode true gpuMode) asked (Returned mode) /\
       mode <> "" /\
       (gpuMode = false ->
        exists e, asked = [Ev (occa_modeIsEnabled "OpenMP") e] /\
                  mode = if e then "OpenMP" else "Serial") /\
       calls is_probe rest = [] /\
       calls is_report rest = [] /\
       (calls is_device rest = [] \/
        calls is_device rest = [occa_device props (Some mode)])).
Proof.
  split; [| split].
  - intros gpuMode t o H.
    destruct (Runs_getDefaultDeviceMode_cpu _ _ _ H)
      as (mode & -> & Hin & _ & Hcpu & Hgpu).
    exists mode. split; [reflexivity |]. split; [| auto].
    intros ->. unfold occa_modes in Hin. simpl in Hin.
    repeat (destruct Hin as [Hin | Hin]; [discriminate Hin |]). exact Hin.
  - intros sizeof_data c_resource ceed h t o Hcpu H fn ecode.
    unfold initCeed in H. rewrite Hcpu in H. simpl orb in H.
    match type of H with
    | context [negb ?b] => destruct b
    end; simpl negb in H; cbv iota in H.
    2: { apply Runs_bind in H.
         destruct H as [(ta & a & tb & H1 & H2 & ->) | [(m & H1 & _) | (H1 & _)]];
           apply Runs_CeedError in H1;
           destruct H1 as [(-> & Ho) | (ctx & fn' & ret & _ & _ & -> & Ho)];
           try discriminate Ho; simpl; try tauto.
         simpl in H2. destruct H2 as [-> _]. simpl.
         intros [Heq | []]. injection Heq as _ _ Hmsg. discriminate Hmsg. }
    simpl in H. destruct H as (parsed & t1 & -> & H).
    destruct parsed as [[] | what]; simpl in H.
    2: { destruct H as [-> _]. simpl. intros [Heq | []]. discriminate Heq. }
    destruct H as (has_mode & t2 & -> & H).
    apply calls_not_In with (P := is_report); [| reflexivity].
    unfold calls. simpl. fold (calls is_report t2).
    destruct has_mode; simpl negb in H; cbv iota in H.
    + eapply NoCalls_Runs; [apply initCeed_device_NoCalls | exact H].
    + apply Runs_bind in H.
      destruct H as [(ta & mode & tb & H1 & H2 & ->) | [(m & H1 & _) | (H1 & _)]];
        apply Runs_getDefaultDeviceMode_cpu in H1;
        destruct H1 as (mode' & Ho & Hin & Hrep & _ & _); try discriminate Ho.
      injection Ho as ->. rewrite calls_app, Hrep. simpl.
      assert (Hlen : Nat.eqb (String.length mode') 0 = false).
      { unfold occa_modes in Hin. simpl in Hin.
        repeat (destruct Hin as [<- | Hin]; [reflexivity |]). destruct Hin. }
      rewrite Hlen in H2.
      eapply NoCalls_Runs; [apply initCeed_device_NoCalls | exact H2].
  - intros sizeof_data c_resource ceed h t o Hcpu H Hhas props gpuMode.
    rewrite initCeed_unfold in H. cbv zeta in H. fold props in H.
    rewrite Hcpu in H. simpl orb in H. fold gpuMode in H.
    destruct (occa_valid (chars c_resource)); simpl negb in H; cbv iota in H.
    2: { exfalso. apply Runs_bind in H.
         destruct H as [(ta & a & tb & H1 & H2 & ->) | [(m & H1 & _) | (H1 & _)]];
           apply Runs_CeedError in H1;
           destruct H1 as [(-> & Ho) | (ctx & fn' & ret & _ & _ & -> & Ho)];
           try discriminate Ho; try discriminate Hhas.
         simpl in H2. destruct H2 as [-> _]. discriminate Hhas. }
    simpl in H. destruct H as (parsed & t1 & -> & H).
    destruct parsed as [[] | what]; simpl in H.
    2: { destruct H as [-> _]. discriminate Hhas. }
    destruct H as (has_mode & t2 & -> & H).
    destruct has_mode; simpl negb in H; cbv iota in H;
      [simpl in Hhas; discriminate Hhas |].
    apply Runs_bind in H.
    destruct H as [(ta & mode & tb & H1 & H2 & ->) | [(m & H1 & _) | (H1 & _)]];
      pose proof (Runs_getDefaultDeviceMode_cpu _ _ _ H1)
        as (mode' & Ho & Hin & Hrep & Hnogpu & _); try discriminate Ho.
    injection Ho as <-.
    assert (Hne : mode <> "").
    { intros ->. unfold occa_modes in Hin. simpl in Hin.
      repeat (destruct Hin as [Hin | Hin]; [discriminate Hin |]). exact Hin. }
    assert (Hlen : Nat.eqb (String.length mode) 0 = false).
    { destruct mode; [contradiction | reflexivity]. }
    rewrite Hlen in H2.
    pose proof (AllRuns_Runs _ _ _ _
                  (initCeed_device_calls sizeof_data props (Some mode) ceed h) H2)
      as (Hp & _ & Hd).
    exists (Normal tt), ta, mode, tb.
    split; [reflexivity |]. split; [exact H1 |]. split; [exact Hne |].
    split; [exact Hnogpu |]. split; [exact Hp |].
    split; [| exact Hd].
    eapply NoCalls_Runs; [apply initCeed_device_NoCalls | exact H2].
Qed.

(** C10, as stated, fails for a resource that contains "/cpu/occa" and also
    "/gpu/occa": with CUDA enabled (and OpenMP not) the default mode is
    "CUDA", neither "OpenMP" nor "Serial". *)
Lemma cpu_resource_may_default_to_cuda :
  contains (chars "/cpu/occa") (chars "/cpu/occa/{path: '/gpu/occa'}") = true /\
  List.map call_of
    (fst (run env_occa_cuda
            (initCeed 8 "/cpu/occa/{path: '/gpu/occa'}" 1
               {[ 1 := fresh_context "FemeErrorAbort" ]})))
  = [ occa_properties "{path: '/gpu/occa'}";
      occa_properties_has "{path: '/gpu/occa'}" "mode";
      occa_modeIsEnabled "CUDA";
      calloc 1 8;
      occa_device "{path: '/gpu/occa'}" (Some "CUDA") ] /\
  snd (run env_occa_cuda (getDefaultDeviceMode true true)) = Returned "CUDA".
Proof.
  split; [vm_compute; reflexivity |].
  split; vm_compute; reflexivity.
Qed.

(** ** The device ordinal *)

Lemma Runs_CeedChk_gpu_ok {S} v ceed (h : Heap) result (s s' : S) k t :
  Runs (CeedChk_gpu v ceed h result s k) t (Returned (0%Z, s')) ->
  calls is_report t = [] ->
  result = 0%Z /\ Runs k t (Returned (0%Z, s')).
Proof.
  intros H Hrep. apply Runs_CeedChk_gpu in H.
  destruct H as [H | (_ & msg & t' & -> & [(_ & Ho) | (ctx & fn & ret & _ & _ & -> & _)])];
    [exact H | discriminate Ho | discriminate Hrep].
Qed.

(** An initialization of the device session that succeeds stores the
    ordinal read after [nrc] characters. *)
Lemma CeedGpuInit_stores_ordinal v ceed resource nrc (h h' : Heap) t :
  Runs (CeedGpuInit v ceed resource nrc h) t (Returned (0%Z, h')) ->
  calls is_report t = [] ->
  exists s, session v (session_of h' ceed) = Some s /\
            deviceId s = device_ordinal resource nrc.
Proof.
  intros H Hrep. unfold CeedGpuInit in H. simpl in H.
  destruct H as ([ierr current] & t1 & -> & H).
  apply Runs_CeedChk_gpu_ok in H; [| exact Hrep]. destruct H as [-> H].
  apply Runs_bind in H.
  destruct H as [(ta & ierr & tb & _ & H & ->) | [(m & _ & Hd) | (_ & Hd)]];
    [| discriminate Hd ..].
  unfold calls in Hrep. simpl in Hrep. fold (calls is_report (ta ++ tb)) in Hrep.
  apply no_report_app in Hrep. destruct Hrep as [_ Hrep].
  apply Runs_CeedChk_gpu_ok in H; [| exact Hrep]. destruct H as [-> H].
  simpl in H. destruct H as ([ierr prop] & t2 & -> & H).
  apply Runs_CeedChk_gpu_ok in H; [| exact Hrep]. destruct H as [-> H].
  unfold CeedGetData, CeedSetData, deref in H.
  destruct (h !! ceed) as [ctx |]; simpl in H; [| destruct H; discriminate].
  destruct (session v (data ctx)) as [s |]; simpl in H; [| destruct H; discriminate].
  destruct H as [_ Ho]. injection Ho as ->.
  unfold session_of. rewrite lookup_insert_eq. simpl.
  eexists. split; [destruct v; reflexivity | reflexivity].
Qed.

(** C2 on the code: with the three registrations of the example,
    "/gpu/cuda/ref/2" selects slot 0, the CUDA backend, by a 13-character
    match; its initializer runs to completion on the all-succeeding machine
    and leaves device ordinal 0 in the session, because it parses after 9
    characters, where "ref/2" begins, not after the 13 of the prefix.  With
    no suffix the ordinal is 0 as well. *)
Theorem cuda_ordinal_suffix_is_not_parsed :
  exists (st : Registry) t (h' : Heap),
    register_all 64 example_registrations [] = Ret st /\
    FemeInit_scan st 0 (chars "/gpu/cuda/ref/2") 0 None = Some (13, Some 0) /\
    selected_init st (Some 0) = Some "CeedInit_Cuda" /\
    run env_ok (link (link_backends 24) (FemeInit 64 st "/gpu/cuda/ref/2" None ∅))
      = (t, Returned (0%Z, (Some 1, h'))) /\
    session_of h' 1 =
      Some (CudaData {| deviceId := 0; optblocksize := 1024; blasHandle := None |}) /\
    device_ordinal "/gpu/cuda/ref/2" 9 = 0%Z /\
    device_ordinal "/gpu/cuda/ref/2" 13 = 2%Z /\
    device_ordinal "/gpu/cuda/ref" 9 = 0%Z.
Proof.
  eexists _, _, _.
  do 7 (split; [vm_compute; reflexivity |]).
  vm_compute. reflexivity.
Qed.

(** * Instances *)

Lemma run_returns {A} (env : Env) (p : Prog A) t o :
  run env p = (t, o) -> Runs p t o.
Proof. intros H. pose proof (run_Runs env p) as R. now rewrite H in R. Qed.

Lemma example_table_terminated : Forall terminated example_table.
Proof.
  unfold example_table.
  constructor; [| constructor; [| constructor; [| constructor]]];
    unfold terminated; simpl prefix; apply strncpy_terminated; vm_compute; lia.
Qed.

Lemma FemeInit_selects_longest_match_witness :
  FemeInit_scan example_table 0 (chars "/gpu/hip/ref/1") 0 None = Some (12, Some 1)
  /\ FemeInit 64 example_table "unknown/thing" None ∅ = Abort "No suitable backend".
Proof.
  destruct (FemeInit_selects_longest_match 64 example_table "/gpu/hip/ref/1" None ∅
              example_table_terminated) as (_ & _ & Hsel).
  destruct (FemeInit_selects_longest_match 64 example_table "unknown/thing" None ∅
              example_table_terminated) as (Hnone & _).
  split.
  - refine (proj1 (Hsel 1 {| prefix := strncpy "/gpu/hip/ref" 64;
                             init := "CeedInit_Hip";
                             priority := Some 20%Z |} _)).
    split; [reflexivity |]. split; [vm_compute; lia |]. split.
    + intros [| [| [| j]]] b' Hj; simpl in Hj; try discriminate Hj;
        injection Hj as <-; vm_compute; lia.
    + intros [| j] b' Hlt Hj; [| lia]. simpl in Hj. injection Hj as <-.
      vm_compute. lia.
  - apply Hnone. intros b Hb. simpl in Hb.
    destruct Hb as [<- | [<- | [<- | []]]]; vm_compute; reflexivity.
Defined.

Lemma FemeRegister_capacity_witness :
  FemeRegister 64 "/gpu/cuda/ref" "CeedInit_Cuda" [] =
    Ret (0%Z, [ {| prefix := strncpy "/gpu/cuda/ref" 64; init := "CeedInit_Cuda";
                   priority := None |} ])
  /\ FemeRegister 64 "/gpu/cuda/ref" "CeedInit_Cuda" full_table
     = Abort "Too many backends".
Proof.
  split.
  - apply (proj1 (FemeRegister_capacity 64 "/gpu/cuda/ref" "CeedInit_Cuda" [])).
    simpl. lia.
  - apply (proj2 (FemeRegister_capacity 64 "/gpu/cuda/ref" "CeedInit_Cuda" full_table)).
    vm_compute. lia.
Defined.

Lemma FemeInit_ignores_priority_witness :
  exists st1 st2 : Registry,
    register_all 64 example_registrations [] = Ret st1 /\
    register_all 64 [ ("/gpu/cuda/ref", "CeedInit_Cuda", 1%Z);
                      ("/gpu/hip/ref", "CeedInit_Hip", 90%Z);
                      ("/cpu/occa", "ceed::occa::registerBackend", 5%Z) ] []
      = Ret st2 /\
    FemeInit 64 st1 "/gpu/hip/ref" None ∅ = FemeInit 64 st2 "/gpu/hip/ref" None ∅.
Proof.
  eexists _, _. split; [vm_compute; reflexivity |]. split; [vm_compute; reflexivity |].
  refine (proj2 (FemeInit_ignores_priority 64 64 example_registrations
                   [ ("/gpu/cuda/ref", "CeedInit_Cuda", 1%Z);
                     ("/gpu/hip/ref", "CeedInit_Hip", 90%Z);
                     ("/cpu/occa", "ceed::occa::registerBackend", 5%Z) ]
                   _ _ _ _ _ "/gpu/hip/ref" None ∅)).
  - repeat constructor.
  - vm_compute. reflexivity.
  - vm_compute. reflexivity.
Defined.

Lemma FemeDestroy_null_safe_idempotent_witness :
  exists t,
    run env_ok (FemeDestroy (Some 1) {[ 1 := destroyable_context ]})
      = (t, Returned (0%Z, (None, ∅))) /\
    FemeDestroy None ∅ = Ret (0%Z, (None, ∅ : Heap)).
Proof.
  eexists. split; [vm_compute; reflexivity |].
  refine (proj2 (proj2 (proj2 FemeDestroy_null_safe_idempotent 1
                          {[ 1 := destroyable_context ]} _ None ∅ _))).
  eapply (run_returns env_ok). vm_compute. reflexivity.
Defined.

Lemma launch_grid_is_one_dimensional_witness :
  calls is_launch
    (fst (run env_ok (CeedRunKernelDimShared Hip 1 {[ 1 := cuda_context "FemeErrorAbort" ]}
                        7 120 8 8 4 256 [11; 12]%Z)))
  = [ gpuLaunchKernel Hip 7 120 1 1 8 8 4 256 None [11; 12]%Z None ].
Proof.
  refine (proj2 (proj2 (launch_grid_is_one_dimensional Hip 1
                          {[ 1 := cuda_context "FemeErrorAbort" ]}
                          7 120 8 8 4 256 [11; 12]%Z)) _ _ _).
  apply run_Runs.
Defined.

Lemma compile_passes_n_plus_4_options_witness :
  calls is_compile
    (fst (run env_ok (CeedCompile Cuda 1 {[ 1 := cuda_context "FemeErrorAbort" ]}
                        "kernel" None [ ("Q", 5%Z); ("P", 4%Z) ])))
  = [ rtcCompileProgram Cuda 5 6
        [ "-DQ=5"; "-DP=4"; "-DCeedScalar=double"; "-DCeedInt=int";
          "-default-device"; "-arch=compute_70" ] ] /\
  calls is_compile
    (fst (run env_newer (CeedCompile Cuda 1 {[ 1 := cuda_context "FemeErrorAbort" ]}
                           "kernel" None [ ("Q", 5%Z); ("P", 4%Z) ])))
  = [ rtcCompileProgram Cuda 5 6
        [ "-DQ=5"; "-DP=4"; "-DCeedScalar=double"; "-DCeedInt=int";
          "-default-device"; "-arch=compute_86" ] ] /\
  calls is_compile
    (fst (run env_newer (CeedCompile Hip 1 {[ 1 := hip_context "FemeErrorAbort" ]}
                           "kernel" None [ ("Q", 5%Z) ])))
  = [ rtcCompileProgram Hip 5 5
        [ "-DQ=5"; "-DCeedScalar=double"; "-DCeedInt=int";
          "-default-device"; "--gpu-architecture=gfx1030" ] ].
Proof.
  split; [| split].
  - refine (proj2 (proj2 (compile_passes_n_plus_4_options Cuda 1
                            {[ 1 := cuda_context "FemeErrorAbort" ]}
                            "kernel" None [ ("Q", 5%Z); ("P", 4%Z) ]))
              env_ok (cuda_context "FemeErrorAbort") zero_session 5%Z a_device _ _ _ _);
      vm_compute; reflexivity.
  - refine (proj2 (proj2 (compile_passes_n_plus_4_options Cuda 1
                            {[ 1 := cuda_context "FemeErrorAbort" ]}
                            "kernel" None [ ("Q", 5%Z); ("P", 4%Z) ]))
              env_newer (cuda_context "FemeErrorAbort") zero_session 5%Z
              a_newer_device _ _ _ _);
      vm_compute; reflexivity.
  - refine (proj2 (proj2 (compile_passes_n_plus_4_options Hip 1
                            {[ 1 := hip_context "FemeErrorAbort" ]}
                            "kernel" None [ ("Q", 5%Z) ]))
              env_newer (hip_context "FemeErrorAbort") zero_session 5%Z
              a_newer_device _ _ _ _);
      vm_compute; reflexivity.
Defined.


Lemma initializers_install_operations_witness :
  exists t h',
    run env_ok (CeedInit_Cuda 24 "/gpu/cuda/ref" 1 {[ 1 := fresh_context "FemeErrorAbort" ]})
      = (t, Returned (0%Z, h')) /\
    forall op, In op required_ops -> installed h' 1 op.
Proof.
  eexists _, _. split; [vm_compute; reflexivity |].
  refine (proj1 (initializers_install_operations 24 "/gpu/cuda/ref" 1
                   {[ 1 := fresh_context "FemeErrorAbort" ]} _
                   (fst (run env_ok
                           (CeedInit_Cuda 24 "/gpu/cuda/ref" 1
                              {[ 1 := fresh_context "FemeErrorAbort" ]}))) _) _).
  - vm_compute. reflexivity.
  - eapply (run_returns env_ok). vm_compute. reflexivity.
Defined.

Lemma cpu_resource_always_has_default_mode_witness :
  (exists mode, snd (run env_ok (getDefaultDeviceMode true false)) = Returned mode
                /\ mode <> "")
  /\ ~ In (CallError "FemeErrorAbort" 1 (no_mode_message "/cpu/occa"))
          (List.map call_of
             (fst (run env_ok (initCeed 8 "/cpu/occa" 1
                                 {[ 1 := fresh_context "FemeErrorAbort" ]}))))
  /\ exists parsed asked mode rest,
       fst (run env_ok (initCeed 8 "/cpu/occa" 1
                          {[ 1 := fresh_context "FemeErrorAbort" ]}))
       = Ev (occa_properties "") parsed
         :: Ev (occa_properties_has "" "mode") false :: asked ++ rest /\
       Runs (getDefaultDeviceMode true false) asked (Returned mode) /\
       mode <> "" /\
       (calls is_device rest = [] \/
        calls is_device rest = [occa_device "" (Some mode)]).
Proof.
  split; [| split].
  - destruct (proj1 cpu_resource_always_has_default_mode false _ _
                (run_Runs env_ok (getDefaultDeviceMode true false)))
      as (mode & Hmode & Hne & _).
    exists mode. split; [exact Hmode | exact Hne].
  - refine (proj1 (proj2 cpu_resource_always_has_default_mode) 8%Z "/cpu/occa" 1
              {[ 1 := fresh_context "FemeErrorAbort" ]} _ _ _ (run_Runs env_ok _)
              "FemeErrorAbort" 1%Z).
    vm_compute. reflexivity.
  - destruct (proj2 (proj2 cpu_resource_always_has_default_mode) 8%Z "/cpu/occa" 1
                {[ 1 := fresh_context "FemeErrorAbort" ]}
                (fst (run env_ok (initCeed 8 "/cpu/occa" 1
                                    {[ 1 := fresh_context "FemeErrorAbort" ]})))
                (snd (run env_ok (initCeed 8 "/cpu/occa" 1
                                    {[ 1 := fresh_context "FemeErrorAbort" ]}))))
      as (parsed & asked & mode & rest & Ht & Hrun & Hne & _ & _ & _ & Hdev).
    + vm_compute. reflexivity.
    + apply run_Runs.
    + vm_compute. reflexivity.
    + exists parsed, asked, mode, rest.
      split; [exact Ht |]. split; [exact Hrun |]. split; [exact Hne | exact Hdev].
Defined.


(** * Further properties of the sources *)

(** ** feme.c: the table *)

Lemma register_seq_app max regs1 regs2 (st : Registry) :
  register_seq max (regs1 ++ regs2) st =
  do st' <- register_seq max regs1 st; register_seq max regs2 st'.
Proof.
  revert st. induction regs1 as [| [[prio p] f] regs1 IH]; intros st; simpl.
  - reflexivity.
  - unfold register. destruct (Nat.leb slots (length st)); simpl; [reflexivity |].
    apply IH.
Qed.

Lemma register_seq_fits max regs :
  forall st : Registry,
    length st + length regs <= 32 ->
    register_seq max regs st = Ret (st ++ List.map (slot_of max) regs).
Proof.
  induction regs as [| [[prio p] f] regs IH]; intros st Hlen; simpl in *.
  - now rewrite app_nil_r.
  - rewrite register_appends by (unfold slots; lia). simpl.
    rewrite IH by (rewrite length_app; simpl; lia).
    now rewrite <- app_assoc.
Qed.

Lemma register_seq_overflows max regs :
  forall st : Registry,
    32 < length st + length regs -> regs <> [] ->
    register_seq max regs st = Abort "Too many backends".
Proof.
  induction regs as [| [[prio p] f] regs IH]; intros st Hlen Hne; simpl in *.
  - contradiction.
  - destruct (Nat.le_gt_cases slots (length st)) as [Hfull | Hroom].
    + now rewrite register_full.
    + rewrite register_appends by exact Hroom. simpl.
      apply IH.
      * rewrite length_app. simpl. lia.
      * intros ->. simpl in Hlen. unfold slots in Hroom. lia.
Qed.

(** X1: The table is append-only and never holds more than 32 slots: a
    sequence of registrations that fits leaves the old slots in place
    followed by the new ones in call order; one that does not fit aborts the
    process. *)
Theorem register_seq_appends_in_order :
  forall max (regs : list (option Z * string * FnRef)) (st : Registry),
    (length st + length regs <= 32 ->
       register_seq max regs st = Ret (st ++ List.map (slot_of max) regs))
    /\
    (32 < length st + length regs -> regs <> [] ->
       register_seq max regs st = Abort "Too many backends")
    /\
    (forall st', length st <= 32 -> register_seq max regs st = Ret st' ->
       length st' <= 32 /\ take (length st) st' = st).
Proof.
  intros max regs st.
  split; [apply register_seq_fits | split; [apply register_seq_overflows |]].
  intros st' Hst Hret.
  destruct (Nat.le_gt_cases (length st + length regs) 32) as [Hle | Hgt].
  - rewrite (register_seq_fits max regs st Hle) in Hret. injection Hret as <-.
    rewrite length_app, length_map. split; [lia |].
    now rewrite take_app_length.
  - destruct regs as [| r regs]; [simpl in Hgt; lia |].
    rewrite (register_seq_overflows max _ st Hgt) in Hret; discriminate.
Qed.

Lemma cstr_no_NUL l : ~ In NUL (cstr l).
Proof.
  induction l as [| c l IH]; simpl; [tauto |].
  destruct (is_NUL c) eqn:Hc; simpl; [tauto |].
  intros [Heq | Hin]; [| tauto].
  rewrite Heq in Hc. unfold is_NUL in Hc. now rewrite Ascii.eqb_refl in Hc.
Qed.

Lemma chars_no_NUL s : ~ In NUL (chars s).
Proof. apply cstr_no_NUL. Qed.

Lemma strncpy_length p n : length (strncpy p n) = n.
Proof.
  unfold strncpy. rewrite length_take, length_app, length_replicate. lia.
Qed.

Lemma strncpy_unterminated p n :
  n <= strlen p -> strncpy p n = take n (chars p) /\ ~ In NUL (strncpy p n).
Proof.
  unfold strlen, strncpy. intros Hlen.
  rewrite take_app_le by exact Hlen. split; [reflexivity |].
  intros Hin. apply (chars_no_NUL p).
  apply list_elem_of_In. apply list_elem_of_In in Hin.
  exact (subseteq_take _ _ _ Hin).
Qed.

(** X2: What a registration stores: the array always has
    [FEME_MAX_RESOURCE_LEN] characters; a shorter prefix is stored whole and
    terminated, so the scan reads back exactly its characters; a prefix that
    long or longer is cut to the array and left without a terminator. *)
Theorem FemeRegister_stores_prefix :
  forall max (p : string) (f : FnRef) (st : Registry),
    length st < 32 ->
    exists b,
      FemeRegister max p f st = Ret (0%Z, st ++ [b]) /\
      init b = f /\ length (prefix b) = max /\
      (strlen p < max -> terminated b /\ held b = chars p) /\
      (max <= strlen p -> ~ terminated b /\ prefix b = take max (chars p)).
Proof.
  intros max p f st Hlen. eexists. split.
  - unfold FemeRegister. apply register_appends. exact Hlen.
  - simpl. split; [reflexivity |]. split; [apply strncpy_length |]. split.
    + intros H. apply strncpy_terminated. exact H.
    + intros H. destruct (strncpy_unterminated p max H) as [Heq Hno].
      split; [exact Hno | exact Heq].
Qed.


(** ** feme.c: the scan *)

Lemma is_NUL_true c : is_NUL c = true -> c = NUL.
Proof. unfold is_NUL. apply Ascii.eqb_eq. Qed.

Lemma is_NUL_false c : is_NUL c = false -> c <> NUL.
Proof. unfold is_NUL. intros H ->. now rewrite Ascii.eqb_refl in H. Qed.

Lemma match_prefix_None buf resource :
  match_prefix buf resource = None <->
  ~ In NUL buf /\ is_prefix buf resource = true.
Proof.
  revert resource. induction buf as [| c buf IH]; intros resource; simpl.
  - split; [intros _; split; [tauto | reflexivity] | reflexivity].
  - destruct (is_NUL c) eqn:Hc.
    + apply is_NUL_true in Hc. split; [discriminate | intros [Hno _]].
      exfalso. apply Hno. now left.
    + apply is_NUL_false in Hc.
      destruct resource as [| r resource]; [split; [discriminate | intros [_ H]; discriminate] |].
      destruct (Ascii.eqb c r); simpl.
      * specialize (IH resource).
        destruct (match_prefix buf resource) as [n |]; simpl.
        -- split; [discriminate |]. intros [Hno Hp].
           assert (Some n = None) as Hx; [| discriminate Hx].
           apply IH. split; [| exact Hp]. intros Hin. apply Hno. now right.
        -- split; [| reflexivity]. intros _.
           destruct (proj1 IH eq_refl) as [Hno Hp]. split; [| exact Hp].
           intros [Heq | Hin]; [now apply Hc | now apply Hno].
      * split; [discriminate | intros [_ H]; discriminate].
Qed.

Lemma match_prefix_bound buf resource n :
  match_prefix buf resource = Some n -> n <= length resource /\ n < length buf.
Proof.
  revert resource n. induction buf as [| c buf IH]; intros resource n; simpl.
  - discriminate.
  - destruct (is_NUL c); [intros [= <-]; lia |].
    destruct resource as [| r resource]; [intros [= <-]; simpl; lia |].
    destruct (Ascii.eqb c r); [| intros [= <-]; simpl; lia].
    destruct (match_prefix buf resource) as [k |] eqn:Hk; simpl; [| discriminate].
    intros [= <-]. destruct (IH _ _ Hk). simpl. lia.
Qed.

Lemma FemeInit_scan_None resource bs :
  forall i matchlen matchidx,
    FemeInit_scan bs i resource matchlen matchidx = None <->
    exists b, In b bs /\ match_prefix (prefix b) resource = None.
Proof.
  induction bs as [| b bs IH]; intros i matchlen matchidx; simpl.
  - split; [discriminate | intros (b & [] & _)].
  - destruct (match_prefix (prefix b) resource) as [n |] eqn:Hb.
    + assert (Hrest : forall m idx,
                FemeInit_scan bs (S i) resource m idx = None <->
                exists b0, (b = b0 \/ In b0 bs) /\ match_prefix (prefix b0) resource = None).
      { intros m idx. rewrite IH. split.
        - intros (b0 & Hin & H0). exists b0. auto.
        - intros (b0 & [<- | Hin] & H0); [congruence | eauto]. }
      destruct (Nat.ltb matchlen n); apply Hrest.
    + split; [| reflexivity]. intros _. exists b. auto.
Qed.

(** X3: [FemeInit] runs into undefined behaviour at the scan exactly when
    some slot holds an unterminated array and the resource begins with all
    of its characters: the scan then reads past the array. *)
Theorem FemeInit_undefined_iff_array_overrun :
  forall sizeof_Feme (st : Registry) (resource : string) feme (h : Heap),
    FemeInit sizeof_Feme st resource feme h = Undef <->
    exists b, In b st /\ ~ terminated b /\
              is_prefix (prefix b) (chars resource) = true.
Proof.
  intros sizeof_Feme st resource feme h.
  assert (Hscan : FemeInit_scan st 0 (chars resource) 0 None = None <->
                  exists b, In b st /\ ~ terminated b /\
                            is_prefix (prefix b) (chars resource) = true).
  { rewrite FemeInit_scan_None. split; intros (b & Hin & H); exists b; (split; [exact Hin |]).
    - now apply match_prefix_None.
    - now apply match_prefix_None. }
  rewrite <- Hscan. unfold FemeInit.
  destruct (FemeInit_scan st 0 (chars resource) 0 None) as [[matchlen matchidx] |].
  - split; [| discriminate].
    destruct (Nat.eqb matchlen 0); simpl; discriminate.
  - split; reflexivity.
Qed.

Lemma FemeInit_scan_sound resource bs :
  forall i matchlen matchidx m idx,
    FemeInit_scan bs i resource matchlen matchidx = Some (m, idx) ->
    (m = matchlen /\ idx = matchidx) \/
    (matchlen < m /\ exists k b, bs !! k = Some b /\ idx = Some (i + k) /\
                                 match_prefix (prefix b) resource = Some m).
Proof.
  induction bs as [| b bs IH]; intros i matchlen matchidx m idx; simpl.
  - intros [= <- <-]. now left.
  - destruct (match_prefix (prefix b) resource) as [n |] eqn:Hb; [| discriminate].
    destruct (Nat.ltb_spec matchlen n) as [Hlt | Hge]; intros H; apply IH in H.
    + right. destruct H as [(-> & ->) | (Hlt' & k & b' & Hk & -> & Hm)].
      * split; [exact Hlt |]. exists 0, b. repeat split; auto; f_equal; lia.
      * split; [lia |]. exists (S k), b'. repeat split; auto; f_equal; lia.
    + destruct H as [(-> & ->) | (Hlt' & k & b' & Hk & -> & Hm)]; [now left |].
      right. split; [exact Hlt' |]. exists (S k), b'. repeat split; auto; f_equal; lia.
Qed.

Lemma FemeInit_scan_safe :
  forall (st : Registry) (resource : string) m idx,
    FemeInit_scan st 0 (chars resource) 0 None = Some (m, idx) ->
    m <= strlen resource /\
    ((m = 0 /\ idx = None) \/
     (0 < m /\ exists i b, idx = Some i /\ st !! i = Some b /\
        selected_init st idx = Some (init b) /\
        match_prefix (prefix b) (chars resource) = Some m)).
Proof.
  intros st resource m idx H. apply FemeInit_scan_sound in H.
  destruct H as [(-> & ->) | (Hlt & k & b & Hk & -> & Hm)].
  - split; [lia | now left].
  - split; [apply (match_prefix_bound _ _ _ Hm) |]. right.
    split; [exact Hlt |]. exists k, b. simpl. rewrite Hk. auto.
Qed.

(** X4: The index the scan of [FemeInit] leaves is safe to use: a positive
    match length comes with an initialised index of a used slot whose array
    was matched over exactly that length, and the length never exceeds the
    resource's; a zero length comes with the index still uninitialised. *)
Theorem FemeInit_scan_index_is_safe :
  forall (st : Registry) (resource : string) m idx,
    FemeInit_scan st 0 (chars resource) 0 None = Some (m, idx) ->
    m <= strlen resource /\
    ((m = 0 /\ idx = None) \/
     (0 < m /\ exists i b, idx = Some i /\ st !! i = Some b /\
        selected_init st idx = Some (init b) /\
        match_prefix (prefix b) (chars resource) = Some m)).
Proof.
  intros st resource m idx H. apply FemeInit_scan_sound in H.
  destruct H as [(-> & ->) | (Hlt & k & b & Hk & -> & Hm)].
  - split; [lia | now left].
  - split; [apply (match_prefix_bound _ _ _ Hm) |]. right.
    split; [exact Hlt |]. exists k, b. simpl. rewrite Hk. auto.
Qed.

Lemma FemeInit_scan_app resource bs1 bs2 :
  forall i matchlen matchidx,
    FemeInit_scan (bs1 ++ bs2) i resource matchlen matchidx =
    match FemeInit_scan bs1 i resource matchlen matchidx with
    | Some (m, idx) => FemeInit_scan bs2 (i + length bs1) resource m idx
    | None => None
    end.
Proof.
  induction bs1 as [| b bs1 IH]; intros i matchlen matchidx; simpl.
  - now rewrite Nat.add_0_r.
  - destruct (match_prefix (prefix b) resource) as [n |]; [| reflexivity].
    replace (i + S (length bs1)) with (S i + length bs1) by lia.
    destruct (Nat.ltb matchlen n); apply IH.
Qed.

Lemma FemeInit_scan_snoc :
  forall (st : Registry) (e : backend) (resource : string) m idx n,
    FemeInit_scan st 0 (chars resource) 0 None = Some (m, idx) ->
    match_prefix (prefix e) (chars resource) = Some n ->
    FemeInit_scan (st ++ [e]) 0 (chars resource) 0 None =
    Some (if Nat.ltb m n then (n, Some (length st)) else (m, idx)).
Proof.
  intros st e resource m idx n Hst He.
  rewrite FemeInit_scan_app, Hst. simpl. rewrite He.
  destruct (Nat.ltb m n); reflexivity.
Qed.

(** X5: Registering one more backend changes how a resource resolves only
    when the new prefix matches strictly longer than the best match so far;
    on an equal or shorter match the earlier selection stands. *)
Theorem registration_keeps_earlier_selection :
  forall (st : Registry) (e : backend) (resource : string) m idx n,
    FemeInit_scan st 0 (chars resource) 0 None = Some (m, idx) ->
    match_prefix (prefix e) (chars resource) = Some n ->
    FemeInit_scan (st ++ [e]) 0 (chars resource) 0 None =
    Some (if Nat.ltb m n then (n, Some (length st)) else (m, idx)).
Proof.
  intros st e resource m idx n Hst He.
  rewrite FemeInit_scan_app, Hst. simpl. rewrite He.
  destruct (Nat.ltb m n); reflexivity.
Qed.

Lemma common_prefix_refl l : common_prefix l l = length l.
Proof.
  induction l as [| c l IH]; simpl; [reflexivity |].
  now rewrite Ascii.eqb_refl, IH.
Qed.

(** X6: Register, then resolve the prefix itself: a non-empty prefix that
    fits its array always finds a slot matching all of its characters, so
    the resolution does not fail; the slot is the new one unless an earlier
    prefix already begins with the same characters. *)
Theorem registered_prefix_resolves :
  forall max (p : string) (f : FnRef) (st : Registry),
    Forall terminated st -> length st < 32 ->
    0 < strlen p -> strlen p < max ->
    exists st' i b,
      FemeRegister max p f st = Ret (0%Z, st') /\
      FemeInit_scan st' 0 (chars p) 0 None = Some (strlen p, Some i) /\
      st' !! i = Some b /\ match_length p b = strlen p /\
      ((forall b', In b' st -> match_length p b' < strlen p) ->
         i = length st /\ init b = f).
Proof.
  intros max p f st Hst Hroom Hpos Hfit.
  set (e := {| prefix := strncpy p max; init := f; priority := None |}).
  assert (Hreg : FemeRegister max p f st = Ret (0%Z, st ++ [e]))
    by (unfold FemeRegister; apply register_appends; exact Hroom).
  assert (Hinit : init e = f) by reflexivity.
  destruct (strncpy_terminated p max Hfit) as [Hterm Hheld].
  change (terminated e) in Hterm. change (held e = chars p) in Hheld.
  assert (He : match_prefix (prefix e) (chars p) = Some (strlen p)).
  { rewrite (match_prefix_terminated _ _ Hterm). fold (held e).
    rewrite Hheld, common_prefix_refl. reflexivity. }
  destruct (FemeInit_scan_spec p st Hst 0 0 None) as (m & idx & Hscan & _).
  pose proof (FemeInit_scan_snoc st e p m idx _ Hscan He) as Hnew.
  destruct (FemeInit_scan_safe st p m idx Hscan) as [Hle Hcases].
  exists (st ++ [e]).
  destruct (Nat.ltb_spec m (strlen p)) as [Hlt | Hge].
  - exists (length st), e. split; [exact Hreg |]. split; [exact Hnew |].
    split; [apply list_lookup_middle; reflexivity |].
    split; [unfold match_length; rewrite Hheld; apply common_prefix_refl |].
    auto.
  - assert (m = strlen p) as -> by lia.
    destruct Hcases as [[H0 _] | (_ & i & b & -> & Hi & _ & Hm)]; [lia |].
    assert (Hb : terminated b).
    { apply (proj1 (List.Forall_forall _ _) Hst). apply list_elem_of_In.
      eapply list_elem_of_lookup_2, Hi. }
    rewrite (match_prefix_terminated _ _ Hb) in Hm. injection Hm as Hm.
    exists i, b. split; [exact Hreg |]. split; [exact Hnew |].
    split; [rewrite lookup_app_l; [exact Hi | eapply lookup_lt_Some, Hi] |].
    split; [exact Hm |].
    intros Hall. exfalso.
    assert (match_length p b < strlen p); [| unfold match_length, held in *; lia].
    apply Hall. apply list_elem_of_In. eapply list_elem_of_lookup_2, Hi.
Qed.


(** ** feme.c: creating and destroying contexts *)

(** X7: Every way [FemeInit] can run.  It returns only after exactly one
    call of the initializer the scan selected, made on a freshly allocated
    context whose only non-zero member is the handler [FemeErrorAbort]; it
    returns that call's code and memory with the caller's handle set to the
    new context -- also when the code is not zero, the context is not
    released.  A failed allocation aborts before any initializer is
    called. *)
Theorem FemeInit_outcomes :
  forall sizeof_Feme (st : Registry) (resource : string) feme (h : Heap) t o,
    Runs (FemeInit sizeof_Feme st resource feme h) t o ->
    (t = [] /\ o = Undefined /\
       FemeInit_scan st 0 (chars resource) 0 None = None)
    \/
    (t = [] /\ o = Aborted "No suitable backend")
    \/
    (t = [Ev (calloc 1 sizeof_Feme) None] /\
       ((sizeof_Feme <> 0%Z /\
           o = Aborted (allocation_failure "calloc" 1 sizeof_Feme)) \/
        (sizeof_Feme = 0%Z /\ o = Undefined)))
    \/
    (exists a fn code (h' : Heap) m idx,
       FemeInit_scan st 0 (chars resource) 0 None = Some (m, idx) /\
       selected_init st idx = Some fn /\
       t = [ Ev (calloc 1 sizeof_Feme) (Some a);
             Ev (CallInit fn resource a (<[a := fresh_context "FemeErrorAbort"]> h))
                (code, h') ] /\
       o = Returned (code, (Some a, h'))).
Proof.
  intros sizeof_Feme st resource feme h t o H. unfold FemeInit in H.
  destruct (FemeInit_scan st 0 (chars resource) 0 None) as [[m idx] |] eqn:Hscan.
  2: { destruct H as [-> ->]. left. auto. }
  destruct (Nat.eqb_spec m 0) as [-> | Hm].
  { destruct H as [-> ->]. right; left. auto. }
  right; right.
  destruct (FemeInit_scan_safe st resource m idx Hscan)
    as [_ [[H0 _] | (_ & i & b & -> & Hi & Hsel & _)]]; [contradiction |].
  unfold FemeInit_create in H. rewrite Hsel in H. simpl in H.
  destruct H as (p & t' & -> & H). destruct p as [a |].
  - right.
    replace (bool_decide (is_Some (Some a))) with true in H
      by (symmetry; apply bool_decide_eq_true; eauto).
    rewrite andb_false_r in H. simpl in H.
    destruct H as ([code h'] & t'' & -> & H).
    exists a, (init b), code, h', m, (Some i).
    split; [reflexivity |]. split; [exact Hsel |].
    unfold FemeChk in H. destruct (Z.eqb_spec code 0) as [-> | Hc];
      destruct H as [-> ->]; auto.
  - left.
    replace (bool_decide (is_Some (@None nat))) with false in H
      by (symmetry; apply bool_decide_eq_false; intros [x Hx]; discriminate).
    rewrite andb_true_r in H.
    destruct (Z.eqb_spec sizeof_Feme 0) as [Hz | Hz]; simpl in H;
      destruct H as [-> ->]; auto.
Qed.

(** X8: Every way [FemeDestroy] can run on a non-NULL handle.  Without a
    [Destroy] member it frees the context and calls nothing.  With one it
    calls it exactly once: a non-zero code is returned as it is, with the
    handle and the context left in place; on zero the context is freed and
    the handle set to NULL.  Apart from what the backend's function did,
    only the destroyed context leaves memory. *)
Theorem FemeDestroy_outcomes :
  forall a (h : Heap) t o,
    Runs (FemeDestroy (Some a) h) t o ->
    (h !! a = None /\ t = [] /\ o = Undefined)
    \/
    (exists ctx, h !! a = Some ctx /\ Destroy ctx = None /\
       t = [] /\ o = Returned (0%Z, (None, delete a h)))
    \/
    (exists ctx fn ierr (h1 : Heap),
       h !! a = Some ctx /\ Destroy ctx = Some fn /\
       t = [Ev (CallDestroy fn a h) (ierr, h1)] /\
       ((ierr <> 0%Z /\ o = Returned (ierr, (Some a, h1))) \/
        (ierr = 0%Z /\ is_Some (h1 !! a) /\
           o = Returned (0%Z, (None, delete a h1))) \/
        (ierr = 0%Z /\ h1 !! a = None /\ o = Undefined))).
Proof.
  intros a h t o H. unfold FemeDestroy, deref in H.
  destruct (h !! a) as [ctx |] eqn:Hctx; simpl in H.
  2: { destruct H as [-> ->]. left. auto. }
  right. destruct (Destroy ctx) as [fn |] eqn:Hd; simpl in H.
  - right. destruct H as ([ierr h1] & t' & -> & H).
    exists ctx, fn, ierr, h1. split; [reflexivity |]. split; [exact Hd |].
    unfold FemeChk in H. destruct (Z.eqb_spec ierr 0) as [-> | Hne]; simpl in H.
    + destruct (h1 !! a) as [c1 |] eqn:H1; simpl in H; destruct H as [-> ->].
      * split; [reflexivity |]. right; left. eauto.
      * split; [reflexivity |]. right; right. auto.
    + destruct H as [-> ->]. split; [reflexivity |]. left. auto.
  - left. rewrite Hctx in H. simpl in H. destruct H as [-> ->].
    exists ctx. auto.
Qed.

(** X9: The allocation helpers never hand a failure code back: they return
    0 or abort the process.  [FemeMallocArray] asks [posix_memalign] for the
    [size_t] product of the count and the size, which wraps at 2^64 (a count
    of 2^63 members of size 2 asks for 0 bytes).  A NULL result of [calloc]
    counts as failure only when both the count and the size are non-zero.
    The abort text is "<function> failed to allocate <n> members of size
    <unit>" and a newline, the two numbers printed with [%zd]. *)
Theorem allocation_returns_zero_or_aborts :
  (forall n unit t o,
     Runs (FemeMallocArray n unit) t o ->
     exists ierr, t = [Ev (posix_memalign ((n * unit) mod 2 ^ 64)) ierr] /\
       ((ierr = 0%Z /\ o = Returned 0%Z) \/
        (ierr <> 0%Z /\
         o = Aborted ("posix_memalign failed to allocate " +:+ fmt_zd n
                      +:+ " members of size " +:+ fmt_zd unit
                      +:+ String "010" ""))))
  /\
  (forall n unit t o,
     Runs (FemeCallocArray n unit) t o ->
     exists p, t = [Ev (calloc n unit) p] /\
       ((p = None /\ n <> 0%Z /\ unit <> 0%Z /\
           o = Aborted ("calloc failed to allocate " +:+ fmt_zd n
                        +:+ " members of size " +:+ fmt_zd unit
                        +:+ String "010" "")) \/
        ((is_Some p \/ n = 0%Z \/ unit = 0%Z) /\ o = Returned (0%Z, p))))
  /\
  (forall z, (0 <= z < 2 ^ 63)%Z -> fmt_zd z = fmt_d z)
  /\
  fst (run env_ok (FemeMallocArray (2 ^ 63) 2)) = [Ev (posix_memalign 0) 0%Z].
Proof.
  split; [| split; [| split]].
  - intros n unit t o H. simpl in H.
    destruct H as (ierr & t' & -> & H). exists ierr.
    destruct (Z.eqb_spec ierr 0) as [-> | Hne]; simpl in H; destruct H as [-> ->]; auto.
  - intros n unit t o H. simpl in H.
    destruct H as (p & t' & -> & H). exists p.
    destruct (Z.eqb_spec n 0) as [Hn | Hn]; destruct (Z.eqb_spec unit 0) as [Hu | Hu];
      destruct p as [a |]; simpl in H;
      try replace (bool_decide (is_Some (Some a))) with true in H
        by (symmetry; apply bool_decide_eq_true; eauto);
      try replace (bool_decide (is_Some (@None nat))) with false in H
        by (symmetry; apply bool_decide_eq_false; intros [x Hx]; discriminate);
      simpl in H; destruct H as [-> ->]; split; auto; right; split; eauto.
  - intros z Hz. unfold fmt_zd, to_size_t, size_t_modulus.
    rewrite Z.mod_small by lia.
    destruct (Z.ltb_spec z (2 ^ 63)); [reflexivity | lia].
  - vm_compute. reflexivity.
Qed.

(** ** The error discipline of the GPU backends *)

Section Discipline.
Variable sizeof_data : Z.

(** X10: [CeedCompileCuda] / [CeedCompileHip] report at most one error per
    call.  Without a report the call returns 0; after a report nothing more
    is called -- no retry, no clean-up -- and the call returns exactly what
    the context's error handler answered, also when that answer is 0. *)
Theorem compile_reports_once_and_returns_the_answer v ceed (h : Heap) source
    module args t o :
  Runs (CeedCompile v ceed h source module args) t o ->
  reports_then_returns t o.
Proof.
  apply AllRuns_Runs. unfold_gpu. branches; simpl; ends_reported.
Qed.

Lemma report_answers_app t1 t2 :
  report_answers (t1 ++ t2) = report_answers t1 ++ report_answers t2.
Proof.
  induction t1 as [| [c x] t1 IH]; simpl; [reflexivity |].
  destruct c; simpl; rewrite IH; reflexivity.
Qed.

Lemma last_call_app t1 t2 : t2 <> [] -> last_call (t1 ++ t2) = last_call t2.
Proof.
  intro H. induction t1 as [| e t1 IH]; [reflexivity |].
  simpl. rewrite IH. destruct (t1 ++ t2) eqn:E; [| reflexivity].
  apply app_eq_nil in E. destruct E as [_ E]. contradiction.
Qed.

Lemma stops_at_failure_app {S} pre t (o : Outcome (Z * S)) :
  nonzero_answers pre = [] -> stops_at_failure t o ->
  stops_at_failure (pre ++ t) o.
Proof.
  intros Hpre H. unfold stops_at_failure, nonzero_answers in *.
  rewrite report_answers_app, List.filter_app, Hpre. simpl.
  destruct (List.filter _ (report_answers t)) as [| r [| r' l]] eqn:E; auto.
  destruct H as [Hl Ho]. split; [| exact Ho].
  rewrite last_call_app; [exact Hl |]. intros ->. discriminate E.
Qed.

Lemma AllRuns_stops_after {S} pre (p : Prog (Z * S)) :
  nonzero_answers pre = [] ->
  AllRuns stops_at_failure p ->
  AllRuns (fun t o => stops_at_failure (pre ++ t) o) p.
Proof.
  intros Hpre H. apply AllRuns_impl with (2 := H). intros t o Ht.
  apply stops_at_failure_app; auto.
Qed.

Lemma set_functions_stops ceed fs :
  forall h : Heap, AllRuns stops_at_failure (set_functions ceed fs h).
Proof.
  induction fs as [| [fname f] fs IH]; intro h.
  - simpl. ends_stopped.
  - simpl. unfold CeedSetBackendFunction. unfold_gpu. branches_eq; simpl;
      try (after_events; apply AllRuns_stops_after;
           [unfold nonzero_answers; simpl; use_tests; reflexivity | apply IH]);
      ends_stopped.
Qed.

Lemma CeedInit_gpu_stops v name expected fs resource ceed (h : Heap) :
  AllRuns stops_at_failure
          (CeedInit_gpu sizeof_data v name expected fs resource ceed h).
Proof.
  unfold CeedInit_gpu. unfold_gpu. branches_eq; simpl;
    try (after_events; apply AllRuns_stops_after;
         [unfold nonzero_answers; simpl; use_tests; reflexivity
         | apply set_functions_stops]);
    ends_stopped.
Qed.

(** X11: [CeedCudaInit] / [CeedHipInit] and [CeedInit_Cuda] /
    [CeedInit_Hip] return 0 unless an error handler answered a report with a
    non-zero code; such an answer is given at most once, the report that got
    it is the last call made, and the answer is the code returned.  (A
    handler that answers 0 lets the initialization go on.) *)
Theorem initializers_stop_at_the_first_failure v name expected fs
    resource nrc ceed (h : Heap) p t o :
  In p [ CeedGpuInit v ceed resource nrc h;
         CeedInit_gpu sizeof_data v name expected fs resource ceed h;
         CeedInit_Cuda sizeof_data resource ceed h;
         CeedInit_Hip sizeof_data resource ceed h ] ->
  Runs p t o ->
  stops_at_failure t o.
Proof.
  intros Hin. apply AllRuns_Runs.
  destruct Hin as [<- | [<- | [<- | [<- | []]]]].
  - unfold_gpu. branches_eq; simpl; ends_stopped.
  - apply CeedInit_gpu_stops.
  - apply CeedInit_gpu_stops.
  - apply CeedInit_gpu_stops.
Qed.

End Discipline.

(** ** The device session *)

Section Session.
Variable sizeof_data : Z.

(** X12: [CeedCudaInit] / [CeedHipInit] ask for the current device exactly
    once; they switch the device, once and to the ordinal read from
    the resource, exactly when that query succeeded and named another
    device; and they query the properties of no device but that ordinal, at
    most once. *)
Theorem CeedGpuInit_switches_device_only_when_needed v ceed resource nrc
    (h : Heap) t o :
  Runs (CeedGpuInit v ceed resource nrc h) t o ->
  let ordinal := device_ordinal resource nrc in
  exists ierr current,
    devices_found t = [(ierr, current)] /\
    calls is_set_device t =
      (if Z.eqb ierr 0 && negb (Z.eqb current ordinal)
       then [gpuSetDevice v ordinal] else []) /\
    (calls is_properties t = [] \/
     calls is_properties t = [gpuGetDeviceProperties v ordinal]).
Proof.
  intros H ordinal. pattern t, o. revert H. apply AllRuns_Runs.
  subst ordinal. unfold_gpu. branches_eq; simpl;
    eexists _, _; (split; [reflexivity |]); use_tests; simpl; auto.
Qed.



End Session.

(** ** The context an initializer leaves *)

Section Table.
Variable sizeof_data : Z.

Lemma Runs_AllRuns {A} (p : Prog A) :
  forall Q : list Event -> Outcome A -> Prop,
    (forall t o, Runs p t o -> Q t o) -> AllRuns Q p.
Proof.
  induction p as [a | msg | | c k IH]; simpl; intros Q H; [auto | auto | auto |].
  intro x. apply IH. intros t o HR. apply H. eauto.
Qed.

Lemma install_lookup_notin fs :
  forall (m : gmap string FnRef) n,
    ~ In n (List.map fst fs) -> install fs m !! n = m !! n.
Proof.
  induction fs as [| [n0 f0] fs IH]; intros m n Hn; [reflexivity |].
  change (install ((n0, f0) :: fs) m) with (install fs (<[n0 := f0]> m)).
  simpl in Hn. rewrite IH by tauto. apply lookup_insert_ne. tauto.
Qed.

Lemma install_lookup_in fs :
  forall (m : gmap string FnRef) n f,
    List.NoDup (List.map fst fs) -> In (n, f) fs -> install fs m !! n = Some f.
Proof.
  induction fs as [| [n0 f0] fs IH]; intros m n f Hnd Hin; [destruct Hin |].
  change (install ((n0, f0) :: fs) m) with (install fs (<[n0 := f0]> m)).
  simpl in Hnd. inversion Hnd as [| ? ? Hn0 Hnd']; subst.
  destruct Hin as [[= -> ->] | Hin].
  - rewrite install_lookup_notin by exact Hn0. apply lookup_insert_eq.
  - apply IH; assumption.
Qed.

Lemma set_functions_result ceed fs :
  forall (h : Heap) ctx t h',
    h !! ceed = Some ctx ->
    Runs (set_functions ceed fs h) t (Returned (0%Z, h')) ->
    calls is_report t = [] ->
    t = List.map (fun nf => Ev (FunctionSlot "Ceed" (fst nf)) true) fs /\
    h' = <[ceed := {| Error := Error ctx; data := data ctx;
                      ops := install fs (ops ctx) |}]> h.
Proof.
  induction fs as [| [fname f] fs IH]; intros h ctx t h' Hctx H Hrep.
  - simpl in H. destruct H as [-> [= <-]]. split; [reflexivity |].
    symmetry. apply insert_id. rewrite Hctx. destruct ctx; reflexivity.
  - change (Runs (do (ierr, h1) <- CeedSetBackendFunction ceed "Ceed" ceed fname f h;
                  FemeChk ierr h1 (set_functions ceed fs h1)) t (Returned (0%Z, h')))
      in H.
    unfold CeedSetBackendFunction, deref, call in H. simpl in H.
    destruct H as (ok & t' & -> & H). destruct ok.
    + rewrite Hctx in H. simpl in H.
      apply Runs_FemeChk_ok in H. destruct H as [_ H].
      eapply IH in H; [| apply lookup_insert_eq | exact Hrep].
      destruct H as [-> ->]. split; [reflexivity |].
      simpl. rewrite insert_insert_eq. reflexivity.
    + exfalso. unfold CeedError, FemeError, FemeErrorImpl, deref, call in H.
      rewrite Hctx in H. simpl in H.
      destruct (Error ctx); simpl in H.
      * destruct H as (ret & t2 & -> & _). discriminate Hrep.
      * destruct H as [_ H]. discriminate H.
Qed.

Lemma slots_have_no_properties fs :
  properties_found
    (List.map (fun nf : string * FnRef => Ev (FunctionSlot "Ceed" (fst nf)) true) fs)
  = [].
Proof. induction fs; simpl; auto. Qed.

Lemma slot_answers_of_slots fs :
  slot_answers
    (List.map (fun nf : string * FnRef => Ev (FunctionSlot "Ceed" (fst nf)) true) fs)
  = List.map (fun nf => (fst nf, true)) fs.
Proof. induction fs; simpl; congruence. Qed.

Lemma CeedInit_gpu_result v name expected fs resource ceed
    (h h' : Heap) t :
  Runs (CeedInit_gpu sizeof_data v name expected fs resource ceed h) t
       (Returned (0%Z, h')) ->
  calls is_report t = [] ->
  exists ctx prop,
    h !! ceed = Some ctx /\
    properties_found t = [(0%Z, prop)] /\
    slot_answers t = List.map (fun nf => (fst nf, true)) fs /\
    h' = <[ceed := {| Error := Error ctx;
                      data := Some (wrap v {| deviceId := device_ordinal resource 9;
                                              optblocksize := maxThreadsPerBlock prop;
                                              blasHandle := None |});
                      ops := install fs (ops ctx) |}]> h.
Proof.
  intros H. remember (Returned (0%Z, h')) as o eqn:Ho. revert h' Ho.
  pattern t, o. revert H. apply AllRuns_Runs.
  unfold CeedInit_gpu. unfold_gpu. branches_eq; simpl;
    try (match goal with
         | H : calls is_report _ = [] |- _ =>
             unfold calls in H; simpl in H; discriminate H
         end);
    try (match goal with H : _ = Returned _ |- _ => discriminate H end).
  all: repeat match goal with
         | H : <[_ := _]> _ !! _ = _ |- _ =>
             rewrite lookup_insert_eq in H; inversion H; subst; clear H
         end.
  all: apply Runs_AllRuns; intros t' o' HR h' -> Hrep;
    unfold calls in Hrep; simpl in Hrep; try discriminate Hrep;
    fold (calls is_report t') in Hrep;
    (eapply set_functions_result in HR; [| apply lookup_insert_eq | exact Hrep]);
    destruct HR as [-> ->];
    repeat match goal with
           | H : (_ =? 0)%Z = true |- _ => apply Z.eqb_eq in H; subst
           end;
    match goal with
    | H : session ?vv _ = Some ?s |- _ =>
        assert (s = zero_session) by (destruct vv; simpl in H; congruence); subst s
    end;
    match goal with
    | H : _ !! _ = Some ?c, d : DeviceProp |- _ => exists c, d
    end;
    (split; [reflexivity |]);
    (split; [simpl; rewrite slots_have_no_properties; reflexivity |]);
    (split; [simpl; apply slot_answers_of_slots |]);
    rewrite !insert_insert_eq; reflexivity.
Qed.

(** X14: The context a successful [CeedInit_Cuda] / [CeedInit_Hip] leaves
    (returned 0, no report): its session holds the ordinal read after the
    ninth character of the resource, the [maxThreadsPerBlock] of the
    properties the driver returned for it, and no cuBLAS handle; every
    registered operation name is bound to its function, every other entry
    and the error handler are as before, each name was accepted in order,
    and no other context changed. *)
Theorem CeedInit_gpu_success_state v name expected fs resource ceed
    (h h' : Heap) t :
  Runs (CeedInit_gpu sizeof_data v name expected fs resource ceed h) t
       (Returned (0%Z, h')) ->
  calls is_report t = [] ->
  exists ctx ctx' prop,
    h !! ceed = Some ctx /\ h' !! ceed = Some ctx' /\
    properties_found t = [(0%Z, prop)] /\
    Error ctx' = Error ctx /\
    data ctx' = Some (wrap v {| deviceId := device_ordinal resource 9;
                                optblocksize := maxThreadsPerBlock prop;
                                blasHandle := None |}) /\
    (List.NoDup (List.map fst fs) ->
     forall n f, In (n, f) fs -> ops ctx' !! n = Some f) /\
    (forall n, ~ In n (List.map fst fs) -> ops ctx' !! n = ops ctx !! n) /\
    slot_answers t = List.map (fun nf => (fst nf, true)) fs /\
    same_elsewhere ceed h h'.
Proof.
  intros H Hrep.
  destruct (CeedInit_gpu_result _ _ _ _ _ _ _ _ _ H Hrep)
    as (ctx & prop & Hctx & Hprop & Hslots & ->).
  exists ctx. eexists. exists prop.
  split; [exact Hctx |]. split; [apply lookup_insert_eq |].
  split; [exact Hprop |]. split; [reflexivity |]. split; [reflexivity |].
  split; [intros Hnd n f Hin; simpl; apply install_lookup_in; assumption |].
  split; [intros n Hn; simpl; apply install_lookup_notin; assumption |].
  split; [exact Hslots |].
  intros other Hne. rewrite lookup_insert_ne by congruence. reflexivity.
Qed.

End Table.

(** ** What an initializer leaves alone *)

Section Frame.
Variable sizeof_data : Z.

Lemma frame_trans ceed (h1 h2 h3 : Heap) :
  same_elsewhere ceed h1 h2 /\ keeps_handler ceed h1 h2 ->
  same_elsewhere ceed h2 h3 /\ keeps_handler ceed h2 h3 ->
  same_elsewhere ceed h1 h3 /\ keeps_handler ceed h1 h3.
Proof.
  unfold same_elsewhere, keeps_handler. intros [H1 K1] [H2 K2]. split.
  - intros other Hne. rewrite H2, H1 by exact Hne. reflexivity.
  - congruence.
Qed.

Lemma set_functions_frame ceed fs :
  forall h : Heap,
    AllRuns (fun t o => forall code h', o = Returned (code, h') ->
               same_elsewhere ceed h h' /\ keeps_handler ceed h h')
            (set_functions ceed fs h).
Proof.
  induction fs as [| [fname f] fs IH]; intro h.
  - simpl. frame_leaf.
  - simpl. unfold CeedSetBackendFunction. unfold_gpu. branches_eq; simpl;
      try (eapply AllRuns_impl; [| apply IH];
           intros t o Hf code h' Ho; eapply frame_trans; [| exact (Hf _ _ Ho)]);
      frame_leaf.
Qed.

Lemma CeedInit_gpu_frame v name expected fs resource ceed (h : Heap) :
  AllRuns (fun t o => forall code h', o = Returned (code, h') ->
             same_elsewhere ceed h h' /\ keeps_handler ceed h h')
          (CeedInit_gpu sizeof_data v name expected fs resource ceed h).
Proof.
  unfold CeedInit_gpu. unfold_gpu. branches_eq; simpl;
    try (eapply AllRuns_impl; [| apply set_functions_frame];
         intros t o Hf code h' Ho; eapply frame_trans; [| exact (Hf _ _ Ho)]);
    frame_leaf.
Qed.

Lemma initCeed_frame resource ceed (h : Heap) :
  AllRuns (fun t o => forall r h', o = Returned (r, h') ->
             same_elsewhere ceed h h' /\ keeps_handler ceed h h')
          (initCeed sizeof_data resource ceed h).
Proof.
  unfold initCeed, initCeed_device, getDefaultDeviceMode, gpu_default_mode.
  unfold_gpu. branches_eq; simpl; frame_leaf.
Qed.

Lemma registerBackend_frame resource ceed (h : Heap) :
  AllRuns (fun t o => forall code h', o = Returned (code, h') ->
             same_elsewhere ceed h h' /\ keeps_handler ceed h h')
          (registerBackend sizeof_data resource ceed h).
Proof.
  unfold registerBackend. apply AllRuns_bind.
  eapply AllRuns_impl; [| apply initCeed_frame].
  intros t o Hf. destruct o as [[r h1] | msg |]; [| discriminate | discriminate].
  specialize (Hf r h1 eq_refl).
  eapply AllRuns_impl with
    (Q := fun t o => forall code h', o = Returned (code, h') ->
            same_elsewhere ceed h1 h' /\ keeps_handler ceed h1 h').
  { intros t' o' Hf' code h' Ho. eapply frame_trans; [exact Hf | eauto]. }
  destruct r as [ierr | what].
  - unfold FemeChk. destruct (Z.eqb ierr 0).
    + change (registerMethods ceed h1) with
        (set_functions ceed
           [ ("GetPreferredMemType", "ceed::occa::getPreferredMemType");
             ("VectorCreate", "ceed::occa::Vector::ceedCreate");
             ("QFunctionCreate", "ceed::occa::QFunction::ceedCreate") ] h1).
      apply set_functions_frame.
    + simpl. frame_leaf.
  - unfold_gpu. branches_eq; simpl; frame_leaf.
Qed.

(** X15: Whatever [CeedCudaInit] / [CeedHipInit], [CeedInit_Cuda] /
    [CeedInit_Hip] or the OCCA [registerBackend] return, failure included,
    they have changed no context but their own, and in their own they have
    neither removed the context nor replaced its error handler. *)
Theorem initializers_touch_only_their_context v name expected fs resource nrc
    ceed (h h' : Heap) p t code :
  In p [ CeedGpuInit v ceed resource nrc h;
         CeedInit_gpu sizeof_data v name expected fs resource ceed h;
         registerBackend sizeof_data resource ceed h ] ->
  Runs p t (Returned (code, h')) ->
  same_elsewhere ceed h h' /\ keeps_handler ceed h h'.
Proof.
  intros Hin H.
  enough (G : AllRuns (fun t o => forall code h', o = Returned (code, h') ->
                         same_elsewhere ceed h h' /\ keeps_handler ceed h h') p)
    by exact (AllRuns_Runs _ _ _ _ G H code h' eq_refl).
  clear H. destruct Hin as [<- | [<- | [<- | []]]].
  - unfold_gpu. branches_eq; simpl; frame_leaf.
  - apply CeedInit_gpu_frame.
  - apply registerBackend_frame.
Qed.

End Frame.

(** ** The order of the registrations *)

Lemma slot_answers_app t1 t2 :
  slot_answers (t1 ++ t2) = slot_answers t1 ++ slot_answers t2.
Proof.
  induction t1 as [| [c x] t1 IH]; simpl; [reflexivity |].
  destruct c; simpl; rewrite IH; reflexivity.
Qed.

Lemma asks_in_order_after {St} fname b pre names t (o : Outcome (Z * St)) :
  slot_answers pre = [(fname, b)] -> nonzero_answers pre = [] ->
  asks_in_order names t o -> asks_in_order (fname :: names) (pre ++ t) o.
Proof.
  intros Hs Hn (k & Hk & Hnames & Hret & Hlast). exists (S k).
  assert (Hsl : slot_answers (pre ++ t) = (fname, b) :: slot_answers t)
    by (rewrite slot_answers_app, Hs; reflexivity).
  assert (Hnz : nonzero_answers (pre ++ t) = nonzero_answers t).
  { unfold nonzero_answers in *. rewrite report_answers_app, List.filter_app, Hn.
    reflexivity. }
  repeat split.
  - simpl. lia.
  - rewrite Hsl. simpl. f_equal. exact Hnames.
  - intros code s Ho Hc. simpl. f_equal. eauto.
  - rewrite Hnz, Hsl. intro H. destruct (Hlast H) as (name & Hl). exists name.
    destruct (slot_answers t); [discriminate Hl |]. exact Hl.
Qed.

(** X16: The [CeedSetBackendFunction] / [CeedChk] statements of an
    initializer register the operation names in source order, starting with
    the first; the run reaches the last name whenever it returns 0, and it
    goes no further than a rejected name whose report the handler answered
    with a non-zero code. *)
Theorem registrations_are_asked_in_order ceed fs (h : Heap) t o :
  Runs (set_functions ceed fs h) t o ->
  asks_in_order (List.map fst fs) t o.
Proof.
  intro H. pattern t, o. revert H. apply AllRuns_Runs. clear t o. revert h.
  induction fs as [| [fname f] fs IH]; intro h.
  - simpl. exists 0. split; [lia |]. split; [reflexivity |]. split; [reflexivity |].
    intro H. exfalso. apply H. reflexivity.
  - simpl. unfold CeedSetBackendFunction. unfold_gpu. branches_eq; simpl.
    all: try (after_events; eapply AllRuns_impl; [| apply IH];
              intros t o Ha; eapply asks_in_order_after; [reflexivity | | exact Ha];
              unfold nonzero_answers; simpl; use_tests; reflexivity).
    all: exists 1; unfold nonzero_answers; simpl; use_tests; simpl;
      repeat split; try lia; try discriminate; try congruence; eauto;
      intros code s [= <- <-] ->; discriminate.
Qed.

(** ** The compiler bridge: module, load and program object *)

(** X17: [CeedCompileCuda] / [CeedCompileHip] hand the caller's module
    pointer to the module loader.  In a run that returns without reaching
    the loader the caller's module is what it was on entry; after the loader
    was called it is what the loader left there, whether the load succeeded
    (the call returns 0 without a report) or failed (the call returns the
    handler's answer to the one report).  The module loader is called at
    most once, and only in a run where the compiler accepted the source and
    the program object was destroyed, once; when the compiler rejects the
    source, nothing is loaded and the program object is never destroyed. *)
Theorem compile_loads_only_an_accepted_program v ceed (h : Heap) source module
    args t o :
  Runs (CeedCompile v ceed h source module args) t o ->
  (forall code m, o = Returned (code, m) ->
     (modules_loaded t = [] /\ m = module) \/
     (exists r loaded,
        modules_loaded t = [(r, loaded)] /\ m = Some loaded /\
        (r = 0%Z -> code = 0%Z /\ report_answers t = []) /\
        (r <> 0%Z -> report_answers t = [code]))) /\
  (calls is_load t <> [] ->
   exists prog post image,
     after_compile t = Some (prog, 0%Z, post) /\
     calls is_destroy_program t = [rtcDestroyProgram v prog] /\
     calls is_load t = [gpuModuleLoadData v image]) /\
  (forall prog result post,
     after_compile t = Some (prog, result, post) -> result <> 0%Z ->
     calls is_destroy_program t = [] /\ calls is_load t = []).
Proof.
  intro H. pattern t, o. revert H. apply AllRuns_Runs. clear t o.
  unfold_gpu. branches_eq; simpl.
  all: repeat match goal with
         | H : (_ =? 0)%Z = true |- _ => apply Z.eqb_eq in H; subst
         | H : (_ =? 0)%Z = false |- _ => apply Z.eqb_neq in H
         end.
  all: split; [| split];
    [ first [ intros code m [= <- <-];
              first [ left; split; reflexivity
                    | right; eexists _, _;
                      split; [reflexivity |]; split; [reflexivity |];
                      split; intro;
                      first [ split; reflexivity | reflexivity | congruence ] ]
            | intros code m [=] ]
    | intros Hl; first [ exfalso; apply Hl; reflexivity | solve [eauto 10] ]
    | first [ intros p r post [= <- <- <-] Hr; first [ congruence | split; reflexivity ]
            | intros p r post [=] ] ].
Qed.

(** ** The device ordinal and [atoi] *)

Lemma uint_value_pos d : forall p, uint_value d (Z.pos p) = Z.pos (Pos.of_uint_acc d p).
Proof.
  induction d; intro p; simpl; try reflexivity;
    match goal with
    | IH : forall p, _ = _ |- _ => rewrite <- IH; f_equal; lia
    end.
Qed.

Lemma uint_value_0 d : uint_value d 0 = Z.of_uint d.
Proof.
  unfold Z.of_uint.
  induction d; simpl; try reflexivity; try exact IHd;
    change (10 * 0 + 1)%Z with (Z.pos 1); change (10 * 0 + 2)%Z with (Z.pos 2);
    change (10 * 0 + 3)%Z with (Z.pos 3); change (10 * 0 + 4)%Z with (Z.pos 4);
    change (10 * 0 + 5)%Z with (Z.pos 5); change (10 * 0 + 6)%Z with (Z.pos 6);
    change (10 * 0 + 7)%Z with (Z.pos 7); change (10 * 0 + 8)%Z with (Z.pos 8);
    change (10 * 0 + 9)%Z with (Z.pos 9); apply uint_value_pos.
Qed.

Lemma digits_value_uint d :
  forall acc,
    digits_value (list_ascii_of_string (NilEmpty.string_of_uint d)) acc
    = uint_value d acc.
Proof.
  induction d; intro acc; simpl; try reflexivity;
    match goal with
    | IH : forall acc, _ = _ |- _ => rewrite IH; f_equal; lia
    end.
Qed.

Lemma cstr_uint d :
  cstr (list_ascii_of_string (NilEmpty.string_of_uint d))
  = list_ascii_of_string (NilEmpty.string_of_uint d).
Proof. induction d; simpl; try reflexivity; f_equal; assumption. Qed.

Lemma chars_fmt_d z : chars (fmt_d z) = list_ascii_of_string (fmt_d z).
Proof.
  unfold chars, fmt_d. destruct (Z.to_int z) as [d | d]; simpl.
  - apply cstr_uint.
  - f_equal. apply cstr_uint.
Qed.

Lemma decimal_value_uint_nonnil d :
  d <> Decimal.Nil ->
  decimal_value (list_ascii_of_string (NilEmpty.string_of_uint d)) = Z.of_uint d.
Proof.
  intro Hd. rewrite <- uint_value_0, <- digits_value_uint.
  destruct d; try contradiction; reflexivity.
Qed.

Lemma decimal_value_fmt_d z : decimal_value (chars (fmt_d z)) = z.
Proof.
  rewrite chars_fmt_d. rewrite <- (DecimalZ.of_to z) at 2.
  unfold fmt_d. destruct z as [| p | p]; simpl Z.to_int; simpl NilEmpty.string_of_int.
  - reflexivity.
  - apply decimal_value_uint_nonnil. apply DecimalPos.Unsigned.to_uint_nonnil.
  - unfold decimal_value. simpl. rewrite digits_value_uint, uint_value_0. reflexivity.
Qed.

Lemma atoi_fmt_d z : atoi (chars (fmt_d z)) = to_int (clamp_long z).
Proof. unfold atoi. rewrite decimal_value_fmt_d. reflexivity. Qed.

Lemma to_int_of_int z :
  (- 2 ^ 31 <= z < 2 ^ 31)%Z -> to_int (clamp_long z) = z.
Proof.
  intro Hz. unfold to_int, clamp_long.
  rewrite Z.min_r by lia. rewrite Z.max_r by lia.
  rewrite Z.mod_small by lia. lia.
Qed.

Lemma list_ascii_of_string_app a b :
  list_ascii_of_string (a +:+ b) = list_ascii_of_string a ++ list_ascii_of_string b.
Proof. induction a; simpl; [reflexivity | f_equal; assumption]. Qed.

Lemma cstr_app_clean a b : ~ In NUL a -> cstr (a ++ b) = a ++ cstr b.
Proof.
  induction a as [| c a IH]; simpl; intro H; [reflexivity |].
  destruct (is_NUL c) eqn:E.
  - exfalso. apply H. left. unfold is_NUL in E. apply Ascii.eqb_eq in E. auto.
  - f_equal. apply IH. tauto.
Qed.

Lemma fmt_d_nonempty z : list_ascii_of_string (fmt_d z) <> [].
Proof.
  unfold fmt_d. destruct z as [| p | p]; simpl; try discriminate.
  pose proof (DecimalPos.Unsigned.to_uint_nonnil p) as Hn.
  destruct (Pos.to_uint p); try contradiction; discriminate.
Qed.

Lemma device_ordinal_decimal (p : string) (z : Z) :
  ~ In NUL (list_ascii_of_string p) ->
  device_ordinal (p +:+ "/" +:+ fmt_d z) (String.length p) = to_int (clamp_long z).
Proof.
  intro Hp.
  assert (Hc : chars (p +:+ "/" +:+ fmt_d z)
               = list_ascii_of_string p ++ "/"%char :: list_ascii_of_string (fmt_d z)).
  { unfold chars. rewrite list_ascii_of_string_app, cstr_app_clean by exact Hp.
    simpl. do 2 f_equal. apply chars_fmt_d. }
  assert (Hl : length (list_ascii_of_string p) = String.length p).
  { clear. induction p; simpl; auto. }
  unfold device_ordinal, strlen, char_at, str_from. rewrite Hc.
  pose proof (fmt_d_nonempty z) as Hne.
  destruct (list_ascii_of_string (fmt_d z)) as [| c l] eqn:E; [contradiction |].
  rewrite length_app. simpl length. rewrite Hl.
  replace (String.length p <? String.length p + S (S (length l))) with true
    by (symmetry; apply Nat.ltb_lt; lia).
  replace (String.length p + 1 <? String.length p + S (S (length l))) with true
    by (symmetry; apply Nat.ltb_lt; lia).
  rewrite app_nth2 by lia. rewrite Hl, Nat.sub_diag. simpl.
  change ("/"%char :: c :: l) with (["/"%char] ++ c :: l).
  rewrite app_assoc.
  replace (String.length p + 1) with (length (list_ascii_of_string p ++ ["/"%char]))
    by (rewrite length_app; simpl; lia).
  rewrite drop_app_length.
  rewrite <- E, <- chars_fmt_d. apply atoi_fmt_d.
Qed.

(** X18: The ordinal parse of [CeedCudaInit] / [CeedHipInit] inverts the
    decimal rendering within [int]: for a NUL-free stem [p] of [nrc]
    characters, the resource [p/<n>] gives back [n] for every [n] from
    -2^31 to 2^31 - 1 as [%d] prints it.  A number outside [int] is not read
    back: it is clamped to [long] and keeps its low 32 bits as an [int]
    (2147483648 gives -2147483648).  A resource with no character after
    position [nrc], or with another character than a slash at [nrc], gives
    0. *)
Theorem device_ordinal_reads_back_the_decimal_suffix (p : string) (z : Z)
    (resource : string) (nrc : nat) :
  (~ In NUL (list_ascii_of_string p) -> (- 2 ^ 31 <= z < 2 ^ 31)%Z ->
   device_ordinal (p +:+ "/" +:+ fmt_d z) (String.length p) = z) /\
  (~ In NUL (list_ascii_of_string p) ->
   device_ordinal (p +:+ "/" +:+ fmt_d z) (String.length p)
   = ((Z.max (- 2 ^ 63) (Z.min (2 ^ 63 - 1) z) + 2 ^ 31) mod 2 ^ 32 - 2 ^ 31)%Z) /\
  device_ordinal "/gpu/cuda/2147483648" 9 = (-2147483648)%Z /\
  (strlen resource <= nrc + 1 \/ char_at resource nrc <> "/"%char ->
   device_ordinal resource nrc = 0%Z).
Proof.
  split; [| split; [| split]].
  - intros Hp Hz. rewrite device_ordinal_decimal by exact Hp.
    apply to_int_of_int. exact Hz.
  - apply device_ordinal_decimal.
  - vm_compute. reflexivity.
  - intros H. unfold device_ordinal.
    destruct (nrc <? strlen resource) eqn:E1; [| reflexivity].
    destruct (Ascii.eqb_spec (char_at resource nrc) "/") as [Heq | Hne];
      [| reflexivity].
    destruct H as [H | H]; [| contradiction].
    replace (nrc + 1 <? strlen resource) with false
      by (symmetry; apply Nat.ltb_ge; lia).
    reflexivity.
Qed.

(** ** The option strings of the compile step *)

Lemma substring_0_length n : forall s,
  String.length (substring 0 n s) = Nat.min n (String.length s).
Proof.
  induction n as [| n IH]; intros [| c s]; simpl; auto.
Qed.

Lemma substring_0_all n : forall s, String.length s <= n -> substring 0 n s = s.
Proof.
  induction n as [| n IH]; intros [| c s]; simpl; intro H; auto; try lia.
  f_equal. apply IH. lia.
Qed.

Lemma snprintf_length text :
  String.length (snprintf optslen text) = Nat.min 31 (String.length text).
Proof. apply substring_0_length. Qed.

Lemma substring_0_prefix n : forall s, exists rest, s = substring 0 n s +:+ rest.
Proof.
  induction n as [| n IH]; intros [| c s]; simpl.
  - exists "". reflexivity.
  - exists (String c s). reflexivity.
  - exists "". reflexivity.
  - destruct (IH s) as [rest Hr]. exists rest.
    change (String c s = String c (substring 0 n s +:+ rest)). f_equal. exact Hr.
Qed.

(** X19: Every option string handed to the runtime compiler has at most
    31 characters.  The option built for a (name, value) pair is the text
    "-D<name>=<value>" itself when that has at most 31 characters, and
    otherwise its first 31 characters -- the text is the option followed by
    what was cut off -- which differ from the text. *)
Theorem kernel_options_hold_31_characters args v prop :
  Forall (fun o => String.length o <= 31) (kernel_opts args ++ standard_opts v prop) /\
  forall i name value,
    args !! i = Some (name, value) ->
    let text := "-D" +:+ fmt_s name +:+ "=" +:+ fmt_d value in
    exists o,
      kernel_opts args !! i = Some o /\
      String.length o = Nat.min 31 (String.length text) /\
      (exists cut, text = o +:+ cut) /\
      (String.length text <= 31 -> o = text) /\
      (31 < String.length text -> o <> text).
Proof.
  split.
  - apply Forall_app. split.
    + unfold kernel_opts. induction args as [| a args IH]; simpl; constructor; auto.
      rewrite snprintf_length. lia.
    + unfold standard_opts.
      constructor; [simpl; lia |]. constructor; [simpl; lia |].
      constructor; [simpl; lia |]. constructor; [| constructor].
      unfold arch_opt. destruct v; rewrite snprintf_length; lia.
  - induction args as [| a args IH]; intros i name value Hi text.
    + destruct i; discriminate Hi.
    + destruct i as [| i]; simpl in Hi.
      * injection Hi as ->. exists (snprintf optslen text).
        split; [reflexivity |]. split; [apply snprintf_length |].
        split; [apply substring_0_prefix |]. split.
        -- intro Hfit. apply substring_0_all. exact Hfit.
        -- intros Hlong Heq. pose proof (snprintf_length text) as Hlen.
           rewrite Heq in Hlen. lia.
      * apply (IH i name value Hi).
Qed.

(** ** The launcher: what a launch call does and returns *)

(** X20: Every way a kernel launch can run.  The three launch functions of
    a vendor are one function at different block shapes and shared-memory
    sizes.  Each makes one driver launch; when the driver accepts it
    nothing else is called and 0 is returned; otherwise the vendor's name
    for the status is fetched and reported once with the status as code,
    and the handler's answer is returned (a context without a handler makes
    the report undefined).  The launch is never repeated. *)
Theorem launch_outcomes v ceed (h : Heap) kernel gridSize bx by' bz shared args t o :
  Runs (CeedRunKernelDimShared v ceed h kernel gridSize bx by' bz shared args) t o ->
  let launch := gpuLaunchKernel v kernel gridSize 1 1 bx by' bz shared None args None in
  (CeedRunKernel v ceed h kernel gridSize bx args
   = CeedRunKernelDimShared v ceed h kernel gridSize bx 1 1 0 args /\
   CeedRunKernelDim v ceed h kernel gridSize bx by' bz args
   = CeedRunKernelDimShared v ceed h kernel gridSize bx by' bz 0 args) /\
  ((t = [Ev launch 0%Z] /\ o = Returned (0%Z, tt)) \/
   exists (r : Z) (name : string),
     r <> 0%Z /\
     ((t = [Ev launch r; Ev (gpuErrorName v r) name] /\ o = Undefined /\
       h !! ceed ≫= Error = None) \/
      exists fn ret,
        h !! ceed ≫= Error = Some fn /\
        t = [Ev launch r; Ev (gpuErrorName v r) name; Ev (CallError fn r name) ret] /\
        o = Returned (ret, tt))).
Proof.
  intros H launch. split; [split; reflexivity |].
  subst launch. pattern t, o. revert H. apply AllRuns_Runs. clear t o.
  unfold_gpu. branches_eq; simpl;
    repeat match goal with
           | H : (_ =? 0)%Z = true |- _ => apply Z.eqb_eq in H; subst
           | H : (_ =? 0)%Z = false |- _ => apply Z.eqb_neq in H
           end;
    first [ left; split; reflexivity
          | right; eexists _, _; split; [eassumption |];
            first [ left; repeat split; reflexivity
                  | right; eexists _, _; repeat split; reflexivity ] ].
Qed.

(** ** The OCCA backend *)

Section Occa.
Variable sizeof_data : Z.



(** X23: [initCeed] asks OCCA once whether the properties name a mode.  If
    they do, no mode is probed and the device is made from the properties
    alone.  If they do not, the device is made from the properties with a
    non-empty default mode, which is the last mode probed and found enabled,
    or "Serial".  The properties are the resource's text after its tenth
    character.  At most one device is made, and none before that question
    was answered. *)
Theorem initCeed_probes_only_without_an_explicit_mode c_resource ceed (h : Heap) t o :
  Runs (initCeed sizeof_data c_resource ceed h) t o ->
  let props := occa_props (chars c_resource) in
  match has_mode_answers t with
  | [] => calls is_probe t = [] /\ calls is_device t = []
  | [true] =>
      calls is_probe t = [] /\
      (calls is_device t = [] \/ calls is_device t = [occa_device props None])
  | [false] =>
      calls is_device t = [] \/
      exists mode,
        calls is_device t = [occa_device props (Some mode)] /\
        mode <> "" /\
        (last (probe_answers t) = Some (mode, true) \/ mode = "Serial")
  | _ => False
  end.
Proof.
  intros H props. rewrite initCeed_unfold in H. cbv zeta in H.
  subst props. revert H. generalize (occa_props (chars c_resource)) as props.
  intros props H. pattern t, o. revert H. apply AllRuns_Runs. clear t o.
  unfold_occa. branches_eq; simpl;
    first [ solve [split; [reflexivity |];
                   first [reflexivity | left; reflexivity | right; reflexivity]]
          | solve [left; reflexivity]
          | solve [right; eexists; split; [reflexivity |];
                   split; [discriminate |];
                   first [left; reflexivity | right; reflexivity]] ].
Qed.






End Occa.

(** ** The context the OCCA backend leaves *)

Section OccaTable.
Variable sizeof_data : Z.

Lemma initCeed_success c_resource ceed (h : Heap) :
  AllRuns (fun t o =>
             forall ierr h1, o = Returned (Normal ierr, h1) ->
               calls is_report t = [] ->
               ierr = 0%Z /\
               exists ctx device,
                 h !! ceed = Some ctx /\ devices_made t = [device] /\
                 h1 = <[ceed := {| Error := Error ctx; data := Some (OccaData device);
                                   ops := ops ctx |}]> h)
          (initCeed sizeof_data c_resource ceed h).
Proof.
  unfold_occa. branches_eq; simpl;
    first
      [ match goal with H : _ = Returned _ |- _ => discriminate H end
      | match goal with
        | H : calls is_report _ = [] |- _ =>
            unfold calls in H; simpl in H; discriminate H
        end
      | repeat match goal with
               | H : Some _ = Some _ |- _ => injection H as ?; subst
               end;
        repeat match goal with
               | H : <[_ := _]> _ !! _ = _ |- _ =>
                   rewrite lookup_insert_eq in H; inversion H; subst; clear H
               end;
        match goal with
        | H : Returned _ = Returned _ |- _ => injection H as ? ?; subst
        end;
        split; [reflexivity |];
        eexists _, _; split; [first [eassumption | reflexivity] |];
        split; [reflexivity |];
        rewrite insert_insert_eq; reflexivity ].
Qed.

Lemma devices_made_app t1 t2 :
  devices_made (t1 ++ t2) = devices_made t1 ++ devices_made t2.
Proof.
  induction t1 as [| [c x] t1 IH]; simpl; [reflexivity |].
  destruct c; simpl; try exact IH; destruct x; simpl; rewrite IH; reflexivity.
Qed.

(** X25: The context a successful OCCA [registerBackend] leaves (returned
    0, no report): its private data is the one device OCCA made; exactly the
    three names GetPreferredMemType, VectorCreate and QFunctionCreate are
    bound to the OCCA functions, every other entry -- Destroy among them --
    and the error handler are as before, and no other context changed. *)
Theorem registerBackend_success_state resource ceed (h h' : Heap) t :
  Runs (registerBackend sizeof_data resource ceed h) t (Returned (0%Z, h')) ->
  calls is_report t = [] ->
  exists ctx ctx' device,
    h !! ceed = Some ctx /\ h' !! ceed = Some ctx' /\
    devices_made t = [device] /\
    Error ctx' = Error ctx /\
    data ctx' = Some (OccaData device) /\
    ops ctx' !! "GetPreferredMemType" = Some "ceed::occa::getPreferredMemType" /\
    ops ctx' !! "VectorCreate" = Some "ceed::occa::Vector::ceedCreate" /\
    ops ctx' !! "QFunctionCreate" = Some "ceed::occa::QFunction::ceedCreate" /\
    (forall n, ~ In n ["GetPreferredMemType"; "VectorCreate"; "QFunctionCreate"] ->
               ops ctx' !! n = ops ctx !! n) /\
    same_elsewhere ceed h h'.
Proof.
  intros H Hrep. unfold registerBackend in H. apply Runs_bind in H.
  destruct H as [(t1 & [r h1] & t2 & H1 & H2 & ->) | [(m & _ & Hd) | (_ & Hd)]];
    [| discriminate Hd ..].
  apply no_report_app in Hrep. destruct Hrep as [Hrep1 Hrep2].
  destruct r as [ierr | what].
  2: { exfalso. destruct (format_no_args (chars what)).
       - eapply Runs_report_ok; [exact H2 | exact Hrep2].
       - destruct H2 as [_ Hd]. discriminate Hd. }
  apply Runs_FemeChk_ok in H2. destruct H2 as [-> H2].
  destruct (AllRuns_Runs _ _ _ _ (initCeed_success resource ceed h) H1 _ _ eq_refl Hrep1)
    as (_ & ctx & device & Hctx & Hdev & ->).
  change (registerMethods ceed ?hh) with
    (set_functions ceed
       [ ("GetPreferredMemType", "ceed::occa::getPreferredMemType");
         ("VectorCreate", "ceed::occa::Vector::ceedCreate");
         ("QFunctionCreate", "ceed::occa::QFunction::ceedCreate") ] hh) in H2.
  eapply set_functions_result in H2; [| apply lookup_insert_eq | exact Hrep2].
  destruct H2 as [-> ->].
  exists ctx. eexists. exists device.
  split; [exact Hctx |]. split; [apply lookup_insert_eq |].
  split; [rewrite devices_made_app, Hdev; reflexivity |].
  split; [reflexivity |]. split; [reflexivity |].
  simpl. unfold install. simpl.
  split; [repeat (rewrite lookup_insert_ne by discriminate); apply lookup_insert_eq |].
  split; [repeat (rewrite lookup_insert_ne by discriminate); apply lookup_insert_eq |].
  split; [apply lookup_insert_eq |].
  split.
  - intros n Hn. simpl in Hn. rewrite !lookup_insert_ne by tauto. reflexivity.
  - intros other Hne. rewrite !lookup_insert_ne by congruence. reflexivity.
Qed.

End OccaTable.

(** ** The cuBLAS handle and the CUDA destructor *)

Lemma BAllRuns_BRuns {A} (p : BlasProg A) :
  forall (Q : list BlasEvent -> Outcome A -> Prop) t o,
    BAllRuns Q p -> BRuns p t o -> Q t o.
Proof.
  induction p as [a | msg | | c k IH]; simpl; intros Q t o HQ HR.
  - destruct HR as [-> ->]. exact HQ.
  - destruct HR as [-> ->]. exact HQ.
  - destruct HR as [-> ->]. exact HQ.
  - destruct HR as (x & t' & -> & HR).
    exact (IH x (fun t o => Q (BEv c x :: t) o) t' o (HQ x) HR).
Qed.

(** X26: [CeedCudaGetCublasHandle] creates the cuBLAS handle lazily and
    once: a call that returned a handle without reporting an error either
    made no call and left memory as it was, or made the one [cublasCreate]
    that produced the handle; any call after it makes no call at all and
    returns the same handle. *)
Theorem cublas_handle_is_created_once ceed handle handle' (h h1 : Heap) t1 known
    t2 o2 :
  BRuns (CeedCudaGetCublasHandle ceed handle h) t1
        (Returned (0%Z, (Some known, h1))) ->
  blas_calls is_blas_report t1 = [] ->
  BRuns (CeedCudaGetCublasHandle ceed handle' h1) t2 o2 ->
  (t1 = [] \/ t1 = [BEv cublasCreate (0%Z, Some known)]) /\
  (t1 = [] -> h1 = h) /\
  t2 = [] /\ o2 = Returned (0%Z, (Some known, h1)).
Proof.
  intros H1 Hrep H2.
  assert (G : (t1 = [] \/ t1 = [BEv cublasCreate (0%Z, Some known)]) /\
              (t1 = [] -> h1 = h) /\
              exists ctx s, h1 !! ceed = Some ctx /\ data ctx = Some (CudaData s) /\
                            blasHandle s = Some known).
  { clear H2. revert Hrep. remember (Returned (0%Z, (Some known, h1))) as o eqn:Ho.
    revert known h1 Ho. pattern t1, o. revert H1. apply BAllRuns_BRuns.
    unfold_blas. branches_eq; simpl;
      first
        [ match goal with H : _ = Returned _ |- _ => discriminate H end
        | match goal with
          | H : blas_calls is_blas_report _ = [] |- _ =>
              unfold blas_calls in H; simpl in H; discriminate H
          end
        | idtac ].
    - injection Ho as <- <-. split; [left; reflexivity |]. split; [reflexivity |].
      exists f, d. split; [assumption |]. split; [| assumption].
      destruct (data f) as [[s | s | s] |]; try discriminate. congruence.
    - match goal with H : (_ =? 0)%Z = true |- _ => apply Z.eqb_eq in H; subst end.
      injection Ho as -> <-. split; [right; reflexivity |]. split; [discriminate |].
      eexists _, _. split; [apply lookup_insert_eq |]. split; reflexivity. }
  destruct G as (Ht & Hh & ctx & s & Hc & Hd & Hb).
  split; [exact Ht |]. split; [exact Hh |].
  unfold CeedCudaGetCublasHandle, CeedGetData, deref in H2. rewrite Hc in H2. simpl in H2. rewrite Hd in H2. simpl in H2.
  rewrite Hb in H2. simpl in H2. exact H2.
Qed.



(** ** From the resource string to the device: a plain ordinal *)

Lemma fmt_d_first z :
  exists c l,
    list_ascii_of_string (fmt_d z) = c :: l /\
    In c (list_ascii_of_string "0123456789-").
Proof.
  unfold fmt_d. destruct z as [| p | p]; simpl.
  - eexists _, _. split; [reflexivity |]. simpl. auto.
  - pose proof (DecimalPos.Unsigned.to_uint_nonnil p) as Hn.
    destruct (Pos.to_uint p); try contradiction;
      (eexists _, _; split; [reflexivity |]; simpl; tauto).
  - eexists _, _. split; [reflexivity |]. simpl. tauto.
Qed.

(** X28: From the resource string to the device.  In the table left by the
    five registrations the [Register] constructors make, in the order cuda,
    hip, occa -- whatever priority argument each carries, and none as
    [FemeRegister] has it -- the resource "/gpu/cuda/<n>" resolves to the
    CUDA initializer over a ten-character match, and a successful
    initialization stores device ordinal [n], for every [n] of the [int]
    range -2^31 .. 2^31 - 1 as [%d] prints it. *)
Theorem cuda_resource_with_a_plain_ordinal_opens_that_device (z : Z)
    (p1 p2 p3 p4 p5 : option Z) :
  (- 2 ^ 31 <= z < 2 ^ 31)%Z ->
  let resource := "/gpu/cuda/" +:+ fmt_d z in
  let registrations :=
    [ (p1, "/gpu/cuda/ref", "CeedInit_Cuda");
      (p2, "/gpu/hip/ref", "CeedInit_Hip");
      (p3, "/*/occa", "ceed::occa::registerBackend");
      (p4, "/gpu/occa", "ceed::occa::registerBackend");
      (p5, "/cpu/occa", "ceed::occa::registerBackend") ] in
  exists st : Registry,
    register_seq 64 registrations [] = Ret st /\
    FemeInit_scan st 0 (chars resource) 0 None = Some (10, Some 0) /\
    selected_init st (Some 0) = Some "CeedInit_Cuda" /\
    device_ordinal resource 9 = z /\
    forall sizeof_data ceed (h h' : Heap) t,
      Runs (CeedInit_Cuda sizeof_data resource ceed h) t (Returned (0%Z, h')) ->
      calls is_report t = [] ->
      exists s, session Cuda (session_of h' ceed) = Some s /\ deviceId s = z.
Proof.
  intros Hz resource registrations.
  assert (Hord : device_ordinal resource 9 = z).
  { transitivity (to_int (clamp_long z)); [| apply to_int_of_int; exact Hz].
    apply (device_ordinal_decimal "/gpu/cuda" z). simpl. intuition discriminate. }
  assert (Hc : chars resource
               = list_ascii_of_string "/gpu/cuda/" ++ list_ascii_of_string (fmt_d z)).
  { unfold resource, chars. rewrite list_ascii_of_string_app.
    rewrite cstr_app_clean by (simpl; intuition discriminate).
    f_equal. apply chars_fmt_d. }
  eexists. split; [vm_compute; reflexivity |].
  split.
  - rewrite Hc. destruct (fmt_d_first z) as (c & l & -> & Hin).
    simpl in Hin.
    repeat (destruct Hin as [<- | Hin]; [vm_compute; reflexivity |]).
    destruct Hin.
  - split; [vm_compute; reflexivity |]. split; [exact Hord |].
    intros sizeof_data ceed h h' t H Hrep.
    destruct (CeedInit_gpu_result _ _ _ _ _ _ _ _ _ _ H Hrep)
      as (ctx & prop & _ & _ & _ & ->).
    unfold session_of. rewrite lookup_insert_eq. simpl.
    eexists. split; [reflexivity |]. simpl. exact Hord.
Qed.

(** X29: No resource that begins with a registered GPU prefix selects a
    device: the initializers read the ordinal after the ninth character,
    where "/gpu/cuda/ref..." has "ref..." and "/gpu/hip/ref..." has no
    slash, so the ordinal is 0 whatever follows the prefix. *)
Theorem registered_gpu_prefixes_always_select_device_zero (suffix : string) :
  device_ordinal ("/gpu/cuda/ref" +:+ suffix) 9 = 0%Z /\
  device_ordinal ("/gpu/hip/ref" +:+ suffix) 9 = 0%Z.
Proof.
  assert (Hc : forall p : string,
             ~ In NUL (list_ascii_of_string p) ->
             chars (p +:+ suffix) = list_ascii_of_string p ++ chars suffix).
  { intros p Hp. unfold chars. rewrite list_ascii_of_string_app.
    apply cstr_app_clean. exact Hp. }
  split; unfold device_ordinal, strlen, char_at, str_from; rewrite Hc
    by (simpl; intuition discriminate); reflexivity.
Qed.

(** * Further instances *)

Lemma register_seq_appends_in_order_witness :
  register_seq 64 [ (Some 40%Z, "/gpu/cuda/ref", "CeedInit_Cuda");
                    (None, "/cpu/self", "CeedInit_Ref") ] []
  = Ret (List.map (slot_of 64) [ (Some 40%Z, "/gpu/cuda/ref", "CeedInit_Cuda");
                                 (None, "/cpu/self", "CeedInit_Ref") ])
  /\ register_seq 64 [ (None, "/cpu/self", "CeedInit_Ref") ] full_table
     = Abort "Too many backends".
Proof.
  split.
  - refine (proj1 (register_seq_appends_in_order 64
                     [ (Some 40%Z, "/gpu/cuda/ref", "CeedInit_Cuda");
                       (None, "/cpu/self", "CeedInit_Ref") ] []) _).
    simpl. lia.
  - apply (proj1 (proj2 (register_seq_appends_in_order 64 _ full_table))).
    + vm_compute. lia.
    + discriminate.
Defined.

Lemma FemeRegister_stores_prefix_witness :
  exists b,
    FemeRegister 4 "/gpu/cuda/ref" "CeedInit_Cuda" [] = Ret (0%Z, [b]) /\
    ~ terminated b /\ prefix b = take 4 (chars "/gpu/cuda/ref").
Proof.
  destruct (FemeRegister_stores_prefix 4 "/gpu/cuda/ref" "CeedInit_Cuda" [])
    as (b & Hreg & _ & _ & _ & Hlong).
  - simpl. lia.
  - exists b. split; [exact Hreg |]. apply Hlong. vm_compute. lia.
Defined.

Lemma FemeInit_undefined_iff_array_overrun_witness :
  FemeInit 64 [short_slot] "/gpu/cuda/ref" None ∅ = Undef.
Proof.
  apply (proj2 (FemeInit_undefined_iff_array_overrun 64 [short_slot] "/gpu/cuda/ref"
                  None ∅)).
  exists short_slot. split; [left; reflexivity |]. split.
  - unfold terminated. simpl. intuition discriminate.
  - vm_compute. reflexivity.
Defined.

Lemma FemeInit_scan_index_is_safe_witness : 12 <= strlen "/gpu/hip/ref/1".
Proof.
  refine (proj1 (FemeInit_scan_index_is_safe example_table "/gpu/hip/ref/1" 12
                   (Some 1) _)).
  vm_compute. reflexivity.
Defined.

Lemma registration_keeps_earlier_selection_witness :
  FemeInit_scan (example_table
                   ++ [ {| prefix := strncpy "/gpu/hip" 64; init := "CeedInit_Other";
                           priority := None |} ])
                0 (chars "/gpu/hip/ref/1") 0 None
  = Some (12, Some 1).
Proof.
  refine (registration_keeps_earlier_selection example_table _ "/gpu/hip/ref/1"
            12 (Some 1) 8 _ _); vm_compute; reflexivity.
Defined.

Lemma registered_prefix_resolves_witness :
  exists st' i,
    FemeRegister 64 "/gpu/cuda/ref" "CeedInit_Cuda" [] = Ret (0%Z, st') /\
    FemeInit_scan st' 0 (chars "/gpu/cuda/ref") 0 None = Some (13, Some i).
Proof.
  destruct (registered_prefix_resolves 64 "/gpu/cuda/ref" "CeedInit_Cuda" [])
    as (st' & i & b & Hreg & Hscan & _).
  - constructor.
  - simpl. lia.
  - vm_compute. lia.
  - vm_compute. lia.
  - exists st', i. split; [exact Hreg | exact Hscan].
Defined.

Lemma FemeInit_outcomes_witness :
  let r := run env_ok (FemeInit 64 example_table "/gpu/hip/ref" None ∅) in
  (fst r = [] /\ snd r = Undefined /\
     FemeInit_scan example_table 0 (chars "/gpu/hip/ref") 0 None = None)
  \/
  (fst r = [] /\ snd r = Aborted "No suitable backend")
  \/
  (fst r = [Ev (calloc 1 64) None] /\
     ((64%Z <> 0%Z /\ snd r = Aborted (allocation_failure "calloc" 1 64)) \/
      (64%Z = 0%Z /\ snd r = Undefined)))
  \/
  (exists a fn code (h' : Heap) m idx,
     FemeInit_scan example_table 0 (chars "/gpu/hip/ref") 0 None = Some (m, idx) /\
     selected_init example_table idx = Some fn /\
     fst r = [ Ev (calloc 1 64) (Some a);
               Ev (CallInit fn "/gpu/hip/ref" a
                     (<[a := fresh_context "FemeErrorAbort"]> ∅))
                  (code, h') ] /\
     snd r = Returned (code, (Some a, h'))).
Proof.
  exact (FemeInit_outcomes 64 example_table "/gpu/hip/ref" None ∅ _ _
           (run_Runs env_ok _)).
Defined.

Lemma FemeDestroy_outcomes_witness :
  let h : Heap := {[ 1 := destroyable_context ]} in
  let r := run env_ok (FemeDestroy (Some 1) h) in
  (h !! 1 = None /\ fst r = [] /\ snd r = Undefined)
  \/
  (exists ctx, h !! 1 = Some ctx /\ Destroy ctx = None /\
     fst r = [] /\ snd r = Returned (0%Z, (None, delete 1 h)))
  \/
  (exists ctx fn ierr (h1 : Heap),
     h !! 1 = Some ctx /\ Destroy ctx = Some fn /\
     fst r = [Ev (CallDestroy fn 1 h) (ierr, h1)] /\
     ((ierr <> 0%Z /\ snd r = Returned (ierr, (Some 1, h1))) \/
      (ierr = 0%Z /\ is_Some (h1 !! 1) /\
         snd r = Returned (0%Z, (None, delete 1 h1))) \/
      (ierr = 0%Z /\ h1 !! 1 = None /\ snd r = Undefined))).
Proof.
  exact (FemeDestroy_outcomes 1 {[ 1 := destroyable_context ]} _ _
           (run_Runs env_ok _)).
Defined.

Lemma allocation_returns_zero_or_aborts_witness :
  (exists p,
     fst (run env_ok (FemeCallocArray 1 64)) = [Ev (calloc 1 64) p] /\
     ((p = None /\ 1%Z <> 0%Z /\ 64%Z <> 0%Z /\
         snd (run env_ok (FemeCallocArray 1 64))
         = Aborted ("calloc failed to allocate " +:+ fmt_zd 1
                    +:+ " members of size " +:+ fmt_zd 64 +:+ String "010" "")) \/
      ((is_Some p \/ 1%Z = 0%Z \/ 64%Z = 0%Z) /\
         snd (run env_ok (FemeCallocArray 1 64)) = Returned (0%Z, p))))
  /\ fmt_zd 64 = fmt_d 64.
Proof.
  split.
  - exact (proj1 (proj2 allocation_returns_zero_or_aborts) 1%Z 64%Z _ _
             (run_Runs env_ok _)).
  - apply (proj1 (proj2 (proj2 allocation_returns_zero_or_aborts))). lia.
Defined.

Lemma compile_reports_once_and_returns_the_answer_witness :
  reports_then_returns
    (fst (run env_rejecting
            (CeedCompile Cuda 1 {[ 1 := cuda_context "FemeErrorReturn" ]}
               "__global__ void f( {" None [])))
    (snd (run env_rejecting
            (CeedCompile Cuda 1 {[ 1 := cuda_context "FemeErrorReturn" ]}
               "__global__ void f( {" None []))).
Proof.
  exact (compile_reports_once_and_returns_the_answer Cuda 1
           {[ 1 := cuda_context "FemeErrorReturn" ]} "__global__ void f( {" None []
           _ _ (run_Runs env_rejecting _)).
Defined.

Lemma initializers_stop_at_the_first_failure_witness :
  stops_at_failure
    (fst (run env_ok (CeedInit_Hip 24 "/gpu/cuda/ref" 1
                        {[ 1 := fresh_context "FemeErrorReturn" ]})))
    (snd (run env_ok (CeedInit_Hip 24 "/gpu/cuda/ref" 1
                        {[ 1 := fresh_context "FemeErrorReturn" ]}))).
Proof.
  refine (initializers_stop_at_the_first_failure 24 Hip "Hip" "/gpu/hip/ref" []
            "/gpu/cuda/ref" 9 1 {[ 1 := fresh_context "FemeErrorReturn" ]}
            _ _ _ _ (run_Runs env_ok _)).
  simpl. auto.
Defined.

Lemma CeedGpuInit_switches_device_only_when_needed_witness :
  exists ierr current,
    devices_found
      (fst (run env_ok (CeedGpuInit Cuda 1 "/gpu/cuda/2" 9
                          {[ 1 := cuda_context "FemeErrorReturn" ]})))
    = [(ierr, current)] /\
    calls is_set_device
      (fst (run env_ok (CeedGpuInit Cuda 1 "/gpu/cuda/2" 9
                          {[ 1 := cuda_context "FemeErrorReturn" ]})))
    = (if Z.eqb ierr 0 && negb (Z.eqb current (device_ordinal "/gpu/cuda/2" 9))
       then [gpuSetDevice Cuda (device_ordinal "/gpu/cuda/2" 9)] else []) /\
    (calls is_properties
       (fst (run env_ok (CeedGpuInit Cuda 1 "/gpu/cuda/2" 9
                           {[ 1 := cuda_context "FemeErrorReturn" ]}))) = [] \/
     calls is_properties
       (fst (run env_ok (CeedGpuInit Cuda 1 "/gpu/cuda/2" 9
                           {[ 1 := cuda_context "FemeErrorReturn" ]})))
     = [gpuGetDeviceProperties Cuda (device_ordinal "/gpu/cuda/2" 9)]).
Proof.
  exact (CeedGpuInit_switches_device_only_when_needed Cuda 1 "/gpu/cuda/2" 9
           {[ 1 := cuda_context "FemeErrorReturn" ]} _ _ (run_Runs env_ok _)).
Defined.


Lemma CeedInit_gpu_success_state_witness :
  exists t (h' : Heap),
    run env_ok (CeedInit_Cuda 24 "/gpu/cuda/2" 1 {[ 1 := fresh_context "FemeErrorReturn" ]})
    = (t, Returned (0%Z, h')) /\
    exists ctx ctx' prop,
      ({[ 1 := fresh_context "FemeErrorReturn" ]} : Heap) !! 1 = Some ctx /\
      h' !! 1 = Some ctx' /\
      properties_found t = [(0%Z, prop)] /\
      Error ctx' = Error ctx /\
      data ctx' = Some (CudaData {| deviceId := device_ordinal "/gpu/cuda/2" 9;
                                    optblocksize := maxThreadsPerBlock prop;
                                    blasHandle := None |}) /\
      ops ctx' !! "Destroy" = Some "CeedDestroy_Cuda" /\
      ops ctx' !! "Unregistered" = ops ctx !! "Unregistered".
Proof.
  eexists _, _. split; [vm_compute; reflexivity |].
  match goal with
  | |- exists ctx ctx' prop, _ /\ ?h' !! 1 = _ /\ properties_found ?t = _ /\ _ =>
      destruct (CeedInit_gpu_success_state 24 Cuda "Cuda" "/gpu/cuda/ref"
                  [ ("GetPreferredMemType", "CeedGetPreferredMemType_Cuda");
                    ("VectorCreate", "CeedVectorCreate_Cuda");
                    ("BasisCreateTensorH1", "CeedBasisCreateTensorH1_Cuda");
                    ("BasisCreateH1", "CeedBasisCreateH1_Cuda");
                    ("ElemRestrictionCreate", "CeedElemRestrictionCreate_Cuda");
                    ("ElemRestrictionCreateBlocked",
                     "CeedElemRestrictionCreateBlocked_Cuda");
                    ("QFunctionCreate", "CeedQFunctionCreate_Cuda");
                    ("QFunctionContextCreate", "CeedQFunctionContextCreate_Cuda");
                    ("OperatorCreate", "CeedOperatorCreate_Cuda");
                    ("CompositeOperatorCreate", "CeedCompositeOperatorCreate_Cuda");
                    ("Destroy", "CeedDestroy_Cuda") ]
                  "/gpu/cuda/2" 1 {[ 1 := fresh_context "FemeErrorReturn" ]} h' t)
        as (ctx & ctx' & prop & H1 & H2 & H3 & H4 & H5 & H6 & H7 & _)
  end.
  - eapply (run_returns env_ok). vm_compute. reflexivity.
  - vm_compute. reflexivity.
  - exists ctx, ctx', prop. split; [exact H1 |]. split; [exact H2 |].
    split; [exact H3 |]. split; [exact H4 |]. split; [exact H5 |]. split.
    + apply H6; [| simpl; tauto].
      repeat (constructor; [simpl; intuition discriminate |]). constructor.
    + apply H7. simpl. intuition discriminate.
Defined.

Lemma initializers_touch_only_their_context_witness :
  exists t code (h' : Heap),
    run env_ok (registerBackend 8 "/cpu/occa" 1
                  {[ 1 := fresh_context "FemeErrorReturn";
                     2 := cuda_context "FemeErrorAbort" ]})
    = (t, Returned (code, h')) /\
    same_elsewhere 1 {[ 1 := fresh_context "FemeErrorReturn";
                        2 := cuda_context "FemeErrorAbort" ]} h' /\
    keeps_handler 1 {[ 1 := fresh_context "FemeErrorReturn";
                       2 := cuda_context "FemeErrorAbort" ]} h'.
Proof.
  eexists _, _, _. split; [vm_compute; reflexivity |].
  refine (initializers_touch_only_their_context 8 Cuda "" "" [] "/cpu/occa" 0 1
            {[ 1 := fresh_context "FemeErrorReturn";
               2 := cuda_context "FemeErrorAbort" ]} _
            (registerBackend 8 "/cpu/occa" 1
               {[ 1 := fresh_context "FemeErrorReturn";
                  2 := cuda_context "FemeErrorAbort" ]})
            (fst (run env_ok (registerBackend 8 "/cpu/occa" 1
                                {[ 1 := fresh_context "FemeErrorReturn";
                                   2 := cuda_context "FemeErrorAbort" ]})))
            _ _ _).
  - simpl. auto.
  - eapply (run_returns env_ok). vm_compute. reflexivity.
Defined.

Lemma registrations_are_asked_in_order_witness :
  asks_in_order [ "VectorCreate"; "Destroy" ]
    (fst (run env_ok (set_functions 1 [ ("VectorCreate", "CeedVectorCreate_Cuda");
                                        ("Destroy", "CeedDestroy_Cuda") ]
                        {[ 1 := fresh_context "FemeErrorReturn" ]})))
    (snd (run env_ok (set_functions 1 [ ("VectorCreate", "CeedVectorCreate_Cuda");
                                        ("Destroy", "CeedDestroy_Cuda") ]
                        {[ 1 := fresh_context "FemeErrorReturn" ]}))).
Proof.
  exact (registrations_are_asked_in_order 1
           [ ("VectorCreate", "CeedVectorCreate_Cuda"); ("Destroy", "CeedDestroy_Cuda") ]
           {[ 1 := fresh_context "FemeErrorReturn" ]} _ _ (run_Runs env_ok _)).
Defined.

Lemma compile_loads_only_an_accepted_program_witness :
  exists prog post image,
    after_compile
      (fst (run env_ok (CeedCompile Cuda 1 {[ 1 := cuda_context "FemeErrorReturn" ]}
                          "kernel" None [])))
    = Some (prog, 0%Z, post) /\
    calls is_destroy_program
      (fst (run env_ok (CeedCompile Cuda 1 {[ 1 := cuda_context "FemeErrorReturn" ]}
                          "kernel" None [])))
    = [rtcDestroyProgram Cuda prog] /\
    calls is_load
      (fst (run env_ok (CeedCompile Cuda 1 {[ 1 := cuda_context "FemeErrorReturn" ]}
                          "kernel" None [])))
    = [gpuModuleLoadData Cuda image].
Proof.
  refine (proj1 (proj2 (compile_loads_only_an_accepted_program Cuda 1
                          {[ 1 := cuda_context "FemeErrorReturn" ]} "kernel" None []
                          _ _ (run_Runs env_ok _))) _).
  vm_compute. discriminate.
Defined.

Lemma device_ordinal_reads_back_the_decimal_suffix_witness :
  device_ordinal ("/gpu/cuda" +:+ "/" +:+ fmt_d 7) 9 = 7%Z.
Proof.
  refine (proj1 (device_ordinal_reads_back_the_decimal_suffix "/gpu/cuda" 7 "" 0) _ _).
  - simpl. intuition discriminate.
  - lia.
Defined.

Lemma kernel_options_hold_31_characters_witness :
  exists o,
    kernel_opts [ ("a_rather_long_name_of_a_kernel_constant", 5%Z) ] !! 0 = Some o /\
    String.length o
    = Nat.min 31 (String.length ("-D" +:+ fmt_s "a_rather_long_name_of_a_kernel_constant"
                                 +:+ "=" +:+ fmt_d 5)) /\
    (exists cut, "-D" +:+ fmt_s "a_rather_long_name_of_a_kernel_constant"
                 +:+ "=" +:+ fmt_d 5 = o +:+ cut) /\
    (String.length ("-D" +:+ fmt_s "a_rather_long_name_of_a_kernel_constant"
                    +:+ "=" +:+ fmt_d 5) <= 31 ->
     o = "-D" +:+ fmt_s "a_rather_long_name_of_a_kernel_constant" +:+ "=" +:+ fmt_d 5) /\
    (31 < String.length ("-D" +:+ fmt_s "a_rather_long_name_of_a_kernel_constant"
                         +:+ "=" +:+ fmt_d 5) ->
     o <> "-D" +:+ fmt_s "a_rather_long_name_of_a_kernel_constant" +:+ "=" +:+ fmt_d 5).
Proof.
  refine (proj2 (kernel_options_hold_31_characters
                   [ ("a_rather_long_name_of_a_kernel_constant", 5%Z) ] Cuda a_device)
            0 "a_rather_long_name_of_a_kernel_constant" 5%Z _).
  reflexivity.
Defined.

Lemma launch_outcomes_witness :
  let h : Heap := {[ 1 := cuda_context "FemeErrorReturn" ]} in
  let r := run env_ok (CeedRunKernelDimShared Cuda 1 h 7 120 8 8 4 256 [11; 12]%Z) in
  let launch := gpuLaunchKernel Cuda 7 120 1 1 8 8 4 256 None [11; 12]%Z None in
  (fst r = [Ev launch 0%Z] /\ snd r = Returned (0%Z, tt)) \/
  exists (status : Z) (name : string),
    status <> 0%Z /\
    ((fst r = [Ev launch status; Ev (gpuErrorName Cuda status) name] /\
      snd r = Undefined /\ h !! 1 ≫= Error = None) \/
     exists fn ret,
       h !! 1 ≫= Error = Some fn /\
       fst r = [Ev launch status; Ev (gpuErrorName Cuda status) name;
                Ev (CallError fn status name) ret] /\
       snd r = Returned (ret, tt)).
Proof.
  exact (proj2 (launch_outcomes Cuda 1 {[ 1 := cuda_context "FemeErrorReturn" ]}
                  7 120 8 8 4 256 [11; 12]%Z _ _ (run_Runs env_ok _))).
Defined.



Lemma initCeed_probes_only_without_an_explicit_mode_witness :
  let r := run env_occa_cuda
             (initCeed 8 "/gpu/occa/{device_id: 1}" 1
                {[ 1 := fresh_context "FemeErrorReturn" ]}) in
  let props := occa_props (chars "/gpu/occa/{device_id: 1}") in
  props = "{device_id: 1}" /\
  match has_mode_answers (fst r) with
  | [] => calls is_probe (fst r) = [] /\ calls is_device (fst r) = []
  | [true] =>
      calls is_probe (fst r) = [] /\
      (calls is_device (fst r) = [] \/
       calls is_device (fst r) = [occa_device props None])
  | [false] =>
      calls is_device (fst r) = [] \/
      exists mode,
        calls is_device (fst r) = [occa_device props (Some mode)] /\
        mode <> "" /\
        (last (probe_answers (fst r)) = Some (mode, true) \/ mode = "Serial")
  | _ => False
  end.
Proof.
  split; [reflexivity |].
  exact (initCeed_probes_only_without_an_explicit_mode 8 "/gpu/occa/{device_id: 1}" 1
           {[ 1 := fresh_context "FemeErrorReturn" ]} _ _ (run_Runs env_occa_cuda _)).
Defined.


Lemma registerBackend_success_state_witness :
  exists t (h' : Heap),
    run env_ok (registerBackend 8 "/cpu/occa" 1 {[ 1 := fresh_context "FemeErrorReturn" ]})
    = (t, Returned (0%Z, h')) /\
    exists ctx ctx' device,
      ({[ 1 := fresh_context "FemeErrorReturn" ]} : Heap) !! 1 = Some ctx /\
      h' !! 1 = Some ctx' /\
      devices_made t = [device] /\
      data ctx' = Some (OccaData device) /\
      ops ctx' !! "VectorCreate" = Some "ceed::occa::Vector::ceedCreate" /\
      ops ctx' !! "Destroy" = ops ctx !! "Destroy".
Proof.
  eexists _, _. split; [vm_compute; reflexivity |].
  match goal with
  | |- exists ctx ctx' device, _ /\ ?h' !! 1 = _ /\ devices_made ?t = _ /\ _ =>
      destruct (registerBackend_success_state 8 "/cpu/occa" 1
                  {[ 1 := fresh_context "FemeErrorReturn" ]} h' t)
        as (ctx & ctx' & device & H1 & H2 & H3 & _ & H5 & _ & H7 & _ & H9 & _)
  end.
  - eapply (run_returns env_ok). vm_compute. reflexivity.
  - vm_compute. reflexivity.
  - exists ctx, ctx', device. split; [exact H1 |]. split; [exact H2 |].
    split; [exact H3 |]. split; [exact H5 |]. split; [exact H7 |].
    apply H9. simpl. intuition discriminate.
Defined.

Lemma cublas_handle_is_created_once_witness :
  BRuns (CeedCudaGetCublasHandle 1 None (blas_heap None))
        [BEv cublasCreate (0%Z, Some 7%Z)]
        (Returned (0%Z, (Some 7%Z, blas_heap (Some 7%Z)))) /\
  BRuns (CeedCudaGetCublasHandle 1 None (blas_heap (Some 7%Z))) []
        (Returned (0%Z, (Some 7%Z, blas_heap (Some 7%Z)))) /\
  ([BEv cublasCreate (0%Z, Some 7%Z)] = [] -> blas_heap (Some 7%Z) = blas_heap None).
Proof.
  assert (H1 : BRuns (CeedCudaGetCublasHandle 1 None (blas_heap None))
                     [BEv cublasCreate (0%Z, Some 7%Z)]
                     (Returned (0%Z, (Some 7%Z, blas_heap (Some 7%Z))))).
  { unfold CeedCudaGetCublasHandle, CeedGetData, deref, blas_heap.
    rewrite !lookup_singleton_eq. simpl.
    eexists (0%Z, Some 7%Z), []. split; [reflexivity |]. simpl.
    split; [reflexivity |]. unfold with_data. simpl.
    rewrite insert_singleton_eq. reflexivity. }
  assert (H2 : BRuns (CeedCudaGetCublasHandle 1 None (blas_heap (Some 7%Z))) []
                     (Returned (0%Z, (Some 7%Z, blas_heap (Some 7%Z))))).
  { unfold CeedCudaGetCublasHandle, CeedGetData, deref, blas_heap.
    rewrite !lookup_singleton_eq. simpl. split; reflexivity. }
  split; [exact H1 |]. split; [exact H2 |].
  refine (proj1 (proj2 (cublas_handle_is_created_once 1 None None (blas_heap None)
                          (blas_heap (Some 7%Z))
                          [BEv cublasCreate (0%Z, Some 7%Z)] 7%Z [] _ H1 _ H2))).
  reflexivity.
Defined.


Lemma cuda_resource_with_a_plain_ordinal_opens_that_device_witness :
  exists t (h' : Heap) s,
    run env_ok (CeedInit_Cuda 24 ("/gpu/cuda/" +:+ fmt_d 3) 1
                  {[ 1 := fresh_context "FemeErrorReturn" ]})
    = (t, Returned (0%Z, h')) /\
    session Cuda (session_of h' 1) = Some s /\ deviceId s = 3%Z.
Proof.
  destruct (cuda_resource_with_a_plain_ordinal_opens_that_device 3
              (Some 40%Z) (Some 20%Z) (Some 20%Z) (Some 20%Z) (Some 20%Z))
    as (st & _ & _ & _ & _ & H); [lia |].
  assert (Hr : exists h' : Heap,
             run env_ok (CeedInit_Cuda 24 ("/gpu/cuda/" +:+ fmt_d 3) 1
                           {[ 1 := fresh_context "FemeErrorReturn" ]})
             = (fst (run env_ok (CeedInit_Cuda 24 ("/gpu/cuda/" +:+ fmt_d 3) 1
                                   {[ 1 := fresh_context "FemeErrorReturn" ]})),
                Returned (0%Z, h'))).
  { eexists. vm_compute. reflexivity. }
  destruct Hr as [h' Hr].
  destruct (H 24%Z 1 {[ 1 := fresh_context "FemeErrorReturn" ]} h' _
              (run_returns env_ok _ _ _ Hr)) as (s & Hs & Hd).
  - vm_compute. reflexivity.
  - eexists _, h', s. split; [exact Hr |]. split; [exact Hs | exact Hd].
Defined.
